(** * Job Application Co-pilot: the interaction contracts, embedded and verified

    The program is a React/TypeScript front end (src/App.tsx,
    src/pages/JobListingsPage.tsx, src/services/geminiService.ts,
    src/services/apiService.ts, src/types.ts).  Its logic is embedded here as
    Rocq functions over explicit state; asynchronous handlers are split at
    their [await] into the part that runs on the call and the part that runs
    when the promise settles.  The JavaScript built-ins the code calls
    (String.prototype.replace, String.prototype.trim, Array.prototype.sort,
    Date parsing) are embedded from ECMA-262. *)

From Stdlib Require Import List ZArith NArith QArith Lia Bool String Ascii.
From Stdlib Require Import Permutation Sorted DecimalString.
Import ListNotations.
Local Open Scope Z_scope.

(** ** JavaScript values used by the program *)

Module Js.

(** A JavaScript string is a sequence of UTF-16 code units. *)
Definition code_unit := N.
Definition jsstring := list code_unit.

(** String literals of the source, written in ASCII. *)
Definition js (s : string) : jsstring :=
  map N_of_ascii (list_ascii_of_string s).

(** [a === b] on strings. *)
Fixpoint streq (a b : jsstring) : bool :=
  match a, b with
  | [], [] => true
  | x :: a', y :: b' => N.eqb x y && streq a' b'
  | _, _ => false
  end.

(** ToBoolean on a string: the empty string is the only falsy one. *)
Definition truthy (s : jsstring) : bool :=
  match s with [] => false | _ => true end.

(** [a || b] on strings. *)
Definition or_else (a b : jsstring) : jsstring :=
  if truthy a then a else b.

(** [s.startsWith(p)], the test StringIndexOf makes at each position. *)
Fixpoint starts_with (p s : jsstring) : bool :=
  match p, s with
  | [], _ => true
  | x :: p', y :: s' => N.eqb x y && starts_with p' s'
  | _ :: _, [] => false
  end.

(** StringIndexOf(s, p, 0): the smallest index at which [p] occurs in [s],
    [None] for the -1 of the standard.  The empty pattern occurs at 0. *)
Fixpoint StringIndexOf (s p : jsstring) : option nat :=
  if starts_with p s then Some 0%nat
  else match s with
       | [] => None
       | _ :: s' => option_map S (StringIndexOf s' p)
       end.

Definition DOLLAR : code_unit := 36%N.
Definition AMPERSAND : code_unit := 38%N.
Definition APOSTROPHE : code_unit := 39%N.
Definition BACKTICK : code_unit := 96%N.

(** GetSubstitution(matched, str, position, captures, namedCaptures,
    template) for a string pattern: [captures] is empty and [namedCaptures]
    is undefined, so a dollar sign followed by digits or by "<" stands for
    itself; "$$" is a dollar sign, "$&" the matched text, "$`" the text
    before the match and "$'" the text after it.  [before] and [after] are
    the two substrings of [str] around the match. *)
Fixpoint GetSubstitution (matched before after template : jsstring)
  : jsstring :=
  match template with
  | [] => []
  | c :: rest =>
      if N.eqb c DOLLAR then
        match rest with
        | d :: rest' =>
            if N.eqb d DOLLAR then
              DOLLAR :: GetSubstitution matched before after rest'
            else if N.eqb d AMPERSAND then
              matched ++ GetSubstitution matched before after rest'
            else if N.eqb d BACKTICK then
              before ++ GetSubstitution matched before after rest'
            else if N.eqb d APOSTROPHE then
              after ++ GetSubstitution matched before after rest'
            else DOLLAR :: GetSubstitution matched before after rest
        | [] => [DOLLAR]
        end
      else c :: GetSubstitution matched before after rest
  end.

(** [s.replace(searchValue, replaceValue)] with both arguments strings:
    the first occurrence only, the replacement expanded by
    GetSubstitution. *)
Definition String_replace (s searchValue replaceValue : jsstring)
  : jsstring :=
  match StringIndexOf s searchValue with
  | None => s
  | Some pos =>
      let preceding := firstn pos s in
      let following := skipn (pos + List.length searchValue) s in
      preceding
        ++ GetSubstitution searchValue preceding following replaceValue
        ++ following
  end.

(** WhiteSpace and LineTerminator code points of ECMA-262, the ones trim
    strips. *)
Definition is_white_space (c : code_unit) : bool :=
  existsb (N.eqb c)
    [9; 10; 11; 12; 13; 32; 160; 5760; 8232; 8233; 8239; 8287; 12288;
     65279]%N
  || (N.leb 8192 c && N.leb c 8202).

Fixpoint trimStart (s : jsstring) : jsstring :=
  match s with
  | [] => []
  | c :: s' => if is_white_space c then trimStart s' else s
  end.

Definition trimEnd (s : jsstring) : jsstring :=
  rev (trimStart (rev s)).

Definition trim (s : jsstring) : jsstring := trimEnd (trimStart s).

(** [a < b] on strings: lexicographic on code units. *)
Fixpoint strlt (a b : jsstring) : bool :=
  match a, b with
  | _, [] => false
  | [], _ :: _ => true
  | x :: a', y :: b' =>
      if N.ltb x y then true
      else if N.eqb x y then strlt a' b' else false
  end.

(** A Number that is an integer or NaN ([None]); enough for the
    millisecond time values the program compares. *)
Definition number := option Z.

Definition num_lt (a b : number) : bool :=
  match a, b with
  | Some x, Some y => Z.ltb x y
  | _, _ => false
  end.

(** [a - b].  Time values lie within 8.64e15 of zero, so the sign of the
    difference, the only thing the sort reads, is the exact one. *)
Definition num_sub (a b : number) : number :=
  match a, b with
  | Some x, Some y => Some (x - y)
  | _, _ => None
  end.

(** Array.prototype.sort(comparefn).  SortCompare reads a NaN result as
    +0; a positive result puts the first argument after the second, any
    other result keeps it before.  The sort is stable (ECMA-262 since
    2019), so for a consistent comparator the outcome is the one of this
    stable insertion sort. *)
Section Sort.
Context {A : Type}.
Variable comparefn : A -> A -> number.

Definition goes_after (a b : A) : bool :=
  match comparefn a b with
  | Some v => Z.ltb 0 v
  | None => false
  end.

Fixpoint sort_insert (x : A) (l : list A) : list A :=
  match l with
  | [] => [x]
  | y :: l' => if goes_after x y then y :: sort_insert x l' else x :: l
  end.

Fixpoint Array_sort (l : list A) : list A :=
  match l with
  | [] => []
  | x :: l' => sort_insert x (Array_sort l')
  end.
End Sort.

(** [new Date(s).getTime()] on the format Date.prototype.toISOString
    writes for the years 0000 to 9999, "YYYY-MM-DDTHH:mm:ss.sssZ", the only
    format the program stores.  Strings of another form are read as NaN
    here; the theorems below take the date reader as a parameter, and this
    one serves to run them on concrete dates. *)
Definition digit (c : code_unit) : option Z :=
  if N.leb 48 c && N.leb c 57 then Some (Z.of_N c - 48) else None.

Fixpoint digits (acc : Z) (l : jsstring) : option Z :=
  match l with
  | [] => Some acc
  | c :: l' =>
      match digit c with
      | Some d => digits (10 * acc + d) l'
      | None => None
      end
  end.

Definition is_leap_year (y : Z) : bool :=
  (Z.eqb (y mod 4) 0 && negb (Z.eqb (y mod 100) 0)) || Z.eqb (y mod 400) 0.

Definition days_in_month (y m : Z) : Z :=
  if Z.eqb m 2 then (if is_leap_year y then 29 else 28)
  else if Z.eqb m 4 || Z.eqb m 6 || Z.eqb m 9 || Z.eqb m 11 then 30
  else 31.

(** Days from 1970-01-01 to the given day of the proleptic Gregorian
    calendar (MakeDay). *)
Definition days_from_civil (y m d : Z) : Z :=
  let y' := if Z.leb m 2 then y - 1 else y in
  let era := y' / 400 in
  let yoe := y' - era * 400 in
  let mp := if Z.ltb 2 m then m - 3 else m + 9 in
  let doy := (153 * mp + 2) / 5 + d - 1 in
  let doe := yoe * 365 + yoe / 4 - yoe / 100 + doy in
  era * 146097 + doe - 719468.

Definition in_range (lo hi x : Z) : bool := Z.leb lo x && Z.leb x hi.

Definition Date_getTime_iso (s : jsstring) : number :=
  match s with
  | [y1; y2; y3; y4; s1; m1; m2; s2; d1; d2; t;
     h1; h2; s3; n1; n2; s4; c1; c2; s5; f1; f2; f3; z] =>
      if streq [s1; s2; t; s3; s4; s5; z] (js "--T::.Z") then
        match digits 0 [y1; y2; y3; y4], digits 0 [m1; m2],
              digits 0 [d1; d2], digits 0 [h1; h2], digits 0 [n1; n2],
              digits 0 [c1; c2], digits 0 [f1; f2; f3] with
        | Some y, Some m, Some d, Some h, Some n, Some c, Some f =>
            if in_range 1 12 m && in_range 1 (days_in_month y m) d
               && in_range 0 23 h && in_range 0 59 n && in_range 0 59 c
            then Some ((((days_from_civil y m d * 24 + h) * 60 + n) * 60
                        + c) * 1000 + f)
            else None
        | _, _, _, _, _, _, _ => None
        end
      else None
  | _ => None
  end.

End Js.

(** ** src/types.ts *)

Module Types.
Import Js.

#[local] Set Warnings "-register-all".

(** A value JSON.parse can return. An object lists its own properties,
    each key once. *)
Inductive JSValue : Type :=
| JNull
| JBool (b : bool)
| JNumber (q : Q)
| JString (s : jsstring)
| JArray (items : list JSValue)
| JObject (properties : list (jsstring * JSValue)).

Record Keyword := {
  keyword : jsstring;
  definition : jsstring
}.

Record ImprovementSuggestion := {
  originalText : jsstring;
  suggestedRewrite : jsstring;
  suggestionType : jsstring
}.

Record JobAnalysis := {
  matchScore : Q;
  summary : jsstring;
  strengths : list jsstring;
  gaps : list jsstring;
  matchedKeywords : list Keyword;
  missingKeywords : list Keyword;
  improvementSuggestions : list ImprovementSuggestion;
  coverLetterDraft : jsstring
}.

(** [error] and [analysis] are nullable, [analyzedAt] is optional.
    [analysis] is declared JobAnalysis | null; what it holds at run time
    is null ([JNull]) or the value the analyze call resolved with, a JSON
    value no one has checked. *)
Record Job := {
  id : jsstring;
  url : jsstring;
  title : jsstring;
  company : jsstring;
  description : jsstring;
  isFetching : bool;
  isLoading : bool;
  error : option jsstring;
  analysis : JSValue;
  analyzedAt : option jsstring
}.

(** Partial<Job>: [None] is a field the object does not list; a listed
    field carries a value of the field's type. *)
Record PartialJob := {
  p_id : option jsstring;
  p_url : option jsstring;
  p_title : option jsstring;
  p_company : option jsstring;
  p_description : option jsstring;
  p_isFetching : option bool;
  p_isLoading : option bool;
  p_error : option (option jsstring);
  p_analysis : option JSValue;
  p_analyzedAt : option jsstring
}.

Definition no_updates : PartialJob :=
  {| p_id := None; p_url := None; p_title := None; p_company := None;
     p_description := None; p_isFetching := None; p_isLoading := None;
     p_error := None; p_analysis := None; p_analyzedAt := None |}.

Record SavedResume := {
  _id : jsstring;
  name : jsstring;
  content : jsstring;
  jobDescription : jsstring;
  savedAt : jsstring
}.

Record JobListing := {
  l_title : jsstring;
  l_company : jsstring;
  l_url : jsstring;
  l_snippet : jsstring
}.

Record HiringCafeJob := {
  c_id : jsstring;
  c_company_name : jsstring;
  c_title : jsstring;
  c_description : jsstring;
  c_location : jsstring;
  c_url : jsstring;
  c_tags : list jsstring;
  c_company_logo_url : jsstring;
  c_posted_at : jsstring
}.

(** Reading a JSON value at the interfaces above (extra properties are
    allowed, as in TypeScript's structural typing). *)
Fixpoint get_property (k : jsstring) (ps : list (jsstring * JSValue))
  : option JSValue :=
  match ps with
  | [] => None
  | (k', v) :: ps' => if streq k k' then Some v else get_property k ps'
  end.

Definition as_string (v : JSValue) : option jsstring :=
  match v with JString s => Some s | _ => None end.

Definition as_number (v : JSValue) : option Q :=
  match v with JNumber q => Some q | _ => None end.

Fixpoint all_some {A : Type} (l : list (option A)) : option (list A) :=
  match l with
  | [] => Some []
  | Some a :: l' => option_map (cons a) (all_some l')
  | None :: _ => None
  end.

Definition as_array {A : Type} (f : JSValue -> option A) (v : JSValue)
  : option (list A) :=
  match v with JArray l => all_some (map f l) | _ => None end.

Definition field {A : Type} (f : JSValue -> option A) (k : string)
  (v : JSValue) : option A :=
  match v with
  | JObject ps =>
      match get_property (js k) ps with Some x => f x | None => None end
  | _ => None
  end.

Definition as_Keyword (v : JSValue) : option Keyword :=
  match field as_string "keyword" v, field as_string "definition" v with
  | Some k, Some d => Some {| keyword := k; definition := d |}
  | _, _ => None
  end.

Definition as_ImprovementSuggestion (v : JSValue)
  : option ImprovementSuggestion :=
  match field as_string "originalText" v,
        field as_string "suggestedRewrite" v,
        field as_string "suggestionType" v with
  | Some o, Some r, Some t =>
      Some {| originalText := o; suggestedRewrite := r;
              suggestionType := t |}
  | _, _, _ => None
  end.

Definition as_JobAnalysis (v : JSValue) : option JobAnalysis :=
  match field as_number "matchScore" v,
        field as_string "summary" v,
        field (as_array as_string) "strengths" v,
        field (as_array as_string) "gaps" v,
        field (as_array as_Keyword) "matchedKeywords" v,
        field (as_array as_Keyword) "missingKeywords" v,
        field (as_array as_ImprovementSuggestion) "improvementSuggestions" v,
        field as_string "coverLetterDraft" v with
  | Some ms, Some su, Some st, Some ga, Some mk, Some mi, Some im, Some co =>
      Some {| matchScore := ms; summary := su; strengths := st; gaps := ga;
              matchedKeywords := mk; missingKeywords := mi;
              improvementSuggestions := im; coverLetterDraft := co |}
  | _, _, _, _, _, _, _, _ => None
  end.

End Types.

(** ** What the browser hands to the services

    A promise resolves with a value or rejects with an error; of the error
    only [message] is read by the program. *)

Module Net.
Import Js Types.

Inductive Outcome (A : Type) : Type :=
| Resolved (value : A)
| Rejected (message : jsstring).
Arguments Resolved {A} value.
Arguments Rejected {A} message.

(** What JSON.parse makes of a text: a value, or a SyntaxError. *)
Inductive Parse : Type :=
| Parsed (value : JSValue)
| SyntaxError (message : jsstring).

(** Reading the body of a response: the read fails, or gives the text
    together with what JSON.parse makes of that text (the parser is the
    browser's, so each text comes with its reading). *)
Inductive Body : Type :=
| BodyFails (message : jsstring)
| BodyText (text : jsstring) (json : Parse).

Record Response := {
  ok : bool;
  status : N;
  statusText : jsstring;
  body : Body
}.

(** [await fetch(...)]: a response of any status, or a rejection when the
    request could not be made. *)
Inductive Fetch : Type :=
| FetchRejects (message : jsstring)
| FetchResolves (resp : Response).

(** The messages of the TypeErrors the engine raises on a property read
    of null and on a call of something that is not a function. *)
Record Engine := {
  null_property_message : jsstring;
  not_a_function_message : jsstring
}.

End Net.

(** ** src/services/geminiService.ts *)

Module GeminiService.
Import Js Types Net.

(** [handleResponse]: the text is read outside the try block; an empty
    text gives the empty object, a text that does not parse gives the text
    itself. *)
Definition handleResponse (resp : Response) : Outcome JSValue :=
  match body resp with
  | BodyFails m => Rejected m
  | BodyText text json =>
      if truthy text then
        match json with
        | Parsed v => Resolved v
        | SyntaxError _ => Resolved (JString text)
        end
      else Resolved (JObject [])
  end.

(** [analyzeJobFit]; the result is what [data as JobAnalysis] holds at run
    time, a JSON value no one has checked. *)
Definition analyzeJobFit (net : Fetch) : Outcome JSValue :=
  match net with
  | FetchRejects m => Rejected m
  | FetchResolves resp =>
      if negb (ok resp) then
        match body resp with
        | BodyFails m => Rejected m
        | BodyText text _ =>
            Rejected (js "Failed to analyze job fit: "
                        ++ or_else text (statusText resp))
        end
      else handleResponse resp
  end.

(** ToBoolean of a JSON value. *)
Definition truthy_value (v : JSValue) : bool :=
  match v with
  | JNull => false
  | JBool b => b
  | JNumber q => negb (Qeq_bool q 0)
  | JString s => truthy s
  | JArray _ | JObject _ => true
  end.

(** [(data.text || '').trim()] *)
Definition text_of_data (engine : Engine) (data : JSValue)
  : Outcome jsstring :=
  match data with
  | JNull => Rejected (null_property_message engine)
  | JObject ps =>
      match get_property (js "text") ps with
      | Some v =>
          if truthy_value v then
            match v with
            | JString s => Resolved (trim s)
            | _ => Rejected (not_a_function_message engine)
            end
          else Resolved (trim [])
      | None => Resolved (trim [])
      end
  | _ => Resolved (trim [])
  end.

Definition fetchJobDescriptionFromUrl (engine : Engine) (net : Fetch)
  : Outcome jsstring :=
  match net with
  | FetchRejects m => Rejected m
  | FetchResolves resp =>
      if negb (ok resp) then
        match body resp with
        | BodyFails m => Rejected m
        | BodyText text _ =>
            Rejected (js "Failed to fetch job description: "
                        ++ or_else text (statusText resp))
        end
      else
        match body resp with
        | BodyFails m => Rejected m
        | BodyText _ (SyntaxError m) => Rejected m
        | BodyText _ (Parsed data) => text_of_data engine data
        end
  end.

(** [calculateDistance]; the result is what [data as DistanceResult]
    holds at run time. *)
Definition calculateDistance (net : Fetch) : Outcome JSValue :=
  match net with
  | FetchRejects m => Rejected m
  | FetchResolves resp =>
      if negb (ok resp) then
        match body resp with
        | BodyFails m => Rejected m
        | BodyText text _ =>
            Rejected (js "Failed to calculate distance: "
                        ++ or_else text (statusText resp))
        end
      else
        match body resp with
        | BodyFails m => Rejected m
        | BodyText _ (SyntaxError m) => Rejected m
        | BodyText _ (Parsed data) => Resolved data
        end
  end.

(** [data.address || ''], with the message of the TypeError the engine
    raises when [data] is null. *)
Definition address_of_data (null_message : jsstring) (data : JSValue)
  : Outcome JSValue :=
  match data with
  | JNull => Rejected null_message
  | JObject ps =>
      match get_property (js "address") ps with
      | Some v => if truthy_value v then Resolved v else Resolved (JString [])
      | None => Resolved (JString [])
      end
  | _ => Resolved (JString [])
  end.

(** [getAddressFromCoordinates]; the result is declared a string and is
    whatever truthy value the answer has under "address". *)
Definition getAddressFromCoordinates (null_message : jsstring) (net : Fetch)
  : Outcome JSValue :=
  match net with
  | FetchRejects m => Rejected m
  | FetchResolves resp =>
      if negb (ok resp) then
        match body resp with
        | BodyFails m => Rejected m
        | BodyText text _ =>
            Rejected (js "Failed to get address from coordinates: "
                        ++ or_else text (statusText resp))
        end
      else
        match body resp with
        | BodyFails m => Rejected m
        | BodyText _ (SyntaxError m) => Rejected m
        | BodyText _ (Parsed data) => address_of_data null_message data
        end
  end.

(** [searchForJobs], of which the client only has a stub. *)
Definition searchForJobs (_query _site : jsstring)
  : Outcome (list JobListing) :=
  Rejected
    (js "searchForJobs is not implemented in the client. Implement a backend endpoint to perform job site searches.").

End GeminiService.

(** ** src/services/apiService.ts *)

Module ApiService.
Import Js Types Net.

(** The localStorage item 'savedResumes_db_mock': [None] when getItem
    gives null, otherwise the array its JSON text holds (the item is only
    written by [JSON.stringify] of an array of records). *)
Definition Storage := option (list SavedResume).

(** A result typed [T] that is either the server's JSON, cast to [T]
    without a check, or a value built from the local cache. *)
Inductive Reply (T : Type) : Type :=
| FromServer (data : JSValue)
| FromCache (value : T).
Arguments FromServer {T} data.
Arguments FromCache {T} value.

(** encodeURIComponent throws a URIError on a lone surrogate. *)
Definition is_high_surrogate (c : code_unit) : bool :=
  N.leb 55296 c && N.leb c 56319.
Definition is_low_surrogate (c : code_unit) : bool :=
  N.leb 56320 c && N.leb c 57343.

Fixpoint well_formed (s : jsstring) : bool :=
  match s with
  | [] => true
  | c :: s' =>
      if is_high_surrogate c then
        match s' with
        | d :: s'' => is_low_surrogate d && well_formed s''
        | [] => false
        end
      else negb (is_low_surrogate c) && well_formed s'
  end.

Definition decimal (n : N) : jsstring :=
  js (NilZero.string_of_uint (N.to_uint n)).

Section WithTemplate.
(** [templateResumeContent] of src/data/defaultData, a text constant. *)
Variable templateResumeContent : jsstring.

(** The record [seedInitialData] builds; [uuid] is what uuidv4() returns
    and [now] what new Date().toISOString() returns at that moment. *)
Definition templateResume (uuid now : jsstring) : SavedResume :=
  {| _id := uuid;
     name := js "General Resume Template";
     content := templateResumeContent;
     jobDescription := [];
     savedAt := now |}.

Definition seedInitialData (uuid now : jsstring) : Storage :=
  Some [templateResume uuid now].

Definition readLocalResumes (uuid now : jsstring) (st : Storage)
  : list SavedResume * Storage :=
  match st with
  | None =>
      let st' := seedInitialData uuid now in
      (match st' with Some l => l | None => [] end, st')
  | Some l => (l, st)
  end.

Definition writeLocalResumes (resumes : list SavedResume) : Storage :=
  Some resumes.

Definition tryFetchJson (net : Fetch) : Outcome JSValue :=
  match net with
  | FetchRejects m => Rejected m
  | FetchResolves resp =>
      if negb (ok resp) then
        Rejected (js "HTTP " ++ decimal (status resp) ++ js " "
                    ++ statusText resp)
      else
        match body resp with
        | BodyFails m => Rejected m
        | BodyText _ (SyntaxError m) => Rejected m
        | BodyText _ (Parsed v) => Resolved v
        end
  end.

Section WithClock.
(** [new Date(s).getTime()] *)
Variable Date_getTime : jsstring -> number.

Definition bySavedAtDesc (a b : SavedResume) : number :=
  num_sub (Date_getTime (savedAt b)) (Date_getTime (savedAt a)).

Definition getResumes (net : Fetch) (uuid now : jsstring) (st : Storage)
  : Outcome (Reply (list SavedResume)) * Storage :=
  match tryFetchJson net with
  | Resolved data => (Resolved (FromServer data), st)
  | Rejected _ =>
      let (resumes, st') := readLocalResumes uuid now st in
      (Resolved (FromCache (Array_sort bySavedAtDesc resumes)), st')
  end.
End WithClock.

Definition saveResume (name content jobDescription : jsstring)
  (net : Fetch) (uuid now uuid' now' : jsstring) (st : Storage)
  : Outcome (Reply SavedResume) * Storage :=
  match tryFetchJson net with
  | Resolved data => (Resolved (FromServer data), st)
  | Rejected _ =>
      let (existing, _) := readLocalResumes uuid now st in
      let newResume :=
        {| _id := uuid'; name := name; content := content;
           jobDescription := jobDescription; savedAt := now' |} in
      (Resolved (FromCache newResume),
       writeLocalResumes (newResume :: existing))
  end.

Definition not_found (id : jsstring) : jsstring :=
  js "Resume with ID " ++ id ++ js " not found".

(** [deleteResume]: the response of the DELETE request is not looked at;
    the catch block runs when building the address throws or when fetch
    rejects. *)
Definition deleteResume (id : jsstring) (net : Fetch)
  (uuid now : jsstring) (st : Storage) : Outcome bool * Storage :=
  let local :=
    let (existing, st') := readLocalResumes uuid now st in
    let updated := filter (fun r => negb (streq (_id r) id)) existing in
    if Nat.eqb (List.length updated) (List.length existing)
    then (Rejected (not_found id), st')
    else (Resolved true, writeLocalResumes updated) in
  if well_formed id then
    match net with
    | FetchResolves _ => (Resolved true, st)
    | FetchRejects _ => local
    end
  else local.

Record Patch := {
  patch_name : option jsstring;
  patch_content : option jsstring;
  patch_jobDescription : option jsstring
}.

Definition patched (r : SavedResume) (patch : Patch) : SavedResume :=
  {| _id := _id r;
     name := match patch_name patch with Some v => v | None => name r end;
     content :=
       match patch_content patch with Some v => v | None => content r end;
     jobDescription :=
       match patch_jobDescription patch with
       | Some v => v
       | None => jobDescription r
       end;
     savedAt := savedAt r |}.

(** [existing[idx] = updated] at the first index whose record has the
    id. *)
Fixpoint patch_first (id : jsstring) (patch : Patch)
  (l : list SavedResume) : option (SavedResume * list SavedResume) :=
  match l with
  | [] => None
  | r :: l' =>
      if streq (_id r) id then Some (patched r patch, patched r patch :: l')
      else
        match patch_first id patch l' with
        | Some (u, l'') => Some (u, r :: l'')
        | None => None
        end
  end.

Definition updateResume (id : jsstring) (patch : Patch) (net : Fetch)
  (uuid now : jsstring) (st : Storage)
  : Outcome (Reply SavedResume) * Storage :=
  let local :=
    let (existing, st') := readLocalResumes uuid now st in
    match patch_first id patch existing with
    | None => (Rejected (not_found id), st')
    | Some (updated, existing') =>
        (Resolved (FromCache updated), writeLocalResumes existing')
    end in
  if well_formed id then
    match tryFetchJson net with
    | Resolved data => (Resolved (FromServer data), st)
    | Rejected _ => local
    end
  else local.
End WithTemplate.

End ApiService.

(** ** src/App.tsx *)

Module App.
Import Js Types Net.

Inductive View : Type := listings | search | resumes | agencies | hiringCafe.

(** The state the handlers below read and write (the three flags that
    open the About, Privacy and Distance dialogs are touched by none of
    them). *)
Record State := {
  view : View;
  resume : jsstring;
  jobs : list Job;
  activeSuggestion : option ImprovementSuggestion
}.

Definition setView (v : View) (st : State) : State :=
  {| view := v; resume := resume st; jobs := jobs st;
     activeSuggestion := activeSuggestion st |}.

Definition setResume (f : jsstring -> jsstring) (st : State) : State :=
  {| view := view st; resume := f (resume st); jobs := jobs st;
     activeSuggestion := activeSuggestion st |}.

Definition setJobs (f : list Job -> list Job) (st : State) : State :=
  {| view := view st; resume := resume st; jobs := f (jobs st);
     activeSuggestion := activeSuggestion st |}.

Definition setActiveSuggestion (s : option ImprovementSuggestion)
  (st : State) : State :=
  {| view := view st; resume := resume st; jobs := jobs st;
     activeSuggestion := s |}.

Definition initial (templateResumeContent : jsstring) : State :=
  {| view := listings; resume := templateResumeContent; jobs := [];
     activeSuggestion := None |}.

(** [uuid] is the value uuidv4() returns in the call. *)
Definition handleAddJob (uuid : jsstring) (st : State) : State :=
  let newJob :=
    {| id := uuid;
       url := [];
       title := js "New Job Listing";
       company := js "Company Name";
       description := [];
       isFetching := false;
       isLoading := false;
       error := None;
       analysis := JNull;
       analyzedAt := None |} in
  setJobs (fun prev => newJob :: prev) st.

Definition pick {A : Type} (update : option A) (old : A) : A :=
  match update with Some v => v | None => old end.

(** The object spread of a job and an update, the update's fields last. *)
Definition spread (j : Job) (updates : PartialJob) : Job :=
  {| id := pick (p_id updates) (id j);
     url := pick (p_url updates) (url j);
     title := pick (p_title updates) (title j);
     company := pick (p_company updates) (company j);
     description := pick (p_description updates) (description j);
     isFetching := pick (p_isFetching updates) (isFetching j);
     isLoading := pick (p_isLoading updates) (isLoading j);
     error := pick (p_error updates) (error j);
     analysis := pick (p_analysis updates) (analysis j);
     analyzedAt :=
       match p_analyzedAt updates with
       | Some v => Some v
       | None => analyzedAt j
       end |}.

Definition handleUpdateJob (jobId : jsstring) (updates : PartialJob)
  (st : State) : State :=
  setJobs (map (fun j => if streq (id j) jobId then spread j updates else j))
    st.

Definition handleRemoveJob (jobId : jsstring) (st : State) : State :=
  setJobs (filter (fun j => negb (streq (id j) jobId))) st.

(** A request in flight, with the arguments its caller captured. *)
Inductive Call : Type :=
| SearchFetch (jobId url : jsstring)
| DescriptionFetch (jobId url : jsstring)
| Analysis (jobId resumeText descriptionText : jsstring).

(** [handleAddJobFromSearch], up to the request of its async block. *)
Definition handleAddJobFromSearch (listing : JobListing) (uuid : jsstring)
  (st : State) : State * Call :=
  let newJob :=
    {| id := uuid;
       url := l_url listing;
       title := l_title listing;
       company := l_company listing;
       description := js "Fetching description...";
       isFetching := true;
       isLoading := false;
       error := None;
       analysis := JNull;
       analyzedAt := None |} in
  (setJobs (fun prev => newJob :: prev) (setView listings st),
   SearchFetch uuid (l_url listing)).

(** The rest of that async block, run when the request settles. *)
Definition handleAddJobFromSearch_settled (jobId : jsstring)
  (o : Outcome jsstring) (st : State) : State :=
  match o with
  | Resolved d =>
      handleUpdateJob jobId
        {| p_id := None; p_url := None; p_title := None; p_company := None;
           p_description := Some d; p_isFetching := Some false;
           p_isLoading := None; p_error := None; p_analysis := None;
           p_analyzedAt := None |} st
  | Rejected m =>
      handleUpdateJob jobId
        {| p_id := None; p_url := None; p_title := None; p_company := None;
           p_description :=
             Some (js "Failed to fetch job description. Please paste it manually.");
           p_isFetching := Some false;
           p_isLoading := None; p_error := Some (Some m); p_analysis := None;
           p_analyzedAt := None |} st
  end.

Definition handleAddJobFromCafe (listing : HiringCafeJob) (uuid : jsstring)
  (st : State) : State :=
  let newJob :=
    {| id := uuid;
       url := c_url listing;
       title := c_title listing;
       company := c_company_name listing;
       description := c_description listing;
       isFetching := false;
       isLoading := false;
       error := None;
       analysis := JNull;
       analyzedAt := None |} in
  setJobs (fun prev => newJob :: prev) (setView listings st).

(** [jobs.find(j => j.id === id)] *)
Definition find_job (jobId : jsstring) (l : list Job) : option Job :=
  find (fun j => streq (id j) jobId) l.

(** [handleFetchDescription] up to its await: the new state and the
    request it issues, if any. *)
Definition handleFetchDescription (jobId : jsstring) (st : State)
  : State * option Call :=
  match find_job jobId (jobs st) with
  | None => (st, None)
  | Some job =>
      if negb (truthy (url job)) then (st, None)
      else
        (handleUpdateJob jobId
           {| p_id := None; p_url := None; p_title := None;
              p_company := None; p_description := None;
              p_isFetching := Some true; p_isLoading := None;
              p_error := Some None; p_analysis := None;
              p_analyzedAt := None |} st,
         Some (DescriptionFetch jobId (url job)))
  end.

(** [handleFetchDescription] after its await. *)
Definition handleFetchDescription_settled (jobId : jsstring)
  (o : Outcome jsstring) (st : State) : State :=
  match o with
  | Resolved d =>
      handleUpdateJob jobId
        {| p_id := None; p_url := None; p_title := None; p_company := None;
           p_description := Some d; p_isFetching := Some false;
           p_isLoading := None; p_error := None; p_analysis := None;
           p_analyzedAt := None |} st
  | Rejected m =>
      handleUpdateJob jobId
        {| p_id := None; p_url := None; p_title := None; p_company := None;
           p_description := None; p_isFetching := Some false;
           p_isLoading := None; p_error := Some (Some m); p_analysis := None;
           p_analyzedAt := None |} st
  end.

(** [handleAnalyzeJob] up to its await. *)
Definition handleAnalyzeJob (jobId : jsstring) (st : State)
  : State * option Call :=
  match find_job jobId (jobs st) with
  | None => (st, None)
  | Some job =>
      if negb (truthy (trim (resume st)))
         || negb (truthy (trim (description job)))
      then (st, None)
      else
        (handleUpdateJob jobId
           {| p_id := None; p_url := None; p_title := None;
              p_company := None; p_description := None;
              p_isFetching := None; p_isLoading := Some true;
              p_error := Some None; p_analysis := None;
              p_analyzedAt := None |} st,
         Some (Analysis jobId (resume st) (description job)))
  end.

(** [handleAnalyzeJob] after its await; [o] is how analyzeJobFit settled
    ([result] is stored as it came), [now] is what
    new Date().toISOString() returns when the call has succeeded. *)
Definition handleAnalyzeJob_settled (jobId : jsstring)
  (o : Outcome JSValue) (now : jsstring) (st : State) : State :=
  match o with
  | Resolved result =>
      handleUpdateJob jobId
        {| p_id := None; p_url := None; p_title := None; p_company := None;
           p_description := None; p_isFetching := None;
           p_isLoading := Some false; p_error := None;
           p_analysis := Some result; p_analyzedAt := Some now |} st
  | Rejected m =>
      handleUpdateJob jobId
        {| p_id := None; p_url := None; p_title := None; p_company := None;
           p_description := None; p_isFetching := None;
           p_isLoading := Some false; p_error := Some (Some m);
           p_analysis := None; p_analyzedAt := None |} st
  end.

Definition handleLoadResume (content : jsstring) (st : State) : State :=
  setView listings (setResume (fun _ => content) st).

Definition handleApplySuggestion (suggestion : ImprovementSuggestion)
  (st : State) : State :=
  setActiveSuggestion None
    (setResume
       (fun current =>
          String_replace current (originalText suggestion)
            (suggestedRewrite suggestion))
       st).

(** *** The event loop

    The application together with the requests in flight.  One step is
    one event: a user action on the page, or the settlement of a request
    in flight with whatever outcome the network gives it. *)
Record World := {
  app : State;
  pending : list Call
}.

Definition issue (c : option Call) (p : list Call) : list Call :=
  match c with Some c => c :: p | None => p end.

Definition url_edit (v : jsstring) : PartialJob :=
  {| p_id := None; p_url := Some v; p_title := None; p_company := None;
     p_description := None; p_isFetching := None; p_isLoading := None;
     p_error := None; p_analysis := None; p_analyzedAt := None |}.

Definition description_edit (v : jsstring) : PartialJob :=
  {| p_id := None; p_url := None; p_title := None; p_company := None;
     p_description := Some v; p_isFetching := None; p_isLoading := None;
     p_error := None; p_analysis := None; p_analyzedAt := None |}.

Inductive step (w : World) : World -> Prop :=
| on_add_job uuid :
    step w {| app := handleAddJob uuid (app w); pending := pending w |}
| on_edit_url jobId v :
    step w {| app := handleUpdateJob jobId (url_edit v) (app w);
              pending := pending w |}
| on_edit_description jobId v :
    step w {| app := handleUpdateJob jobId (description_edit v) (app w);
              pending := pending w |}
| on_remove_job jobId :
    step w {| app := handleRemoveJob jobId (app w); pending := pending w |}
| on_fetch jobId :
    step w {| app := fst (handleFetchDescription jobId (app w));
              pending :=
                issue (snd (handleFetchDescription jobId (app w)))
                  (pending w) |}
| on_fetch_settled jobId u o p1 p2 :
    pending w = p1 ++ DescriptionFetch jobId u :: p2 ->
    step w {| app := handleFetchDescription_settled jobId o (app w);
              pending := p1 ++ p2 |}
| on_analyze jobId :
    step w {| app := fst (handleAnalyzeJob jobId (app w));
              pending :=
                issue (snd (handleAnalyzeJob jobId (app w))) (pending w) |}
| on_analyze_settled jobId r d o now p1 p2 :
    pending w = p1 ++ Analysis jobId r d :: p2 ->
    step w {| app := handleAnalyzeJob_settled jobId o now (app w);
              pending := p1 ++ p2 |}
| on_add_from_search listing uuid :
    step w {| app := fst (handleAddJobFromSearch listing uuid (app w));
              pending :=
                snd (handleAddJobFromSearch listing uuid (app w))
                  :: pending w |}
| on_search_settled jobId u o p1 p2 :
    pending w = p1 ++ SearchFetch jobId u :: p2 ->
    step w {| app := handleAddJobFromSearch_settled jobId o (app w);
              pending := p1 ++ p2 |}
| on_add_from_cafe listing uuid :
    step w {| app := handleAddJobFromCafe listing uuid (app w);
              pending := pending w |}
| on_edit_resume text :
    step w {| app := setResume (fun _ => text) (app w);
              pending := pending w |}
| on_load_resume content :
    step w {| app := handleLoadResume content (app w);
              pending := pending w |}
| on_select_suggestion s :
    step w {| app := setActiveSuggestion (Some s) (app w);
              pending := pending w |}
| on_close_suggestion :
    step w {| app := setActiveSuggestion None (app w);
              pending := pending w |}
| on_accept_suggestion s :
    activeSuggestion (app w) = Some s ->
    step w {| app := handleApplySuggestion s (app w);
              pending := pending w |}
| on_navigate v :
    step w {| app := setView v (app w); pending := pending w |}.

Inductive reachable (templateResumeContent : jsstring) : World -> Prop :=
| at_start :
    reachable templateResumeContent
      {| app := initial templateResumeContent; pending := [] |}
| after_step w w' :
    reachable templateResumeContent w -> step w w' ->
    reachable templateResumeContent w'.

(** An analyze call for the job is in flight. *)
Definition analyzing (jobId : jsstring) (w : World) : Prop :=
  exists r d, In (Analysis jobId r d) (pending w).

End App.

(** ** src/pages/JobListingsPage.tsx *)

Module JobListingsPage.
Import Js Types.

Inductive SortKey : Type := byTitle | byCompany | byAnalyzedAt.
Inductive SortDirection : Type := asc | desc.

Definition same_key (a b : SortKey) : bool :=
  match a, b with
  | byTitle, byTitle | byCompany, byCompany
  | byAnalyzedAt, byAnalyzedAt => true
  | _, _ => false
  end.

(** [handleSort] on the pair (sortKey, sortDirection). *)
Definition handleSort (key : SortKey) (st : SortKey * SortDirection)
  : SortKey * SortDirection :=
  let (sortKey, sortDirection) := st in
  if same_key key sortKey then
    (sortKey, match sortDirection with asc => desc | desc => asc end)
  else
    (key, match key with byAnalyzedAt => desc | _ => asc end).

Section WithBuiltins.
(** [new Date(s).getTime()] and [s.toLowerCase()] *)
Variable Date_getTime : jsstring -> number.
Variable toLowerCase : jsstring -> jsstring.

(** [a.analyzedAt ? new Date(a.analyzedAt).getTime() : 0] *)
Definition analyzedAt_value (a : Job) : number :=
  match analyzedAt a with
  | Some s => if truthy s then Date_getTime s else Some 0
  | None => Some 0
  end.

(** [a[sortKey]?.toLowerCase() || ''] for the two text keys *)
Definition text_value (sortKey : SortKey) (a : Job) : jsstring :=
  or_else
    (toLowerCase
       (match sortKey with byCompany => company a | _ => title a end))
    [].

(** The comparator of [sortedJobs]. *)
Definition compareJobs (sortKey : SortKey) (sortDirection : SortDirection)
  (a b : Job) : number :=
  let (lt, gt) :=
    match sortKey with
    | byAnalyzedAt =>
        (num_lt (analyzedAt_value a) (analyzedAt_value b),
         num_lt (analyzedAt_value b) (analyzedAt_value a))
    | _ =>
        (strlt (text_value sortKey a) (text_value sortKey b),
         strlt (text_value sortKey b) (text_value sortKey a))
    end in
  if lt then
    match sortDirection with asc => Some (-1) | desc => Some 1 end
  else if gt then
    match sortDirection with asc => Some 1 | desc => Some (-1) end
  else Some 0.

Definition sortedJobs (jobs : list Job) (sortKey : SortKey)
  (sortDirection : SortDirection) : list Job :=
  Array_sort (compareJobs sortKey sortDirection) jobs.
End WithBuiltins.

End JobListingsPage.

(** ** services/hiringCafeService.ts *)

Module HiringCafeService.
Import Js Types Net.

(** [fetchHiringCafeJobs]: whatever goes wrong inside the try block is
    logged and replaced by one error. *)
Definition fetchHiringCafeJobs (net : Fetch) : Outcome JSValue :=
  let failed :=
    Rejected
      (js "Failed to load job listings from hiring.cafe. Please try again later.")
  in
  match net with
  | FetchRejects _ => failed
  | FetchResolves resp =>
      if negb (ok resp) then failed
      else
        match body resp with
        | BodyText _ (Parsed data) => Resolved data
        | _ => failed
        end
  end.

End HiringCafeService.

(** ** pages/ResumesPage.tsx *)

Module ResumesPage.
Import Js Types Net.

Record State := {
  resumes : list SavedResume;
  isLoading : bool;
  error : option jsstring
}.

(** [handleDelete] up to its await: the record is taken off the list at
    once; [originalResumes], the list as it was, is kept for the case of a
    failure. *)
Definition handleDelete (id : jsstring) (st : State)
  : State * list SavedResume :=
  ({| resumes := filter (fun r => negb (streq (_id r) id)) (resumes st);
      isLoading := isLoading st;
      error := error st |},
   resumes st).

(** [handleDelete] after its await. *)
Definition handleDelete_settled (originalResumes : list SavedResume)
  (o : Outcome bool) (st : State) : State :=
  match o with
  | Resolved _ => st
  | Rejected m =>
      {| resumes := originalResumes;
         isLoading := isLoading st;
         error :=
           Some (or_else m
                   (js "Failed to delete resume. Please try again.")) |}
  end.

(** [resume.name.replace(/[^a-z0-9]/gi, '_').toLowerCase()].  Without the
    u flag, ignoreCase lets no code unit above 127 match an ASCII letter,
    so the class leaves the ASCII letters and digits and nothing else; the
    string that is lowered is ASCII. *)
Definition is_alnum (c : code_unit) : bool :=
  (N.leb 48 c && N.leb c 57) || (N.leb 65 c && N.leb c 90)
  || (N.leb 97 c && N.leb c 122).

Definition UNDERSCORE : code_unit := 95%N.

Definition lower (c : code_unit) : code_unit :=
  if N.leb 65 c && N.leb c 90 then (c + 32)%N else c.

Definition safeName (name : jsstring) : jsstring :=
  map lower (map (fun c => if is_alnum c then c else UNDERSCORE) name).

(** The name [handleDownload] gives the file. *)
Definition download (resume : SavedResume) : jsstring :=
  js "resume_" ++ safeName (name resume) ++ js ".txt".

End ResumesPage.

(** ** pages/JobSearchPage.tsx *)

Module JobSearchPage.
Import Js Types Net.

Inductive JobSite : Type := linkedin | indeed | workday.

Definition site_name (s : JobSite) : jsstring :=
  match s with
  | linkedin => js "linkedin.com/jobs"
  | indeed => js "indeed.com"
  | workday => js "myworkdayjobs.com"
  end.

Record State := {
  query : jsstring;
  site : JobSite;
  results : list JobListing;
  isLoading : bool;
  error : option jsstring
}.

(** [handleSearch] after its await, [o] being what the search gave; the
    finally block runs last. *)
Definition handleSearch_settled (o : Outcome (list JobListing)) (st : State)
  : State :=
  match o with
  | Resolved jobListings =>
      {| query := query st; site := site st; results := jobListings;
         isLoading := false;
         error :=
           match jobListings with
           | [] =>
               Some (js "No job listings found for your search criteria. Try different keywords.")
           | _ :: _ => error st
           end |}
  | Rejected m =>
      {| query := query st; site := site st; results := results st;
         isLoading := false;
         error :=
           Some (or_else m
                   (js "An unexpected error occurred during the search.")) |}
  end.

(** [handleSearch] with the search of geminiService.ts, which settles
    without a request. *)
Definition handleSearch (st : State) : State :=
  if negb (truthy (trim (query st))) then st
  else
    handleSearch_settled
      (GeminiService.searchForJobs (query st) (site_name (site st)))
      {| query := query st; site := site st; results := [];
         isLoading := true; error := None |}.

End JobSearchPage.

(** ** components/DistanceCheckerModal.tsx *)

Module DistanceCheckerModal.
Import Js Types Net.

(** [result] is declared DistanceResult | null; what it holds at run time
    is null ([JNull], nothing to show) or the value calculateDistance
    resolved with. *)
Record State := {
  origin : jsstring;
  destination : jsstring;
  isLoading : bool;
  isGettingLocation : bool;
  error : option jsstring;
  result : JSValue
}.




End DistanceCheckerModal.

(** ** server.js

    The handlers of the proxy, for requests whose fields are strings (or
    numbers, for the coordinates) or absent, as the client sends them. *)

Module Server.
Import Js Types Net.

(** [res.status(code).json(payload)] *)
Record Reply := {
  code : N;
  payload : JSValue
}.

Definition error_reply (c : N) (message : string) : Reply :=
  {| code := c; payload := JObject [(js "error", JString (js message))] |}.

(** [await ai.models.generateContent(...)]: the call throws, or gives a
    response whose [text] is a string or undefined; [json] is what
    JSON.parse makes of that text once trimmed. *)
Inductive Generate : Type :=
| GenerateThrows
| GenerateText (text : option jsstring) (json : Parse).

(** [response.text?.trim()], the empty string standing for undefined as
    well: the handlers only test it for truth. *)
Definition trimmed_text (text : option jsstring) : jsstring :=
  match text with Some t => trim t | None => [] end.

(** A field of [req.body] that is absent or the empty string. *)
Definition missing (v : option jsstring) : bool :=
  match v with Some s => negb (truthy s) | None => true end.

(** POST /api/analyze *)
Definition analyze (resume jobDescription : option jsstring) (g : Generate)
  : Reply :=
  if missing resume || missing jobDescription then
    error_reply 400 "Missing resume or jobDescription"
  else
    match g with
    | GenerateThrows => error_reply 500 "Failed to analyze job fit"
    | GenerateText text json =>
        if negb (truthy (trimmed_text text)) then
          error_reply 502 "Empty response from model"
        else
          match json with
          | Parsed parsed => {| code := 200; payload := parsed |}
          | SyntaxError _ => error_reply 500 "Failed to analyze job fit"
          end
    end.

(** POST /api/fetch-description *)
Definition fetch_description (url : option jsstring) (g : Generate) : Reply :=
  if missing url then error_reply 400 "Missing url"
  else
    match g with
    | GenerateThrows => error_reply 500 "Failed to fetch job description"
    | GenerateText text _ =>
        {| code := 200;
           payload := JObject [(js "text", JString (trimmed_text text))] |}
    end.

(** POST /api/distance: an empty text is read as "{}". *)
Definition distance (origin destination : option jsstring) (g : Generate)
  : Reply :=
  if missing origin || missing destination then
    error_reply 400 "Missing origin or destination"
  else
    match g with
    | GenerateThrows => error_reply 500 "Failed to calculate distance"
    | GenerateText text json =>
        if negb (truthy (trimmed_text text)) then
          {| code := 200; payload := JObject [] |}
        else
          match json with
          | Parsed parsed => {| code := 200; payload := parsed |}
          | SyntaxError _ => error_reply 500 "Failed to calculate distance"
          end
    end.

(** [typeof v !== "number"] for a field of [req.body] *)
Definition not_a_number (v : option JSValue) : bool :=
  match v with Some (JNumber _) => false | _ => true end.

(** POST /api/reverse-geocode *)
Definition reverse_geocode (lat lon : option JSValue) (g : Generate) : Reply :=
  if not_a_number lat || not_a_number lon then
    error_reply 400 "Missing lat/lon"
  else
    match g with
    | GenerateThrows => error_reply 500 "Failed to determine address"
    | GenerateText text _ =>
        {| code := 200;
           payload := JObject [(js "address", JString (trimmed_text text))] |}
    end.

(** GET /api/hiring-cafe: the answer of hiring.cafe is read as JSON and
    passed on; its status is not looked at. *)
Definition hiring_cafe (upstream : Fetch) : Reply :=
  match upstream with
  | FetchResolves resp =>
      match body resp with
      | BodyText _ (Parsed data) => {| code := 200; payload := data |}
      | _ => error_reply 500 "Failed to fetch hiring.cafe jobs"
      end
  | FetchRejects _ => error_reply 500 "Failed to fetch hiring.cafe jobs"
  end.

(** What the browser has when the reply has arrived: the status, [ok] for
    the statuses 200 to 299, and as body the JSON text of the payload, a
    text that is not empty and that parses to the payload. *)
Definition arrives (reply : Reply) (resp : Response) : Prop :=
  status resp = code reply
  /\ ok resp = (N.leb 200 (code reply) && N.leb (code reply) 299)
  /\ exists text,
       text <> [] /\ body resp = BodyText text (Parsed (payload reply)).

End Server.

(** ** src/unnamed/part_003, the proxy with the document store

    The handler of POST /api/analyze.  The outcome of the validation by
    zod and what the store does are the libraries'; they are given with
    the request. *)

Module StoreServer.
Import Js Types Net.

(** [analyzeRequestSchema.safeParse(req.body || {})] *)
Inductive SafeParse : Type :=
| Invalid (details : JSValue)
| Valid (resumeId resume : option jsstring) (jobDescription : jsstring).

(** [await Resume.findById(resumeId).lean()] *)
Inductive FindById : Type :=
| FindThrows
| FindNothing
| FindDocument (content : jsstring).

(** The attempt to store the analysis: the model JobAnalysis is null, or
    [JobAnalysis.create] throws, or the document is stored and [sent] is
    the object [{ id: created._id.toString(), ...created.toObject() }]. *)
Inductive Create : Type :=
| NoModel
| CreateThrows
| Created (sent : JSValue).

Record Store := {
  Resume_model : bool;
  findById : FindById;
  create : Create
}.

(** A field that is present and not the empty string. *)
Definition given (v : option jsstring) : bool :=
  match v with Some s => truthy s | None => false end.

(** The handler from the call of the model on. *)
Definition answer (store : Store) (g : Server.Generate) : Server.Reply :=
  match g with
  | Server.GenerateThrows => Server.error_reply 500 "Failed to analyze job fit"
  | Server.GenerateText text json =>
      if negb (truthy (Server.trimmed_text text)) then
        Server.error_reply 502 "Empty response from model"
      else
        let parsed :=
          match json with
          | Parsed v => v
          | SyntaxError _ =>
              JObject [(js "raw", JString (Server.trimmed_text text))]
          end in
        match create store with
        | Created sent => {| Server.code := 200; Server.payload := sent |}
        | NoModel | CreateThrows =>
            {| Server.code := 200; Server.payload := parsed |}
        end
  end.

Definition analyze (req : SafeParse) (store : Store) (g : Server.Generate)
  : Server.Reply :=
  match req with
  | Invalid details =>
      {| Server.code := 400;
         Server.payload :=
           JObject [(js "error", JString (js "Invalid request"));
                    (js "details", details)] |}
  | Valid resumeId resume jobDescription =>
      if negb (given resume) && negb (given resumeId) then
        Server.error_reply 400
          "Either resumeId or resume text must be provided"
      else if given resumeId && negb (given resume) && Resume_model store
      then
        match findById store with
        | FindThrows => Server.error_reply 500 "Failed to load resume"
        | FindNothing => Server.error_reply 404 "Resume not found"
        | FindDocument _ => answer store g
        end
      else answer store g
  end.

(** [await Resume.findByIdAndDelete(req.params.id)] *)
Inductive FindAndDelete : Type :=
| DeleteThrows
| DeleteNothing
| DeleteDone.

(** DELETE /api/resumes/:id *)
Definition delete_resume (Resume_model : bool) (d : FindAndDelete)
  : Server.Reply :=
  if negb Resume_model then
    Server.error_reply 500
      "Resume model not initialized or MONGODB_URI missing"
  else
    match d with
    | DeleteThrows => Server.error_reply 500 "Failed to delete resume"
    | DeleteNothing => Server.error_reply 404 "Not found"
    | DeleteDone =>
        {| Server.code := 200;
           Server.payload := JObject [(js "success", JBool true)] |}
    end.

End StoreServer.

(** ** src/unnamed/part_005, the résumé store on localStorage alone

    The functions settle after a delay, which is left out. *)

Module MockApiService.
Import Js Types Net.

Section WithTemplate.
Variable templateResumeContent : jsstring.
Variable Date_getTime : jsstring -> number.

(** [getResumes]: an empty store is seeded first; the list is sorted,
    the store is not. *)
Definition getResumes (uuid now : jsstring) (st : ApiService.Storage)
  : list SavedResume * ApiService.Storage :=
  let st' :=
    match st with
    | None => ApiService.seedInitialData templateResumeContent uuid now
    | Some _ => st
    end in
  match st' with
  | None => ([], st')
  | Some rs =>
      (Array_sort (ApiService.bySavedAtDesc Date_getTime) rs, st')
  end.

(** [deleteResume]: the error thrown for an id that is not there is
    caught by the function's own catch block and replaced. *)
Definition deleteResume (id : jsstring) (uuid now : jsstring)
  (st : ApiService.Storage) : Outcome bool * ApiService.Storage :=
  let (resumes, st') := getResumes uuid now st in
  let updatedResumes := filter (fun r => negb (streq (_id r) id)) resumes in
  if Nat.eqb (List.length resumes) (List.length updatedResumes)
  then
    (Rejected (js "Failed to delete the resume from the database."), st')
  else (Resolved true, Some updatedResumes).
End WithTemplate.

End MockApiService.

(** ** src/unnamed/part_004, the services calling the model from the
    browser

    Each function wraps its whole body in a try block and replaces
    whatever is thrown there by an error of its own. *)

Module GeminiSdk.
Import Js Types Net.

Definition analysis_failed : jsstring :=
  js "Failed to get analysis from Gemini API. Please check your API key and the model's availability.".

Definition description_failed : jsstring :=
  js "Failed to fetch job description from the provided URL. Please check the link or paste the description manually.".

(** [JSON.parse(response.text.trim())]: reading [text] of undefined
    throws, inside the try block. *)
Definition analyzeJobFit (g : Server.Generate) : Outcome JSValue :=
  match g with
  | Server.GenerateText (Some _) (Parsed parsedData) => Resolved parsedData
  | _ => Rejected analysis_failed
  end.

(** [if (!text) throw ...; return text.trim()] *)
Definition fetchJobDescriptionFromUrl (g : Server.Generate)
  : Outcome jsstring :=
  match g with
  | Server.GenerateText (Some text) _ =>
      if truthy text then Resolved (trim text)
      else Rejected description_failed
  | _ => Rejected description_failed
  end.

End GeminiSdk.

(** ** Vocabulary of the statements *)

Module Spec.
Import Js Types Net.

(** [p] occurs in [s] at index [n]. *)
Definition occurs_at (p s : jsstring) (n : nat) : Prop :=
  exists a b, s = a ++ p ++ b /\ List.length a = n.

(** A string that is empty or made of white space only. *)
Definition whitespace_only (s : jsstring) : Prop :=
  Forall (fun c => is_white_space c = true) s.

(** [a] stands before [b] in [l]. *)
Definition before {A : Type} (l : list A) (a b : A) : Prop :=
  exists l1 l2 l3, l = l1 ++ a :: l2 ++ b :: l3.

(** Newest first: of two records, the one that stands first was saved at
    the same time or later. *)
Definition newest_first (Date_getTime : jsstring -> number)
  (l : list SavedResume) : Prop :=
  forall a b, before l a b ->
    exists ta tb,
      Date_getTime (savedAt a) = Some ta
      /\ Date_getTime (savedAt b) = Some tb /\ tb <= ta.

(** [job] is the job [jobs.find(j => j.id === jobId)] returns: the first
    of the collection with that id. *)
Definition first_with_id (jobId : jsstring) (l : list Job) (job : Job)
  : Prop :=
  exists l1 l2,
    l = l1 ++ job :: l2 /\ id job = jobId
    /\ forall j, In j l1 -> id j <> jobId.

Definition no_job_with_id (jobId : jsstring) (l : list Job) : Prop :=
  forall j, In j l -> id j <> jobId.

(** [j'] is [j] with the listed fields of [u] merged in: a field [u] lists
    has the value [u] gives, every other field the value it had. *)
Definition listed {A : Type} (update : option A) (old new : A) : Prop :=
  match update with Some v => new = v | None => new = old end.

Definition merged (j : Job) (u : PartialJob) (j' : Job) : Prop :=
  listed (p_id u) (id j) (id j')
  /\ listed (p_url u) (url j) (url j')
  /\ listed (p_title u) (title j) (title j')
  /\ listed (p_company u) (company j) (company j')
  /\ listed (p_description u) (description j) (description j')
  /\ listed (p_isFetching u) (isFetching j) (isFetching j')
  /\ listed (p_isLoading u) (isLoading j) (isLoading j')
  /\ listed (p_error u) (error j) (error j')
  /\ listed (p_analysis u) (analysis j) (analysis j')
  /\ listed (option_map Some (p_analyzedAt u)) (analyzedAt j) (analyzedAt j').

(** [j'] differs from [j] in [isFetching] and [error] at most. *)
Definition same_but_fetch_state (j j' : Job) : Prop :=
  id j' = id j /\ url j' = url j /\ title j' = title j
  /\ company j' = company j /\ description j' = description j
  /\ isLoading j' = isLoading j /\ analysis j' = analysis j
  /\ analyzedAt j' = analyzedAt j.

(** The messages the browser supplies for the errors it raises itself
    while a description is fetched. *)
Definition browser_messages (engine : Engine) (net : Fetch)
  : list jsstring :=
  null_property_message engine :: not_a_function_message engine
    :: match net with
       | FetchRejects m => [m]
       | FetchResolves resp =>
           match body resp with
           | BodyFails m => [m]
           | BodyText _ (SyntaxError m) => [m]
           | BodyText _ (Parsed _) => []
           end
       end.

(** The state when a description fetch called in [st] has failed with
    [msg]. *)
Definition fetch_failed (jobId msg : jsstring) (st : App.State)
  : App.State :=
  App.handleFetchDescription_settled jobId (Rejected msg)
    (fst (App.handleFetchDescription jobId st)).

(** Every job that shows as loading has an analyze call in flight. *)
Definition loading_only_while_analyzing (l : list Job)
  (p : list App.Call) : Prop :=
  forall j, In j l -> isLoading j = true ->
    exists r d, In (App.Analysis (id j) r d) p.

(** The request did not reach the server: building its address threw, or
    fetch rejected. *)
Definition request_fails (id : jsstring) (net : Fetch) : Prop :=
  ApiService.well_formed id = false \/ exists m, net = FetchRejects m.

(** Every [analyzedAt] the jobs carry is a date after 1970-01-01T00:00Z. *)
Definition analyzed_after_epoch (Date_getTime : jsstring -> number)
  (jobs : list Job) : Prop :=
  forall j s, In j jobs -> analyzedAt j = Some s ->
    s <> [] /\ exists t, Date_getTime s = Some t /\ 0 < t.

(** Two jobs the comparator of the dashboard puts in neither order. *)
Definition tie {A : Type} (comparefn : A -> A -> number) (a b : A) : bool :=
  negb (goes_after comparefn a b) && negb (goes_after comparefn b a).

(** For the key analyzedAt, every analyzedAt present is read as a date;
    the text keys ask for nothing. *)
Definition comparable (Date_getTime : jsstring -> number)
  (sortKey : JobListingsPage.SortKey) (jobs : list Job) : Prop :=
  match sortKey with
  | JobListingsPage.byAnalyzedAt =>
      forall j, In j jobs ->
        JobListingsPage.analyzedAt_value Date_getTime j <> None
  | _ => True
  end.

(** The test of the comparator of the dashboard: the sort value of [a] is
    below the one of [b]. *)
Definition below (Date_getTime : jsstring -> number)
  (toLowerCase : jsstring -> jsstring) (sortKey : JobListingsPage.SortKey)
  (a b : Job) : bool :=
  match sortKey with
  | JobListingsPage.byAnalyzedAt =>
      num_lt (JobListingsPage.analyzedAt_value Date_getTime a)
        (JobListingsPage.analyzedAt_value Date_getTime b)
  | _ =>
      strlt (JobListingsPage.text_value toLowerCase sortKey a)
        (JobListingsPage.text_value toLowerCase sortKey b)
  end.

(** Every job that shows as fetching has a description request in
    flight, from Fetch or from the search page. *)
Definition fetching_only_while_fetching (l : list Job)
  (p : list App.Call) : Prop :=
  forall j, In j l -> isFetching j = true ->
    exists u, In (App.DescriptionFetch (id j) u) p
              \/ In (App.SearchFetch (id j) u) p.

(** [j'] differs from [j] in [description], [isFetching] and [error] at
    most. *)
Definition same_but_description (j j' : Job) : Prop :=
  id j' = id j /\ url j' = url j /\ title j' = title j
  /\ company j' = company j /\ isLoading j' = isLoading j
  /\ analysis j' = analysis j /\ analyzedAt j' = analyzedAt j.

(** [j'] differs from [j] in [isLoading] and [error] at most. *)
Definition same_but_loading (j j' : Job) : Prop :=
  id j' = id j /\ url j' = url j /\ title j' = title j
  /\ company j' = company j /\ description j' = description j
  /\ isFetching j' = isFetching j /\ analysis j' = analysis j
  /\ analyzedAt j' = analyzedAt j.

(** A string with no white space at either end. *)
Definition trimmed (s : jsstring) : Prop :=
  (forall c t, s = c :: t -> is_white_space c = false)
  /\ (forall c t, s = t ++ [c] -> is_white_space c = false).

(** The records the local cache gives when read: its array, or the
    template it is seeded with when nothing was stored. *)
Definition cache_records (templateResumeContent uuid now : jsstring)
  (st : ApiService.Storage) : list SavedResume :=
  match st with
  | Some rs => rs
  | None => [ApiService.templateResume templateResumeContent uuid now]
  end.

(** A lower-case letter of ASCII, a digit or the underscore. *)
Definition is_safe (c : code_unit) : bool :=
  (N.leb 48 c && N.leb c 57) || (N.leb 97 c && N.leb c 122) || N.eqb c 95.

(** [j'] differs from [j] in [isLoading], [analysis] and [analyzedAt]
    at most. *)
Definition same_but_analysis (j j' : Job) : Prop :=
  id j' = id j /\ url j' = url j /\ title j' = title j
  /\ company j' = company j /\ description j' = description j
  /\ isFetching j' = isFetching j /\ error j' = error j.

(** A text that reads as a date after 1970-01-01T00:00Z. *)
Definition after_epoch (Date_getTime : jsstring -> number) (s : jsstring)
  : Prop :=
  s <> [] /\ exists t, Date_getTime s = Some t /\ 0 < t.

(** The step from [w] to [w'] is an analysis that succeeds, the clock
    reading [now]. *)
Definition analyzed_at (w w' : App.World) (now : jsstring) : Prop :=
  exists jobId r d result p1 p2,
    App.pending w = p1 ++ App.Analysis jobId r d :: p2
    /\ w' = {| App.app :=
                 App.handleAnalyzeJob_settled jobId (Resolved result) now
                   (App.app w);
               App.pending := p1 ++ p2 |}.

(** The runs of the application in which every reading of the clock has
    the property [P]. *)
Inductive reachable_by_clock (P : jsstring -> Prop)
  (templateResumeContent : jsstring) : App.World -> Prop :=
| clock_at_start :
    reachable_by_clock P templateResumeContent
      {| App.app := App.initial templateResumeContent; App.pending := [] |}
| clock_after_step w w' :
    reachable_by_clock P templateResumeContent w -> App.step w w' ->
    (forall now, analyzed_at w w' now -> P now) ->
    reachable_by_clock P templateResumeContent w'.

End Spec.

(** ** Data of the examples *)

Module Sample.
Import Js Types Net.

(** A job never analyzed, and a job analyzed at the given time. *)
Definition job (i : string) : Job :=
  {| id := js i; url := js "https://example.org/job"; title := js i;
     company := js "Acme"; description := js "Looking for a CRM expert.";
     isFetching := false; isLoading := false; error := None;
     analysis := JNull; analyzedAt := None |}.

Definition analyzed (i at_ : string) : Job :=
  {| id := js i; url := js "https://example.org/job"; title := js i;
     company := js "Acme"; description := js "Looking for a CRM expert.";
     isFetching := false; isLoading := false; error := None;
     analysis := JNull; analyzedAt := Some (js at_) |}.

Definition saved (i at_ : string) : SavedResume :=
  {| _id := js i; name := js i; content := js "Managed inbound calls.";
     jobDescription := []; savedAt := js at_ |}.

Definition unreachable : Fetch := FetchRejects (js "Failed to fetch").

(** [toLowerCase] on strings of ASCII. *)
Definition toLowerCase_ascii (s : jsstring) : jsstring :=
  map (fun c => if N.leb 65 c && N.leb c 90 then (c + 32)%N else c) s.

Definition cache : list SavedResume :=
  [saved "r1" "2001-09-09T01:46:40.000Z"; saved "r2" "2024-01-01T00:00:00.000Z";
   saved "r3" "2000-01-01T00:00:00.000Z"].

Definition template : jsstring := js "EDUCATION".

(** A 200 response with an empty body, and one whose body is a page of
    HTML. *)
Definition empty_ok : Response :=
  {| ok := true; status := 200; statusText := js "OK";
     body := BodyText [] (SyntaxError (js "Unexpected end of JSON input")) |}.

Definition html_ok : Response :=
  {| ok := true; status := 200; statusText := js "OK";
     body := BodyText (js "<html>Bad gateway</html>")
               (SyntaxError (js "Unexpected token < in JSON at position 0")) |}.

Definition bad_gateway : Response :=
  {| ok := false; status := 502; statusText := js "Bad Gateway";
     body := BodyText (js "upstream request timed out")
               (SyntaxError (js "Unexpected token u in JSON at position 0")) |}.

Definition suggestion : ImprovementSuggestion :=
  {| originalText := js "Managed inbound calls.";
     suggestedRewrite := js "Managed 50+ inbound calls daily.";
     suggestionType := js "Add Metrics" |}.

Definition dollar_suggestion : ImprovementSuggestion :=
  {| originalText := js "Managed inbound calls.";
     suggestedRewrite := js "Saved the company $$$ on inbound calls.";
     suggestionType := js "Add Metrics" |}.

Definition desk (resumeText : string) (l : list Job) : App.State :=
  {| App.view := App.listings; App.resume := js resumeText; App.jobs := l;
     App.activeSuggestion := None |}.

Definition browser : Engine :=
  {| null_property_message :=
       js "Cannot read properties of null (reading 'text')";
     not_a_function_message := js "(intermediate value).trim is not a function" |}.

(** A session: a job is added, its description typed in, and Analyze
    clicked. *)
Definition w0 : App.World :=
  {| App.app := App.initial template; App.pending := [] |}.

Definition w1 : App.World :=
  {| App.app := App.handleAddJob (js "j1") (App.app w0);
     App.pending := App.pending w0 |}.

Definition w2 : App.World :=
  {| App.app :=
       App.handleUpdateJob (js "j1")
         (App.description_edit (js "Looking for a CRM expert."))
         (App.app w1);
     App.pending := App.pending w1 |}.

Definition w3 : App.World :=
  {| App.app := fst (App.handleAnalyzeJob (js "j1") (App.app w2));
     App.pending :=
       App.issue (snd (App.handleAnalyzeJob (js "j1") (App.app w2)))
         (App.pending w2) |}.

Definition loading_job : Job :=
  {| id := js "j1"; url := []; title := js "New Job Listing";
     company := js "Company Name";
     description := js "Looking for a CRM expert.";
     isFetching := false; isLoading := true; error := None;
     analysis := JNull; analyzedAt := None |}.

Definition report : JSValue :=
  JObject
    [(js "matchScore", JNumber 70);
     (js "summary", JString (js "Decent fit"));
     (js "strengths", JArray [JString (js "Call handling")]);
     (js "gaps", JArray [JString (js "No CRM experience")]);
     (js "matchedKeywords", JArray []);
     (js "missingKeywords",
      JArray
        [JObject
           [(js "keyword", JString (js "CRM"));
            (js "definition",
             JString (js "Customer relationship management software"))]]);
     (js "improvementSuggestions",
      JArray
        [JObject
           [(js "originalText", JString (js "Managed inbound calls."));
            (js "suggestedRewrite",
             JString (js "Managed 50+ inbound calls daily."));
            (js "suggestionType", JString (js "Add Metrics"))]]);
     (js "coverLetterDraft", JString (js "Dear Hiring Manager..."))].

Definition dashboard : list Job :=
  [job "a"; analyzed "b" "2024-01-01T00:00:00.000Z"; job "c";
   analyzed "d" "2001-09-09T01:46:40.000Z"].

Definition old_dashboard : list Job :=
  [analyzed "old" "1969-12-31T23:59:59.000Z"; job "new"].

(** The response the browser has of a reply of the proxy, [text] being
    the JSON text of the payload. *)
Definition delivered (reply : Server.Reply) (text : string) : Response :=
  {| ok := N.leb 200 (Server.code reply) && N.leb (Server.code reply) 299;
     status := Server.code reply;
     statusText := [];
     body := BodyText (js text) (Parsed (Server.payload reply)) |}.

Definition score : JSValue := JObject [(js "matchScore", JNumber 70)].

(** The model answers with JSON, with prose, with nothing. *)
Definition says_json : Server.Generate :=
  Server.GenerateText (Some (js " {'matchScore':70} ")) (Parsed score).

Definition says_prose : Server.Generate :=
  Server.GenerateText (Some (js "Sure! Here is the analysis."))
    (SyntaxError (js "Unexpected token S in JSON at position 0")).

Definition says_nothing : Server.Generate :=
  Server.GenerateText None (SyntaxError []).

(** The model answers with the JSON text of null. *)
Definition says_null : Server.Generate :=
  Server.GenerateText (Some (js "null")) (Parsed JNull).

Definition says_posting : Server.Generate :=
  Server.GenerateText (Some (js "  We are hiring a CRM expert. "))
    (SyntaxError (js "Unexpected token W in JSON at position 0")).

(** What the browser has of the proxy's reply when the model answered
    an analysis, or a distance, with null. *)
Definition null_analysis : Response :=
  delivered
    (Server.analyze (Some (js "Managed inbound calls."))
       (Some (js "Looking for a CRM expert.")) says_null)
    "null".


(** The dashboard on the page, no request in flight. *)
Definition crowded : App.World :=
  {| App.app := desk "Managed inbound calls." dashboard;
     App.pending := [] |}.

Definition no_store : StoreServer.Store :=
  {| StoreServer.Resume_model := true;
     StoreServer.findById := StoreServer.FindNothing;
     StoreServer.create := StoreServer.NoModel |}.

Definition listing : JobListing :=
  {| l_title := js "CRM Specialist"; l_company := js "Acme";
     l_url := js "https://example.org/jobs/1";
     l_snippet := js "Looking for a CRM expert." |}.

(** A session on the search page: a listing is added to the dashboard. *)
Definition w_search : App.World :=
  {| App.app :=
       fst (App.handleAddJobFromSearch listing (js "s1") (App.app w0));
     App.pending :=
       snd (App.handleAddJobFromSearch listing (js "s1") (App.app w0))
         :: App.pending w0 |}.

Definition fetching_job : Job :=
  {| id := js "s1"; url := js "https://example.org/jobs/1";
     title := js "CRM Specialist"; company := js "Acme";
     description := js "Fetching description...";
     isFetching := true; isLoading := false; error := None;
     analysis := JNull; analyzedAt := None |}.

Definition page : ResumesPage.State :=
  {| ResumesPage.resumes :=
       [saved "r2" "2024-01-01T00:00:00.000Z";
        saved "r1" "2001-09-09T01:46:40.000Z";
        saved "r3" "2000-01-01T00:00:00.000Z"];
     ResumesPage.isLoading := false;
     ResumesPage.error := None |}.

Definition rename : ApiService.Patch :=
  {| ApiService.patch_name := Some (js "Sales resume");
     ApiService.patch_content := None;
     ApiService.patch_jobDescription := None |}.

Definition json_ok (v : JSValue) : Response :=
  {| ok := true; status := 200; statusText := js "OK";
     body := BodyText (js "[]") (Parsed v) |}.

Definition upstream_down : Response :=
  {| ok := false; status := 503; statusText := js "Service Unavailable";
     body := BodyText (js "{'error':'maintenance'}")
               (Parsed (JObject [(js "error", JString (js "maintenance"))])) |}.


Definition search : JobSearchPage.State :=
  {| JobSearchPage.query := js "frontend engineer";
     JobSearchPage.site := JobSearchPage.linkedin;
     JobSearchPage.results := [];
     JobSearchPage.isLoading := false;
     JobSearchPage.error := None |}.

End Sample.

(** * Properties *)

(** ** Strings *)

Section StringFacts.
Import Js Spec.

Lemma streq_refl (a : jsstring) : streq a a = true.
Proof.
  induction a as [|x a IH]; simpl; [reflexivity|].
  now rewrite N.eqb_refl, IH.
Qed.

Lemma streq_eq (a b : jsstring) : streq a b = true <-> a = b.
Proof.
  split; [|intros ->; apply streq_refl].
  revert b; induction a as [|x a IH]; intros [|y b]; simpl;
    try discriminate; [reflexivity|].
  intros H. apply andb_prop in H as [Hx Hab].
  apply N.eqb_eq in Hx. apply IH in Hab. congruence.
Qed.

Lemma streq_neq (a b : jsstring) : streq a b = false <-> a <> b.
Proof.
  rewrite <- streq_eq. destruct (streq a b); split; congruence.
Qed.

Lemma starts_with_prefix (p s : jsstring) :
  starts_with p s = true <-> exists t, s = p ++ t.
Proof.
  revert s; induction p as [|x p IH]; intros s; simpl.
  - split; [exists s; reflexivity | reflexivity].
  - destruct s as [|y s].
    + split; [discriminate | intros [t Ht]; discriminate].
    + rewrite andb_true_iff, N.eqb_eq, IH. split.
      * intros [-> [t ->]]. now exists t.
      * intros [t Ht]. injection Ht as -> ->. split; [reflexivity|now exists t].
Qed.

Lemma occurs_at_0 (p s : jsstring) :
  occurs_at p s 0 <-> starts_with p s = true.
Proof.
  rewrite starts_with_prefix. split.
  - intros ([|] & b & -> & Hl); [now exists b | discriminate].
  - intros [t ->]. now exists [], t.
Qed.

Lemma occurs_at_S (p : jsstring) (c : code_unit) (s : jsstring) (n : nat) :
  occurs_at p (c :: s) (S n) <-> occurs_at p s n.
Proof.
  split.
  - intros ([|x a] & b & E & Hl); [discriminate|].
    simpl in E, Hl. injection E as -> ->. injection Hl as <-.
    now exists a, b.
  - intros (a & b & -> & <-). now exists (c :: a), b.
Qed.

Lemma StringIndexOf_found (s p : jsstring) (n : nat) :
  StringIndexOf s p = Some n ->
  occurs_at p s n /\ forall k, (k < n)%nat -> ~ occurs_at p s k.
Proof.
  revert n; induction s as [|c s IH]; intros n; simpl.
  - destruct (starts_with p []) eqn:E; [|discriminate].
    intros [= <-]. split; [now apply occurs_at_0 | lia].
  - destruct (starts_with p (c :: s)) eqn:E.
    + intros [= <-]. split; [now apply occurs_at_0 | lia].
    + destruct (StringIndexOf s p) as [m|]; [|discriminate].
      simpl. intros [= <-]. destruct (IH m eq_refl) as [Hm Hmin]. split.
      * now apply occurs_at_S.
      * intros [|k] Hk.
        -- rewrite occurs_at_0. congruence.
        -- rewrite occurs_at_S. apply Hmin. lia.
Qed.

Lemma StringIndexOf_absent (s p : jsstring) :
  StringIndexOf s p = None <-> forall n, ~ occurs_at p s n.
Proof.
  split.
  - induction s as [|c s IH]; simpl.
    + destruct (starts_with p []) eqn:E; [discriminate|].
      intros _ n (a & b & Hs & _).
      destruct a; [|discriminate]. simpl in Hs.
      assert (starts_with p [] = true)
        by (apply starts_with_prefix; now exists b).
      congruence.
    + destruct (starts_with p (c :: s)) eqn:E; [discriminate|].
      destruct (StringIndexOf s p) eqn:F; [discriminate|].
      intros _ [|n].
      * rewrite occurs_at_0. congruence.
      * rewrite occurs_at_S. now apply IH.
  - intros H. destruct (StringIndexOf s p) as [n|] eqn:E; [|reflexivity].
    apply StringIndexOf_found in E as [E _]. now apply H in E.
Qed.

Lemma occurs_at_split (p s : jsstring) (n : nat) :
  occurs_at p s n ->
  s = firstn n s ++ p ++ skipn (n + List.length p) s.
Proof.
  intros (a & b & -> & <-).
  rewrite firstn_app, Nat.sub_diag, firstn_all. simpl. rewrite app_nil_r.
  rewrite skipn_app, skipn_all2 by lia. simpl.
  replace (List.length a + List.length p - List.length a)%nat
    with (List.length p) by lia.
  rewrite skipn_app, skipn_all, Nat.sub_diag. reflexivity.
Qed.

(** A replacement text without a dollar sign is inserted as it is. *)
Lemma GetSubstitution_plain (matched before after template : jsstring) :
  ~ In DOLLAR template ->
  GetSubstitution matched before after template = template.
Proof.
  induction template as [|c rest IH]; simpl; [reflexivity|].
  intros H. destruct (N.eqb c DOLLAR) eqn:E.
  - apply N.eqb_eq in E. exfalso. apply H. now left.
  - f_equal. apply IH. intros Hin. apply H. now right.
Qed.

(** [replace] leaves a string without the pattern as it is. *)
Lemma String_replace_absent (s p r : jsstring) :
  (forall n, ~ occurs_at p s n) -> String_replace s p r = s.
Proof.
  intros H. unfold String_replace.
  apply StringIndexOf_absent in H. now rewrite H.
Qed.

(** With a replacement that has no dollar sign, [replace] substitutes the
    first occurrence and nothing else. *)
Lemma String_replace_plain (s p r : jsstring) (n : nat) :
  occurs_at p s n -> (forall k, (k < n)%nat -> ~ occurs_at p s k) ->
  ~ In DOLLAR r ->
  String_replace s p r = firstn n s ++ r ++ skipn (n + List.length p) s
  /\ (List.length (String_replace s p r) + List.length p
      = List.length s + List.length r)%nat.
Proof.
  intros Hocc Hmin Hr. unfold String_replace.
  destruct (StringIndexOf s p) as [m|] eqn:E.
  - apply StringIndexOf_found in E as [Hm Hmmin].
    assert (m = n) as ->.
    { destruct (Nat.lt_trichotomy m n) as [L|[L|L]]; [|exact L|].
      - now apply Hmin in L.
      - now apply Hmmin in L. }
    rewrite GetSubstitution_plain by exact Hr. split; [reflexivity|].
    pose proof (occurs_at_split p s n Hocc) as Hs.
    apply (f_equal (@List.length _)) in Hs.
    rewrite !length_app in *. lia.
  - apply StringIndexOf_absent with (n := n) in E. contradiction.
Qed.

(** [trim] gives the empty string exactly on the strings made of white
    space only. *)
Lemma trimStart_nil (s : jsstring) :
  trimStart s = [] <-> whitespace_only s.
Proof.
  induction s as [|c s IH]; simpl.
  - split; [constructor | reflexivity].
  - destruct (is_white_space c) eqn:E.
    + rewrite IH. split; [now constructor | now inversion 1].
    + split; [discriminate | inversion 1; congruence].
Qed.

Lemma trim_nil (s : jsstring) : trim s = [] <-> whitespace_only s.
Proof.
  unfold trim, trimEnd. split.
  - intros H. apply (f_equal (@rev _)) in H. rewrite rev_involutive in H.
    simpl in H. apply trimStart_nil in H.
    assert (Hsub : forall t c, In c (trimStart t) -> In c t).
    { induction t as [|x t IH]; simpl; [tauto|].
      destruct (is_white_space x); intros c; [right; now apply IH | tauto]. }
    destruct (trimStart s) as [|c t] eqn:E; [now apply trimStart_nil|].
    exfalso. unfold whitespace_only in H. rewrite Forall_forall in H.
    assert (Hc : is_white_space c = true)
      by (apply H, in_rev; rewrite rev_involutive; now left).
    clear H. induction s as [|x s IH]; simpl in E; [discriminate|].
    destruct (is_white_space x) eqn:Ex; [now apply IH|].
    injection E as -> ->. congruence.
  - intros H. apply trimStart_nil in H. now rewrite H.
Qed.

Lemma truthy_trim (s : jsstring) :
  truthy (trim s) = false <-> whitespace_only s.
Proof.
  rewrite <- trim_nil. destruct (trim s); simpl; split; congruence.
Qed.

End StringFacts.

(** ** Dates *)

Example Date_getTime_iso_epoch :
  Js.Date_getTime_iso (Js.js "1970-01-01T00:00:00.000Z") = Some 0.
Proof. reflexivity. Qed.

Example Date_getTime_iso_2000 :
  Js.Date_getTime_iso (Js.js "2000-01-01T00:00:00.000Z")
  = Some 946684800000.
Proof. reflexivity. Qed.

Example Date_getTime_iso_leap_day :
  Js.Date_getTime_iso (Js.js "2024-02-29T12:00:00.500Z")
  = Some 1709208000500.
Proof. reflexivity. Qed.

Example Date_getTime_iso_1969 :
  Js.Date_getTime_iso (Js.js "1969-12-31T23:59:59.000Z") = Some (-1000).
Proof. reflexivity. Qed.

Example Date_getTime_iso_not_a_date :
  Js.Date_getTime_iso (Js.js "2023-02-30T00:00:00.000Z") = None.
Proof. reflexivity. Qed.

(** ** Array.prototype.sort *)

Section SortFacts.
Import Js Spec.
Context {A : Type}.
Variable comparefn : A -> A -> number.

Lemma sort_insert_perm (x : A) (l : list A) :
  Permutation (x :: l) (sort_insert comparefn x l).
Proof.
  induction l as [|y l IH]; simpl; [reflexivity|].
  destruct (goes_after comparefn x y); [|reflexivity].
  rewrite perm_swap. now apply perm_skip.
Qed.

Lemma Array_sort_perm (l : list A) : Permutation l (Array_sort comparefn l).
Proof.
  induction l as [|x l IH]; simpl; [reflexivity|].
  rewrite <- sort_insert_perm. now apply perm_skip.
Qed.

(** On elements [P] holds of, the comparator decides an order [R]. *)
Variable P : A -> Prop.
Variable R : A -> A -> Prop.
Hypothesis R_trans :
  forall a b c, P a -> P b -> P c -> R a b -> R b c -> R a c.
Hypothesis after_R :
  forall a b, P a -> P b -> goes_after comparefn a b = true -> R b a.
Hypothesis before_R :
  forall a b, P a -> P b -> goes_after comparefn a b = false -> R a b.

Lemma sort_insert_sorted (x : A) (l : list A) :
  P x -> Forall P l -> StronglySorted R l ->
  StronglySorted R (sort_insert comparefn x l).
Proof.
  intros Hx Hl Hs. induction Hs as [|y l Hs IH Hy]; simpl.
  - repeat constructor.
  - apply Forall_cons_iff in Hl as [Py Pl].
    destruct (goes_after comparefn x y) eqn:E.
    + constructor; [now apply IH|].
      rewrite <- sort_insert_perm. constructor; [now apply after_R | exact Hy].
    + constructor; [now constructor|].
      assert (Rxy : R x y) by now apply before_R.
      constructor; [exact Rxy|].
      rewrite Forall_forall in *. intros z Hz.
      apply (R_trans x y z); auto.
Qed.

Lemma Array_sort_sorted (l : list A) :
  Forall P l -> StronglySorted R (Array_sort comparefn l).
Proof.
  induction l as [|x l IH]; simpl; [constructor|].
  intros H. apply Forall_cons_iff in H as [Px Pl].
  apply sort_insert_sorted; auto.
  rewrite <- Array_sort_perm. exact Pl.
Qed.

Lemma StronglySorted_before (l : list A) (a b : A) :
  StronglySorted R l -> before l a b -> R a b.
Proof.
  intros Hs (l1 & l2 & l3 & ->).
  induction l1 as [|x l1 IH]; simpl in Hs.
  - apply StronglySorted_inv in Hs as [_ Hs].
    rewrite Forall_forall in Hs. apply Hs.
    apply in_or_app. right. now left.
  - apply StronglySorted_inv in Hs as [Hs _]. now apply IH.
Qed.

End SortFacts.

(** ** The order of the dashboard (JobListingsPage.tsx, sortedJobs) *)

Section SortedJobs.
Import Js Types Spec JobListingsPage.
Variable Date_getTime : jsstring -> number.
Variable toLowerCase : jsstring -> jsstring.

Let value (j : Job) : Z :=
  match analyzedAt_value Date_getTime j with Some v => v | None => 0 end.

Let by_date := compareJobs Date_getTime toLowerCase byAnalyzedAt desc.

Lemma by_date_after (a b : Job) v w :
  analyzedAt_value Date_getTime a = Some v ->
  analyzedAt_value Date_getTime b = Some w ->
  goes_after by_date a b = (v <? w).
Proof.
  intros Ha Hb. unfold goes_after, by_date, compareJobs.
  rewrite Ha, Hb. simpl.
  destruct (v <? w) eqn:E; [reflexivity|].
  destruct (w <? v); reflexivity.
Qed.

Lemma analyzedAt_value_unanalyzed (j : Job) :
  analyzedAt j = None -> analyzedAt_value Date_getTime j = Some 0.
Proof. unfold analyzedAt_value. now intros ->. Qed.

Lemma analyzedAt_value_analyzed (j : Job) s t :
  analyzedAt j = Some s -> s <> [] -> Date_getTime s = Some t ->
  analyzedAt_value Date_getTime j = Some t.
Proof.
  unfold analyzedAt_value. intros -> Hs Ht.
  destruct s; [congruence | exact Ht].
Qed.

(** C4: sorting by analyzedAt in descending direction places every Job
    without an analyzedAt after every Job that has one, whatever the
    order of insertion: of two jobs of the sorted list, if the first has
    no analyzedAt then the second has none either.  The sorted list is a
    permutation of the collection.  The collections are those the
    application holds: every analyzedAt present is a reading of the
    clock (App.tsx:120 is the only place that writes one), a date after
    the Unix epoch. *)
Theorem sortedJobs_unanalyzed_last (jobs : list Job) :
  analyzed_after_epoch Date_getTime jobs ->
  Permutation jobs
    (sortedJobs Date_getTime toLowerCase jobs byAnalyzedAt desc)
  /\ forall a b,
       before (sortedJobs Date_getTime toLowerCase jobs byAnalyzedAt desc)
         a b ->
       analyzedAt a = None -> analyzedAt b = None.
Proof.
  intros Hvalid. unfold sortedJobs. fold by_date.
  split; [apply Array_sort_perm|].
  set (P := fun j : Job =>
              (analyzedAt j = None
               /\ analyzedAt_value Date_getTime j = Some 0)
              \/ (analyzedAt j <> None
                  /\ exists t, analyzedAt_value Date_getTime j = Some t
                               /\ 0 < t)).
  assert (HP : Forall P jobs).
  { apply Forall_forall. intros j Hj. unfold P.
    destruct (analyzedAt j) as [s|] eqn:E.
    - right. split; [discriminate|].
      destruct (Hvalid j s Hj E) as (Hs & t & Ht & Hpos).
      exists t. split; [|exact Hpos].
      now apply (analyzedAt_value_analyzed j s t).
    - left. split; [reflexivity|]. now apply analyzedAt_value_unanalyzed. }
  assert (Hval : forall j, P j ->
            analyzedAt_value Date_getTime j = Some (value j)).
  { intros j [[_ H]|[_ (t & H & _)]]; unfold value; now rewrite H. }
  assert (Hsorted :
    StronglySorted (fun a b => value b <= value a) (Array_sort by_date jobs)).
  { apply (Array_sort_sorted by_date P); [| | |exact HP].
    - intros; lia.
    - intros a b Pa Pb.
      rewrite (by_date_after a b _ _ (Hval a Pa) (Hval b Pb)).
      intros H. apply Z.ltb_lt in H. lia.
    - intros a b Pa Pb.
      rewrite (by_date_after a b _ _ (Hval a Pa) (Hval b Pb)).
      intros H. apply Z.ltb_ge in H. lia. }
  intros a b Hab Ha.
  pose proof (StronglySorted_before _ _ a b Hsorted Hab) as Hle.
  assert (Pa : P a /\ P b).
  { destruct Hab as (l1 & l2 & l3 & E).
    assert (HP' : Forall P (Array_sort by_date jobs))
      by (rewrite <- Array_sort_perm; exact HP).
    rewrite E in HP'. rewrite Forall_forall in HP'.
    split; apply HP'; apply in_or_app; right;
      [now left | right; apply in_or_app; right; now left]. }
  destruct Pa as [Pa Pb].
  destruct Pb as [[Hb _]|[_ (t & Hb & Hpos)]]; [exact Hb|].
  exfalso. unfold value in Hle. rewrite Hb in Hle.
  rewrite (analyzedAt_value_unanalyzed a Ha) in Hle. lia.
Qed.

End SortedJobs.

Lemma sortedJobs_unanalyzed_last_witness :
  JobListingsPage.sortedJobs Js.Date_getTime_iso Sample.toLowerCase_ascii
    Sample.dashboard JobListingsPage.byAnalyzedAt JobListingsPage.desc
  = [Sample.analyzed "b" "2024-01-01T00:00:00.000Z";
     Sample.analyzed "d" "2001-09-09T01:46:40.000Z";
     Sample.job "a"; Sample.job "c"]
  /\ (Permutation Sample.dashboard
        (JobListingsPage.sortedJobs Js.Date_getTime_iso
           Sample.toLowerCase_ascii Sample.dashboard
           JobListingsPage.byAnalyzedAt JobListingsPage.desc)
      /\ forall a b,
           Spec.before
             (JobListingsPage.sortedJobs Js.Date_getTime_iso
                Sample.toLowerCase_ascii Sample.dashboard
                JobListingsPage.byAnalyzedAt JobListingsPage.desc) a b ->
           Types.analyzedAt a = None -> Types.analyzedAt b = None).
Proof.
  split; [reflexivity|].
  apply (sortedJobs_unanalyzed_last Js.Date_getTime_iso
           Sample.toLowerCase_ascii Sample.dashboard).
  intros j s Hj Hs. simpl in Hj.
  destruct Hj as [<-|[<-|[<-|[<-|[]]]]]; simpl in Hs; try discriminate;
    injection Hs as <-; (split; [discriminate|]).
  - exists 1704067200000. split; [reflexivity | lia].
  - exists 1000000000000. split; [reflexivity | lia].
Defined.

(** What the comparator does with a date no clock reading gives: a job
    dated before 1970 has a negative time value, below the 0 that stands
    for "never analyzed", and is placed after the job that was never
    analyzed. *)
Lemma sortedJobs_before_epoch :
  JobListingsPage.sortedJobs Js.Date_getTime_iso Sample.toLowerCase_ascii
    Sample.old_dashboard JobListingsPage.byAnalyzedAt JobListingsPage.desc
  = [Sample.job "new";
     Sample.analyzed "old" "1969-12-31T23:59:59.000Z"]
  /\ ~ (forall a b,
          Spec.before
            (JobListingsPage.sortedJobs Js.Date_getTime_iso
               Sample.toLowerCase_ascii Sample.old_dashboard
               JobListingsPage.byAnalyzedAt JobListingsPage.desc) a b ->
          Types.analyzedAt a = None -> Types.analyzedAt b = None).
Proof.
  split; [reflexivity|].
  intros H.
  specialize (H (Sample.job "new")
                (Sample.analyzed "old" "1969-12-31T23:59:59.000Z")).
  assert (E : Types.analyzedAt
                (Sample.analyzed "old" "1969-12-31T23:59:59.000Z") = None).
  { apply H; [|reflexivity]. now exists [], [], []. }
  discriminate E.
Qed.

(** ** The résumé store client (apiService.ts) *)

Section ResumeStore.
Import Js Types Net Spec ApiService.
Variable templateResumeContent : jsstring.
Variable Date_getTime : jsstring -> number.

Let time (r : SavedResume) : Z :=
  match Date_getTime (savedAt r) with Some t => t | None => 0 end.

Lemma bySavedAtDesc_after (a b : SavedResume) ta tb :
  Date_getTime (savedAt a) = Some ta ->
  Date_getTime (savedAt b) = Some tb ->
  goes_after (bySavedAtDesc Date_getTime) a b = (ta <? tb).
Proof.
  intros Ha Hb. unfold goes_after, bySavedAtDesc. rewrite Ha, Hb. simpl.
  destruct (ta <? tb) eqn:E.
  - apply Z.ltb_lt in E. apply Z.ltb_lt. lia.
  - apply Z.ltb_ge in E. apply Z.ltb_ge. lia.
Qed.

Lemma sorted_newest_first (rs : list SavedResume) :
  (forall r, In r rs -> Date_getTime (savedAt r) <> None) ->
  newest_first Date_getTime (Array_sort (bySavedAtDesc Date_getTime) rs).
Proof.
  intros Hvalid.
  set (P := fun r : SavedResume => Date_getTime (savedAt r) = Some (time r)).
  assert (HP : Forall P rs).
  { apply Forall_forall. intros r Hr. apply Hvalid in Hr. unfold P, time.
    destruct (Date_getTime (savedAt r)); congruence. }
  assert (Hsorted :
    StronglySorted (fun a b => time b <= time a)
      (Array_sort (bySavedAtDesc Date_getTime) rs)).
  { apply (Array_sort_sorted _ P); [| | |exact HP].
    - intros; lia.
    - intros a b Pa Pb. rewrite (bySavedAtDesc_after a b _ _ Pa Pb).
      intros H. apply Z.ltb_lt in H. lia.
    - intros a b Pa Pb. rewrite (bySavedAtDesc_after a b _ _ Pa Pb).
      intros H. apply Z.ltb_ge in H. lia. }
  intros a b Hab.
  pose proof (StronglySorted_before _ _ a b Hsorted Hab) as Hle.
  assert (HP' : Forall P (Array_sort (bySavedAtDesc Date_getTime) rs))
    by (rewrite <- Array_sort_perm; exact HP).
  destruct Hab as (l1 & l2 & l3 & E). rewrite E in HP'.
  rewrite Forall_forall in HP'.
  exists (time a), (time b). repeat split; [| |exact Hle].
  - apply HP'. apply in_or_app. right. now left.
  - apply HP'. apply in_or_app. right. right. apply in_or_app. right.
    now left.
Qed.

(** C9: when the remote read fails, [getResumes] answers from the local
    cache.  On a cache that holds records it returns them, all of them and
    no other, newest first by savedAt (the savedAt being dates), and leaves
    the cache as it is; on the first read of an empty cache it stores one
    record, the default template, and returns that record. *)
Theorem getResumes_fallback (net : Fetch) (m uuid now : jsstring)
  (st : Storage) :
  tryFetchJson net = Rejected m ->
  match st with
  | Some rs =>
      exists l,
        getResumes templateResumeContent Date_getTime net uuid now st
        = (Resolved (FromCache l), Some rs)
        /\ Permutation rs l
        /\ ((forall r, In r rs -> Date_getTime (savedAt r) <> None) ->
            newest_first Date_getTime l)
  | None =>
      getResumes templateResumeContent Date_getTime net uuid now st
      = (Resolved (FromCache [templateResume templateResumeContent uuid now]),
         Some [templateResume templateResumeContent uuid now])
      /\ name (templateResume templateResumeContent uuid now)
         = js "General Resume Template"
      /\ content (templateResume templateResumeContent uuid now)
         = templateResumeContent
  end.
Proof.
  intros Hfail. unfold getResumes. rewrite Hfail.
  destruct st as [rs|]; simpl.
  - exists (Array_sort (bySavedAtDesc Date_getTime) rs).
    split; [reflexivity|]. split; [apply Array_sort_perm|].
    apply sorted_newest_first.
  - repeat split.
Qed.

Lemma filter_absent (id : jsstring) (rs : list SavedResume) :
  (forall r, In r rs -> _id r <> id) ->
  filter (fun r => negb (streq (_id r) id)) rs = rs.
Proof.
  induction rs as [|r rs IH]; simpl; [reflexivity|].
  intros H. assert (E : streq (_id r) id = false)
    by (apply streq_neq, H; now left).
  rewrite E. simpl. f_equal. apply IH. intros r' Hr'. apply H. now right.
Qed.

(** C2, as amended: when the DELETE request does not reach the server and
    the local cache has no record with the id, [deleteResume] fails with
    "Resume with ID <id> not found".  A cache that holds an array is left
    as it is; a cache never written is first seeded with the one template
    record, which stays there (its new id being another one than [id]). *)
Theorem deleteResume_not_found (id : jsstring) (net : Fetch)
  (uuid now : jsstring) (st : Storage) :
  request_fails id net ->
  match st with
  | Some rs =>
      (forall r, In r rs -> _id r <> id) ->
      deleteResume templateResumeContent id net uuid now st
      = (Rejected (js "Resume with ID " ++ id ++ js " not found"), Some rs)
  | None =>
      uuid <> id ->
      deleteResume templateResumeContent id net uuid now st
      = (Rejected (js "Resume with ID " ++ id ++ js " not found"),
         Some [templateResume templateResumeContent uuid now])
  end.
Proof.
  intros Hfail.
  assert (E : deleteResume templateResumeContent id net uuid now st
              = let (existing, st') :=
                  readLocalResumes templateResumeContent uuid now st in
                let updated :=
                  filter (fun r => negb (streq (_id r) id)) existing in
                if Nat.eqb (List.length updated) (List.length existing)
                then (Rejected (not_found id), st')
                else (Resolved true, writeLocalResumes updated)).
  { unfold deleteResume. destruct Hfail as [Hw|[m' ->]].
    - now rewrite Hw.
    - now destruct (well_formed id). }
  rewrite E. clear E. destruct st as [rs|]; simpl.
  - intros Habsent. rewrite filter_absent by exact Habsent.
    now rewrite Nat.eqb_refl.
  - intros Hneq. apply streq_neq in Hneq. now rewrite Hneq.
Qed.

(** Any answer of the server to the DELETE request, of whatever status,
    is reported as a success, and the cache is not read. *)
Lemma deleteResume_any_response (id : jsstring) (resp : Response)
  (uuid now : jsstring) (st : Storage) :
  well_formed id = true ->
  deleteResume templateResumeContent id (FetchResolves resp) uuid now st
  = (Resolved true, st).
Proof. intros H. unfold deleteResume. now rewrite H. Qed.

End ResumeStore.

Lemma getResumes_fallback_witness :
  ApiService.getResumes Sample.template Js.Date_getTime_iso
    Sample.unreachable (Js.js "u1") (Js.js "2024-06-01T00:00:00.000Z")
    (Some Sample.cache)
  = (Net.Resolved
       (ApiService.FromCache
          [Sample.saved "r2" "2024-01-01T00:00:00.000Z";
           Sample.saved "r1" "2001-09-09T01:46:40.000Z";
           Sample.saved "r3" "2000-01-01T00:00:00.000Z"]),
     Some Sample.cache)
  /\ Spec.newest_first Js.Date_getTime_iso
       [Sample.saved "r2" "2024-01-01T00:00:00.000Z";
        Sample.saved "r1" "2001-09-09T01:46:40.000Z";
        Sample.saved "r3" "2000-01-01T00:00:00.000Z"]
  /\ ApiService.getResumes Sample.template Js.Date_getTime_iso
       Sample.unreachable (Js.js "u1") (Js.js "2024-06-01T00:00:00.000Z")
       None
     = (Net.Resolved
          (ApiService.FromCache
             [ApiService.templateResume Sample.template (Js.js "u1")
                (Js.js "2024-06-01T00:00:00.000Z")]),
        Some [ApiService.templateResume Sample.template (Js.js "u1")
                (Js.js "2024-06-01T00:00:00.000Z")]).
Proof.
  split; [reflexivity|]. split.
  - destruct (getResumes_fallback Sample.template Js.Date_getTime_iso
                Sample.unreachable (Js.js "Failed to fetch") (Js.js "u1")
                (Js.js "2024-06-01T00:00:00.000Z") (Some Sample.cache)
                eq_refl) as (l & E & _ & Hsorted).
    injection E as <-. apply Hsorted.
    intros r Hr. simpl in Hr.
    destruct Hr as [<-|[<-|[<-|[]]]]; discriminate.
  - apply (getResumes_fallback Sample.template Js.Date_getTime_iso
             Sample.unreachable (Js.js "Failed to fetch") (Js.js "u1")
             (Js.js "2024-06-01T00:00:00.000Z") None eq_refl).
Defined.

Lemma deleteResume_not_found_witness :
  ApiService.deleteResume Sample.template (Js.js "r9") Sample.unreachable
    (Js.js "u1") (Js.js "2024-06-01T00:00:00.000Z") (Some Sample.cache)
  = (Net.Rejected (Js.js "Resume with ID r9 not found"), Some Sample.cache).
Proof.
  apply (deleteResume_not_found Sample.template (Js.js "r9")
           Sample.unreachable (Js.js "u1") (Js.js "2024-06-01T00:00:00.000Z")
           (Some Sample.cache)).
  - right. now exists (Js.js "Failed to fetch").
  - intros r Hr. simpl in Hr.
    destruct Hr as [<-|[<-|[<-|[]]]]; discriminate.
Defined.

(** C2, as stated, fails: on a cache never written, deleting an id that is
    nowhere fails with the not-found error and yet leaves a record in the
    cache that was not there before, the seeded template. *)
Lemma deleteResume_seeds_the_cache :
  ApiService.deleteResume Sample.template (Js.js "r9") Sample.unreachable
    (Js.js "u1") (Js.js "2024-06-01T00:00:00.000Z") None
  = (Net.Rejected (Js.js "Resume with ID r9 not found"),
     Some [ApiService.templateResume Sample.template (Js.js "u1")
             (Js.js "2024-06-01T00:00:00.000Z")])
  /\ snd (ApiService.deleteResume Sample.template (Js.js "r9")
            Sample.unreachable (Js.js "u1")
            (Js.js "2024-06-01T00:00:00.000Z") None)
     <> None.
Proof. split; [reflexivity | discriminate]. Qed.

(** ** The analysis client (geminiService.ts) *)

Section AnalysisClient.
Import Js Types Net GeminiService.

(** C3, as amended: [analyzeJobFit] raises an error whenever the service
    answers with a non-success status, and the message of that error is
    "Failed to analyze job fit: " followed by the body of the answer, or
    by its status text when the body is empty, so it is never empty.  On a
    success status it raises nothing for an empty or unparseable body: it
    returns the empty object for an empty body, the text itself for a body
    that is not JSON, and otherwise the parsed value as it is. *)
Theorem analyzeJobFit_outcome (resp : Response) (text : jsstring)
  (json : Parse) :
  body resp = BodyText text json ->
  (ok resp = false ->
     analyzeJobFit (FetchResolves resp)
     = Rejected (js "Failed to analyze job fit: "
                   ++ (if truthy text then text else statusText resp))
     /\ js "Failed to analyze job fit: "
          ++ (if truthy text then text else statusText resp) <> [])
  /\ (ok resp = true ->
       analyzeJobFit (FetchResolves resp)
       = Resolved
           match text, json with
           | [], _ => JObject []
           | _ :: _, Parsed v => v
           | _ :: _, SyntaxError _ => JString text
           end).
Proof.
  intros Hb. unfold analyzeJobFit, handleResponse. rewrite Hb. split.
  - intros ->. simpl. split; [reflexivity | discriminate].
  - intros ->. simpl. destruct text; simpl; [reflexivity|].
    destruct json; reflexivity.
Qed.

(** What does not answer at all, or whose body cannot be read, rejects
    with the message the browser gives. *)
Lemma analyzeJobFit_transport (m : jsstring) (resp : Response) :
  analyzeJobFit (FetchRejects m) = Rejected m
  /\ (body resp = BodyFails m ->
      analyzeJobFit (FetchResolves resp) = Rejected m).
Proof.
  split; [reflexivity|]. intros Hb. unfold analyzeJobFit, handleResponse.
  rewrite Hb. now destruct (ok resp).
Qed.

End AnalysisClient.

Lemma analyzeJobFit_outcome_witness :
  GeminiService.analyzeJobFit (Net.FetchResolves Sample.bad_gateway)
  = Net.Rejected
      (Js.js "Failed to analyze job fit: upstream request timed out")
  /\ GeminiService.analyzeJobFit (Net.FetchResolves Sample.html_ok)
     = Net.Resolved (Types.JString (Js.js "<html>Bad gateway</html>")).
Proof.
  split.
  - apply (proj1 (analyzeJobFit_outcome Sample.bad_gateway _ _ eq_refl)).
    reflexivity.
  - apply (proj2 (analyzeJobFit_outcome Sample.html_ok _ _ eq_refl)).
    reflexivity.
Defined.

(** C3, as stated, fails: a 200 answer with an empty body raises nothing;
    the call returns the empty object, which is no JobAnalysis. *)
Lemma analyzeJobFit_empty_body :
  GeminiService.analyzeJobFit (Net.FetchResolves Sample.empty_ok)
  = Net.Resolved (Types.JObject [])
  /\ Types.as_JobAnalysis (Types.JObject []) = None.
Proof. split; reflexivity. Qed.

(** ** Accepting a suggestion (App.tsx, handleApplySuggestion) *)

Section ApplySuggestion.
Import Js Types Spec App.

(** A suggestion whose original text is nowhere in the résumé leaves the
    résumé as it is. *)
Lemma handleApplySuggestion_absent (s : ImprovementSuggestion) (st : State) :
  (forall n, ~ occurs_at (originalText s) (resume st) n) ->
  resume (handleApplySuggestion s st) = resume st.
Proof. intros H. simpl. now apply String_replace_absent. Qed.

(** A rewrite without a dollar sign replaces the first occurrence of the
    original text, and only that one. *)
Lemma handleApplySuggestion_plain (s : ImprovementSuggestion) (st : State)
  (n : nat) :
  occurs_at (originalText s) (resume st) n ->
  (forall k, (k < n)%nat -> ~ occurs_at (originalText s) (resume st) k) ->
  ~ In DOLLAR (suggestedRewrite s) ->
  resume (handleApplySuggestion s st)
  = firstn n (resume st) ++ suggestedRewrite s
      ++ skipn (n + List.length (originalText s)) (resume st)
  /\ (List.length (resume (handleApplySuggestion s st))
      + List.length (originalText s)
      = List.length (resume st) + List.length (suggestedRewrite s))%nat.
Proof. intros H1 H2 H3. simpl. now apply String_replace_plain. Qed.

End ApplySuggestion.

Lemma handleApplySuggestion_plain_witness :
  App.resume
    (App.handleApplySuggestion Sample.suggestion
       (Sample.desk "Managed inbound calls." []))
  = Js.js "Managed 50+ inbound calls daily.".
Proof.
  apply (proj1 (handleApplySuggestion_plain Sample.suggestion
                  (Sample.desk "Managed inbound calls." []) 0
                  ltac:(now exists [], [])
                  ltac:(intros k Hk; inversion Hk)
                  ltac:(vm_compute; intuition discriminate))).
Defined.

(** C1 at a rewrite that holds dollar signs: the résumé is the original
    text, the rewrite is "Saved the company $$$ on inbound calls.", and the
    résumé becomes "Saved the company $$ on inbound calls.": not the
    rewrite, and one code unit short of the length the claim gives. *)
Theorem handleApplySuggestion_dollar_signs :
  Spec.occurs_at (Types.originalText Sample.dollar_suggestion)
    (Js.js "Managed inbound calls.") 0
  /\ App.resume
       (App.handleApplySuggestion Sample.dollar_suggestion
          (Sample.desk "Managed inbound calls." []))
     = Js.js "Saved the company $$ on inbound calls."
  /\ App.resume
       (App.handleApplySuggestion Sample.dollar_suggestion
          (Sample.desk "Managed inbound calls." []))
     <> Types.suggestedRewrite Sample.dollar_suggestion
  /\ (List.length
        (App.resume
           (App.handleApplySuggestion Sample.dollar_suggestion
              (Sample.desk "Managed inbound calls." [])))
      + List.length (Types.originalText Sample.dollar_suggestion)
      <> List.length (Js.js "Managed inbound calls.")
         + List.length (Types.suggestedRewrite Sample.dollar_suggestion))%nat.
Proof.
  repeat split.
  - now exists [], [].
  - vm_compute. discriminate.
  - vm_compute. discriminate.
Qed.

(** ** The job collection (App.tsx) *)

Section JobCollection.
Import Js Types Net Spec App.

Lemma find_job_first (jobId : jsstring) (l : list Job) (job : Job) :
  first_with_id jobId l job -> find_job jobId l = Some job.
Proof.
  intros (l1 & l2 & -> & Hid & Hl1). unfold find_job.
  induction l1 as [|x l1 IH]; simpl.
  - apply streq_eq in Hid. now rewrite Hid.
  - assert (E : streq (id x) jobId = false)
      by (apply streq_neq, Hl1; now left).
    rewrite E. apply IH. intros j Hj. apply Hl1. now right.
Qed.

Lemma find_job_absent (jobId : jsstring) (l : list Job) :
  no_job_with_id jobId l -> find_job jobId l = None.
Proof.
  unfold find_job. induction l as [|x l IH]; simpl; [reflexivity|].
  intros H. assert (E : streq (id x) jobId = false)
    by (apply streq_neq, H; now left).
  rewrite E. apply IH. intros j Hj. apply H. now right.
Qed.

Lemma spread_merged (j : Job) (u : PartialJob) : merged j u (spread j u).
Proof.
  unfold merged, listed, spread, pick; simpl.
  repeat split;
    match goal with |- context [match ?x with _ => _ end] => now destruct x end.
Qed.

Lemma update_absent (jobId : jsstring) (u : PartialJob) (l : list Job) :
  no_job_with_id jobId l ->
  map (fun j => if streq (id j) jobId then spread j u else j) l = l.
Proof.
  induction l as [|x l IH]; simpl; [reflexivity|].
  intros H. assert (E : streq (id x) jobId = false)
    by (apply streq_neq, H; now left).
  rewrite E. f_equal. apply IH. intros j Hj. apply H. now right.
Qed.

(** C7, as amended: [handleAddJob] creates a Job with an empty url and an
    empty description, the title "New Job Listing", the company "Company
    Name", both flags false, no error, no analysis and no analyzedAt, under
    the id uuidv4() returned, and puts it at the head of the collection;
    the Jobs that were there follow, unchanged and in their order.  When
    the ids of the collection are distinct and uuidv4() returns an id that
    is not among them, the ids of the new collection are distinct too. *)
Theorem handleAddJob_head (uuid : jsstring) (st : State) :
  jobs (handleAddJob uuid st)
  = {| id := uuid; url := []; title := js "New Job Listing";
       company := js "Company Name"; description := [];
       isFetching := false; isLoading := false; error := None;
       analysis := JNull; analyzedAt := None |} :: jobs st
  /\ resume (handleAddJob uuid st) = resume st
  /\ (NoDup (map id (jobs st)) -> ~ In uuid (map id (jobs st)) ->
      NoDup (map id (jobs (handleAddJob uuid st)))).
Proof.
  repeat split. intros Hnd Hfresh. simpl. now constructor.
Qed.

(** C8: [handleUpdateJob] keeps the place of every Job; a Job of another
    id stays as it is; a Job of the id has the listed fields merged in and
    every field not listed as before; nothing else of the state changes.
    When no Job has the id, the collection is left as it is. *)
Theorem handleUpdateJob_frame (jobId : jsstring) (updates : PartialJob)
  (st : State) :
  (forall n j, nth_error (jobs st) n = Some j ->
     exists j',
       nth_error (jobs (handleUpdateJob jobId updates st)) n = Some j'
       /\ (id j <> jobId -> j' = j)
       /\ (id j = jobId -> merged j updates j'))
  /\ List.length (jobs (handleUpdateJob jobId updates st))
     = List.length (jobs st)
  /\ resume (handleUpdateJob jobId updates st) = resume st
  /\ view (handleUpdateJob jobId updates st) = view st
  /\ activeSuggestion (handleUpdateJob jobId updates st)
     = activeSuggestion st
  /\ (no_job_with_id jobId (jobs st) ->
      handleUpdateJob jobId updates st = st).
Proof.
  split; [|split; [|split; [|split; [|split]]]]; try reflexivity.
  - intros n j Hn. simpl. rewrite nth_error_map, Hn. simpl.
    destruct (streq (id j) jobId) eqn:E.
    + exists (spread j updates). split; [reflexivity|]. split.
      * apply streq_eq in E. congruence.
      * intros _. apply spread_merged.
    + exists j. split; [reflexivity|]. split; [reflexivity|].
      apply streq_neq in E. congruence.
  - simpl. apply length_map.
  - intros H. unfold handleUpdateJob, setJobs.
    rewrite update_absent by exact H. now destruct st.
Qed.

(** C10: [handleAnalyzeJob] on an id no Job has, or with a résumé that is
    empty or white space only, or when the Job of that id has a
    description that is empty or white space only, issues no request and
    returns the state it was given; so does [handleFetchDescription] on an
    id no Job has or when the Job of that id has an empty url. *)
Theorem guards_return_at_once (jobId : jsstring) (st : State) :
  (no_job_with_id jobId (jobs st)
   \/ whitespace_only (resume st)
   \/ (exists job, first_with_id jobId (jobs st) job
                   /\ whitespace_only (description job)) ->
   handleAnalyzeJob jobId st = (st, None))
  /\ (no_job_with_id jobId (jobs st)
      \/ (exists job, first_with_id jobId (jobs st) job /\ url job = []) ->
      handleFetchDescription jobId st = (st, None)).
Proof.
  split.
  - intros [H|[H|(job & Hjob & H)]]; unfold handleAnalyzeJob.
    + now rewrite (find_job_absent _ _ H).
    + apply truthy_trim in H. rewrite H.
      now destruct (find_job jobId (jobs st)).
    + rewrite (find_job_first _ _ _ Hjob). apply truthy_trim in H.
      rewrite H. now rewrite orb_true_r.
  - intros [H|(job & Hjob & H)]; unfold handleFetchDescription.
    + now rewrite (find_job_absent _ _ H).
    + rewrite (find_job_first _ _ _ Hjob), H. reflexivity.
Qed.

(** What [fetchJobDescriptionFromUrl] rejects with is never empty, the
    browser's own messages being texts. *)
Lemma fetch_message_nonempty (engine : Engine) (net : Fetch)
  (msg : jsstring) :
  Forall (fun m => m <> []) (browser_messages engine net) ->
  GeminiService.fetchJobDescriptionFromUrl engine net = Rejected msg ->
  msg <> [].
Proof.
  unfold browser_messages, GeminiService.fetchJobDescriptionFromUrl.
  intros H. apply Forall_cons_iff in H as [Hnull H].
  apply Forall_cons_iff in H as [Hfun H].
  destruct net as [m|resp].
  - apply Forall_cons_iff in H as [Hm _]. now intros [= <-].
  - destruct (ok resp); simpl.
    + destruct (body resp) as [m|text [data|m]].
      * apply Forall_cons_iff in H as [Hm _]. now intros [= <-].
      * unfold GeminiService.text_of_data.
        destruct data as [|b|q|s|l|ps]; try discriminate.
        -- now intros [= <-].
        -- destruct (get_property (js "text") ps) as [v|]; [|discriminate].
           destruct (GeminiService.truthy_value v); [|discriminate].
           destruct v; try discriminate; now intros [= <-].
      * apply Forall_cons_iff in H as [Hm _]. now intros [= <-].
    + destruct (body resp) as [m|text json].
      * apply Forall_cons_iff in H as [Hm _]. now intros [= <-].
      * intros [= <-]. discriminate.
Qed.

(** C6: a Job with a non-empty url whose description fetch fails ends
    with isFetching false, with the message of the failure, a non-empty
    text, as its error, and with the description and every other field it
    had before the call; every other Job, the résumé and the rest of the
    state are as before the call. *)
Theorem handleFetchDescription_failure (engine : Engine) (net : Fetch)
  (msg jobId : jsstring) (st : State) (job : Job) :
  first_with_id jobId (jobs st) job ->
  url job <> [] ->
  GeminiService.fetchJobDescriptionFromUrl engine net = Rejected msg ->
  Forall (fun m => m <> []) (browser_messages engine net) ->
  snd (handleFetchDescription jobId st)
  = Some (DescriptionFetch jobId (url job))
  /\ msg <> []
  /\ (forall n j, nth_error (jobs st) n = Some j ->
        exists j',
          nth_error (jobs (fetch_failed jobId msg st)) n = Some j'
          /\ (id j <> jobId -> j' = j)
          /\ (id j = jobId ->
              isFetching j' = false /\ error j' = Some msg
              /\ same_but_fetch_state j j'))
  /\ resume (fetch_failed jobId msg st) = resume st
  /\ view (fetch_failed jobId msg st) = view st
  /\ activeSuggestion (fetch_failed jobId msg st) = activeSuggestion st.
Proof.
  intros Hjob Hurl Hfail Hbrowser.
  unfold fetch_failed, handleFetchDescription.
  rewrite (find_job_first _ _ _ Hjob).
  destruct (url job) as [|c u] eqn:Eurl; [congruence|]. simpl negb. cbv iota.
  split; [reflexivity|].
  split; [now apply (fetch_message_nonempty engine net)|].
  split; [|repeat split].
  intros n j Hn. simpl. rewrite !nth_error_map, Hn. simpl.
  destruct (streq (id j) jobId) eqn:E.
  - simpl. rewrite E. eexists. split; [reflexivity|]. split.
    + apply streq_eq in E. congruence.
    + intros _. repeat split.
  - rewrite E. exists j. split; [reflexivity|]. split; [reflexivity|].
    apply streq_neq in E. congruence.
Qed.

(** *** isLoading and the analyze calls in flight *)

Lemma in_updated (jobId : jsstring) (u : PartialJob) (st : State) (j' : Job) :
  In j' (jobs (handleUpdateJob jobId u st)) ->
  exists j, In j (jobs st)
            /\ j' = if streq (id j) jobId then spread j u else j.
Proof.
  simpl. intros H. apply in_map_iff in H as (j & <- & Hj). now exists j.
Qed.

Lemma update_keeps_loading (jobId : jsstring) (u : PartialJob) (st : State)
  (p p' : list Call) :
  p_id u = None -> p_isLoading u = None ->
  (forall c, In c p -> (exists i r d, c = Analysis i r d) -> In c p') ->
  loading_only_while_analyzing (jobs st) p ->
  loading_only_while_analyzing (jobs (handleUpdateJob jobId u st)) p'.
Proof.
  intros Hid Hload Hsub Hinv j' Hj' Hl.
  apply in_updated in Hj' as (j & Hj & ->).
  assert (E : id (if streq (id j) jobId then spread j u else j) = id j
              /\ isLoading (if streq (id j) jobId then spread j u else j)
                 = isLoading j).
  { destruct (streq (id j) jobId); [|split; reflexivity].
    simpl. now rewrite Hid, Hload. }
  destruct E as [E1 E2]. rewrite E1. rewrite E2 in Hl.
  destruct (Hinv j Hj Hl) as (r & d & Hin).
  exists r, d. apply Hsub; [exact Hin | now exists (id j), r, d].
Qed.

Lemma analysis_stays (c c0 : Call) (p1 p2 : list Call) :
  In c (p1 ++ c0 :: p2) -> c <> c0 -> In c (p1 ++ p2).
Proof.
  intros H Hne. apply in_app_or in H as [H|[H|H]];
    [apply in_or_app; now left | congruence | apply in_or_app; now right].
Qed.

Lemma loading_invariant (templateResumeContent : jsstring) (w : World) :
  reachable templateResumeContent w ->
  loading_only_while_analyzing (jobs (app w)) (pending w).
Proof.
  induction 1 as [|w w' Hreach IH Hstep].
  - intros j [].
  - destruct Hstep; simpl.
    + (* handleAddJob *)
      intros j [<-|Hj] Hl; [discriminate | now apply IH].
    + apply (update_keeps_loading _ _ _ (pending w)); auto.
    + apply (update_keeps_loading _ _ _ (pending w)); auto.
    + (* handleRemoveJob *)
      intros j Hj Hl. apply filter_In in Hj as [Hj _]. now apply IH.
    + (* handleFetchDescription *)
      unfold handleFetchDescription.
      destruct (find_job jobId (jobs (app w))) as [job|]; [|exact IH].
      destruct (negb (truthy (url job))); [exact IH|].
      apply (update_keeps_loading _ _ _ (pending w)); auto.
      intros c Hc _. now right.
    + destruct o; apply (update_keeps_loading _ _ _ (pending w)); auto;
        intros c Hc (i & r & d & ->); rewrite H in Hc;
        apply (analysis_stays _ _ _ _ Hc); discriminate.
    + (* handleAnalyzeJob *)
      unfold handleAnalyzeJob.
      destruct (find_job jobId (jobs (app w))) as [job|]; [|exact IH].
      destruct (negb (truthy (trim (resume (app w))))
                || negb (truthy (trim (description job)))); [exact IH|].
      intros j' Hj' Hl. apply in_updated in Hj' as (j & Hj & ->).
      destruct (streq (id j) jobId) eqn:E.
      * apply streq_eq in E. simpl. rewrite E.
        exists (resume (app w)), (description job). now left.
      * destruct (IH j Hj Hl) as (r & d & Hin). exists r, d. now right.
    + (* the analyze call settles *)
      intros j' Hj' Hl.
      assert (Hj : exists j, In j (jobs (app w)) /\ j' = j
                             /\ streq (id j) jobId = false).
      { destruct o; apply in_updated in Hj' as (j & Hj & ->);
          (destruct (streq (id j) jobId) eqn:E;
           [discriminate Hl | now exists j]). }
      destruct Hj as (j & Hj & -> & E).
      destruct (IH j Hj Hl) as (r' & d' & Hin). exists r', d'.
      rewrite H in Hin. apply (analysis_stays _ _ _ _ Hin).
      intros [= Heq _ _]. apply streq_neq in E. congruence.
    + (* handleAddJobFromSearch *)
      intros j [<-|Hj] Hl; [discriminate|].
      destruct (IH j Hj Hl) as (r & d & Hin). exists r, d. now right.
    + destruct o; apply (update_keeps_loading _ _ _ (pending w)); auto;
        intros c Hc (i & r & d & ->); rewrite H in Hc;
        apply (analysis_stays _ _ _ _ Hc); discriminate.
    + (* handleAddJobFromCafe *)
      intros j [<-|Hj] Hl; [discriminate | now apply IH].
    + exact IH.
    + exact IH.
    + exact IH.
    + exact IH.
    + exact IH.
    + exact IH.
Qed.

(** A call that passes the guard shows the Job of the id as loading. *)
Lemma handleAnalyzeJob_starts (jobId : jsstring) (st : State) (c : Call)
  (j : Job) :
  snd (handleAnalyzeJob jobId st) = Some c ->
  In j (jobs (fst (handleAnalyzeJob jobId st))) -> id j = jobId ->
  isLoading j = true /\ error j = None.
Proof.
  unfold handleAnalyzeJob.
  destruct (find_job jobId (jobs st)) as [job|]; [|discriminate].
  destruct (negb (truthy (trim (resume st)))
            || negb (truthy (trim (description job)))); [discriminate|].
  intros _ Hj Hid. apply in_updated in Hj as (j0 & _ & ->).
  destruct (streq (id j0) jobId) eqn:E;
    [split; reflexivity | apply streq_neq in E; congruence].
Qed.

Lemma settled_positions (jobId : jsstring) (u : PartialJob) (st : State)
  (n : nat) (j : Job) :
  nth_error (jobs st) n = Some j ->
  exists j',
    nth_error (jobs (handleUpdateJob jobId u st)) n = Some j'
    /\ (id j <> jobId -> j' = j)
    /\ (id j = jobId -> j' = spread j u).
Proof.
  intros Hn. simpl. rewrite nth_error_map, Hn. simpl.
  destruct (streq (id j) jobId) eqn:E.
  - eexists. split; [reflexivity|]. split; [|reflexivity].
    apply streq_eq in E. congruence.
  - exists j. split; [reflexivity|]. split; [reflexivity|].
    apply streq_neq in E. congruence.
Qed.

(** C5, as amended: at every moment of every run of the application, a
    Job whose isLoading is true has an analyze call for its id in flight,
    started and not yet settled.  When such a call settles, the
    collection keeps its length and every Job its position, and the rest
    of the state is untouched; a Job of another id is unchanged; after
    a success a Job of that id has isLoading false, as its analysis the
    value the call resolved with (null when that value is null), the time
    of completion as its analyzedAt and every other field as before;
    after a failure it has isLoading false, the message of the failure as
    its error and every other field as before. *)
Theorem isLoading_window (templateResumeContent : jsstring) :
  (forall w j,
     reachable templateResumeContent w ->
     In j (jobs (app w)) -> isLoading j = true -> analyzing (id j) w)
  /\ (forall jobId o now st,
        List.length (jobs (handleAnalyzeJob_settled jobId o now st))
        = List.length (jobs st)
        /\ resume (handleAnalyzeJob_settled jobId o now st) = resume st
        /\ view (handleAnalyzeJob_settled jobId o now st) = view st
        /\ activeSuggestion (handleAnalyzeJob_settled jobId o now st)
           = activeSuggestion st)
  /\ (forall jobId result now st n j,
        nth_error (jobs st) n = Some j ->
        exists j',
          nth_error
            (jobs (handleAnalyzeJob_settled jobId (Resolved result) now st)) n
          = Some j'
          /\ (id j <> jobId -> j' = j)
          /\ (id j = jobId ->
              isLoading j' = false /\ analysis j' = result
              /\ analyzedAt j' = Some now /\ same_but_analysis j j'))
  /\ (forall jobId m now st n j,
        nth_error (jobs st) n = Some j ->
        exists j',
          nth_error
            (jobs (handleAnalyzeJob_settled jobId (Rejected m) now st)) n
          = Some j'
          /\ (id j <> jobId -> j' = j)
          /\ (id j = jobId ->
              isLoading j' = false /\ error j' = Some m
              /\ same_but_loading j j')).
Proof.
  split; [|split; [|split]].
  - intros w j Hreach Hj Hl.
    exact (loading_invariant templateResumeContent w Hreach j Hj Hl).
  - intros jobId o now st.
    destruct o; simpl; rewrite length_map; repeat split.
  - intros jobId result now st n j Hn.
    unfold handleAnalyzeJob_settled.
    match goal with
    | |- context [handleUpdateJob _ ?u _] =>
        destruct (settled_positions jobId u st n j Hn)
          as (j' & Hn' & Hne & He)
    end.
    exists j'. split; [exact Hn'|]. split; [exact Hne|].
    intros Hid. rewrite (He Hid). repeat split.
  - intros jobId m now st n j Hn.
    unfold handleAnalyzeJob_settled.
    match goal with
    | |- context [handleUpdateJob _ ?u _] =>
        destruct (settled_positions jobId u st n j Hn)
          as (j' & Hn' & Hne & He)
    end.
    exists j'. split; [exact Hn'|]. split; [exact Hne|].
    intros Hid. rewrite (He Hid). repeat split.
Qed.

(** *** Where the dates of the dashboard come from

    Only a successful analysis writes an analyzedAt, and it writes what
    the clock reads then: in a run in which the clock reads dates after
    1970, every analyzedAt the collection holds is such a date. *)

Lemma update_keeps_dates (Date_getTime : jsstring -> number)
  (jobId : jsstring) (u : PartialJob) (st : State) :
  (forall now, p_analyzedAt u = Some now -> after_epoch Date_getTime now) ->
  analyzed_after_epoch Date_getTime (jobs st) ->
  analyzed_after_epoch Date_getTime (jobs (handleUpdateJob jobId u st)).
Proof.
  intros Hu H j' s Hj' Hs. apply in_updated in Hj' as (j & Hj & ->).
  destruct (streq (id j) jobId); [|now apply (H j s Hj)].
  simpl in Hs. destruct (p_analyzedAt u) as [now|] eqn:E.
  - injection Hs as <-. now apply Hu.
  - now apply (H j s Hj).
Qed.

Lemma analyzedAt_from_the_clock (Date_getTime : jsstring -> number)
  (templateResumeContent : jsstring) (w : World) :
  reachable_by_clock (after_epoch Date_getTime) templateResumeContent w ->
  analyzed_after_epoch Date_getTime (jobs (app w)).
Proof.
  induction 1 as [|w w' Hreach IH Hstep Hclock].
  - intros j s [].
  - destruct Hstep; simpl app; try exact IH.
    + intros j s [<-|Hj] Hs; [discriminate | now apply (IH j s)].
    + apply update_keeps_dates; [discriminate | exact IH].
    + apply update_keeps_dates; [discriminate | exact IH].
    + intros j s Hj. apply filter_In in Hj as [Hj _]. now apply IH.
    + unfold handleFetchDescription.
      destruct (find_job jobId (jobs (app w))) as [job|]; [|exact IH].
      destruct (negb (truthy (url job))); [exact IH|].
      apply update_keeps_dates; [discriminate | exact IH].
    + destruct o; apply update_keeps_dates; (discriminate || exact IH).
    + unfold handleAnalyzeJob.
      destruct (find_job jobId (jobs (app w))) as [job|]; [|exact IH].
      destruct (negb (truthy (trim (resume (app w))))
                || negb (truthy (trim (description job)))); [exact IH|].
      apply update_keeps_dates; [discriminate | exact IH].
    + destruct o as [result|m];
        (apply update_keeps_dates; [|exact IH]); [|discriminate].
      intros now' [= <-]. apply Hclock.
      exists jobId, r, d, result, p1, p2. split; [assumption | reflexivity].
    + intros j s [<-|Hj] Hs; [discriminate | now apply (IH j s)].
    + destruct o; apply update_keeps_dates; (discriminate || exact IH).
    + intros j s [<-|Hj] Hs; [discriminate | now apply (IH j s)].
Qed.

End JobCollection.

(** ** The theorems at work *)

Lemma handleAddJob_head_witness :
  NoDup (map Types.id
           (App.jobs (App.handleAddJob (Js.js "e")
                        (Sample.desk "Managed inbound calls."
                           Sample.dashboard)))).
Proof.
  apply (proj2 (proj2 (handleAddJob_head (Js.js "e")
                         (Sample.desk "Managed inbound calls."
                            Sample.dashboard)))).
  - repeat constructor; simpl; intuition discriminate.
  - simpl; intuition discriminate.
Defined.

(** C7, as stated, fails: the Job [handleAddJob] creates has a title and
    a company that are not empty. *)
Lemma handleAddJob_placeholders :
  ~ (forall j,
       hd_error (App.jobs (App.handleAddJob (Js.js "e") Sample.w0.(App.app)))
       = Some j ->
       Types.title j = [] /\ Types.company j = []).
Proof.
  intros H. destruct (H _ eq_refl) as [H1 _]. discriminate H1.
Qed.

Lemma handleUpdateJob_frame_witness :
  (exists j',
     nth_error
       (App.jobs
          (App.handleUpdateJob (Js.js "b")
             (App.description_edit (Js.js "Remote role."))
             (Sample.desk "Managed inbound calls." Sample.dashboard))) 1
     = Some j'
     /\ (Types.id (Sample.analyzed "b" "2024-01-01T00:00:00.000Z")
         <> Js.js "b" ->
         j' = Sample.analyzed "b" "2024-01-01T00:00:00.000Z")
     /\ (Types.id (Sample.analyzed "b" "2024-01-01T00:00:00.000Z")
         = Js.js "b" ->
         Spec.merged (Sample.analyzed "b" "2024-01-01T00:00:00.000Z")
           (App.description_edit (Js.js "Remote role.")) j'))
  /\ App.handleUpdateJob (Js.js "gone")
       (App.description_edit (Js.js "Remote role."))
       (Sample.desk "Managed inbound calls." Sample.dashboard)
     = Sample.desk "Managed inbound calls." Sample.dashboard.
Proof.
  split.
  - apply (proj1 (handleUpdateJob_frame (Js.js "b")
                    (App.description_edit (Js.js "Remote role."))
                    (Sample.desk "Managed inbound calls." Sample.dashboard))
             1%nat (Sample.analyzed "b" "2024-01-01T00:00:00.000Z")).
    reflexivity.
  - apply (handleUpdateJob_frame (Js.js "gone")
             (App.description_edit (Js.js "Remote role."))
             (Sample.desk "Managed inbound calls." Sample.dashboard)).
    intros j Hj. simpl in Hj.
    destruct Hj as [<-|[<-|[<-|[<-|[]]]]]; discriminate.
Defined.

Lemma guards_return_at_once_witness :
  App.handleAnalyzeJob (Js.js "a") (Sample.desk "  " Sample.dashboard)
  = (Sample.desk "  " Sample.dashboard, None)
  /\ App.handleFetchDescription (Js.js "gone")
       (Sample.desk "Managed inbound calls." Sample.dashboard)
     = (Sample.desk "Managed inbound calls." Sample.dashboard, None).
Proof.
  split.
  - apply (proj1 (guards_return_at_once (Js.js "a")
                    (Sample.desk "  " Sample.dashboard))).
    right. left. repeat constructor.
  - apply (proj2 (guards_return_at_once (Js.js "gone")
                    (Sample.desk "Managed inbound calls." Sample.dashboard))).
    left. intros j Hj. simpl in Hj.
    destruct Hj as [<-|[<-|[<-|[<-|[]]]]]; discriminate.
Defined.

Lemma handleFetchDescription_failure_witness :
  exists j',
    nth_error
      (App.jobs
         (Spec.fetch_failed (Js.js "a") (Js.js "Failed to fetch")
            (Sample.desk "Managed inbound calls." Sample.dashboard))) 0
    = Some j'
    /\ (Types.id (Sample.job "a") <> Js.js "a" -> j' = Sample.job "a")
    /\ (Types.id (Sample.job "a") = Js.js "a" ->
        Types.isFetching j' = false
        /\ Types.error j' = Some (Js.js "Failed to fetch")
        /\ Spec.same_but_fetch_state (Sample.job "a") j').
Proof.
  apply (proj1 (proj2 (proj2
           (handleFetchDescription_failure Sample.browser Sample.unreachable
              (Js.js "Failed to fetch") (Js.js "a")
              (Sample.desk "Managed inbound calls." Sample.dashboard)
              (Sample.job "a")
              ltac:(exists [], (tl Sample.dashboard);
                    split; [reflexivity | split; [reflexivity | intros j []]])
              ltac:(discriminate)
              eq_refl
              ltac:(repeat constructor; discriminate))))
           0%nat (Sample.job "a") eq_refl).
Defined.

Lemma isLoading_window_witness :
  App.analyzing (Js.js "j1") Sample.w3
  /\ Types.isLoading Sample.loading_job = true
  /\ (exists j',
        nth_error
          (App.jobs
             (App.handleAnalyzeJob_settled (Js.js "j1")
                (Net.Resolved Sample.report)
                (Js.js "2024-06-01T00:00:00.000Z") (App.app Sample.w3))) 0
        = Some j'
        /\ (Types.id Sample.loading_job <> Js.js "j1" ->
            j' = Sample.loading_job)
        /\ (Types.id Sample.loading_job = Js.js "j1" ->
            Types.isLoading j' = false
            /\ Types.analysis j' = Sample.report
            /\ Types.analyzedAt j' = Some (Js.js "2024-06-01T00:00:00.000Z")
            /\ Spec.same_but_analysis Sample.loading_job j'))
  /\ (exists j',
        nth_error
          (App.jobs
             (App.handleAnalyzeJob_settled (Js.js "j1")
                (Net.Rejected (Js.js "Failed to fetch"))
                (Js.js "2024-06-01T00:00:00.000Z") (App.app Sample.w3))) 0
        = Some j'
        /\ (Types.id Sample.loading_job <> Js.js "j1" ->
            j' = Sample.loading_job)
        /\ (Types.id Sample.loading_job = Js.js "j1" ->
            Types.isLoading j' = false
            /\ Types.error j' = Some (Js.js "Failed to fetch")
            /\ Spec.same_but_loading Sample.loading_job j')).
Proof.
  assert (R3 : App.reachable Sample.template Sample.w3).
  { apply (App.after_step _ Sample.w2);
      [|exact (App.on_analyze Sample.w2 (Js.js "j1"))].
    apply (App.after_step _ Sample.w1);
      [|exact (App.on_edit_description Sample.w1 (Js.js "j1")
                 (Js.js "Looking for a CRM expert."))].
    apply (App.after_step _ Sample.w0);
      [|exact (App.on_add_job Sample.w0 (Js.js "j1"))].
    exact (App.at_start Sample.template). }
  split; [|split; [reflexivity|split]].
  - apply (proj1 (isLoading_window Sample.template) Sample.w3
             Sample.loading_job R3).
    + left. reflexivity.
    + reflexivity.
  - apply (proj1 (proj2 (proj2 (isLoading_window Sample.template)))
             (Js.js "j1") Sample.report (Js.js "2024-06-01T00:00:00.000Z")
             (App.app Sample.w3) 0%nat Sample.loading_job).
    reflexivity.
  - apply (proj2 (proj2 (proj2 (isLoading_window Sample.template)))
             (Js.js "j1") (Js.js "Failed to fetch")
             (Js.js "2024-06-01T00:00:00.000Z") (App.app Sample.w3) 0%nat
             Sample.loading_job).
    reflexivity.
Defined.

(** C5, as stated, fails: the proxy passes on the JSON value null when
    the model answers with it, the analyze call resolves with null, and
    the Job of the call ends with a null analysis after a call that
    succeeded. *)
Lemma handleAnalyzeJob_null_analysis :
  GeminiService.analyzeJobFit (Net.FetchResolves Sample.null_analysis)
  = Net.Resolved Types.JNull
  /\ ~ (forall j,
          In j (App.jobs
                  (App.handleAnalyzeJob_settled (Js.js "j1")
                     (GeminiService.analyzeJobFit
                        (Net.FetchResolves Sample.null_analysis))
                     (Js.js "2024-06-01T00:00:00.000Z")
                     (App.app Sample.w3))) ->
          Types.id j = Js.js "j1" ->
          Types.isLoading j = false /\ Types.analysis j <> Types.JNull
          /\ Types.analyzedAt j <> None).
Proof.
  split; [reflexivity|].
  intros H.
  destruct (H (App.spread Sample.loading_job
                 {| Types.p_id := None; Types.p_url := None;
                    Types.p_title := None; Types.p_company := None;
                    Types.p_description := None; Types.p_isFetching := None;
                    Types.p_isLoading := Some false; Types.p_error := None;
                    Types.p_analysis := Some Types.JNull;
                    Types.p_analyzedAt :=
                      Some (Js.js "2024-06-01T00:00:00.000Z") |}))
    as (_ & Hnull & _).
  - left. reflexivity.
  - reflexivity.
  - now apply Hnull.
Qed.

(** * More of the code *)

(** ** The order of strings *)

Section StringOrder.
Import Js.

Lemma strlt_irrefl (a : jsstring) : strlt a a = false.
Proof.
  induction a as [|x a IH]; simpl; [reflexivity|].
  now rewrite N.ltb_irrefl, N.eqb_refl.
Qed.

Lemma strlt_trans (a b c : jsstring) :
  strlt a b = true -> strlt b c = true -> strlt a c = true.
Proof.
  revert b c; induction a as [|x a IH]; intros [|y b] [|z c]; simpl;
    try discriminate; try reflexivity.
  destruct (N.ltb_spec x y) as [Hxy|Hxy].
  - intros _. destruct (N.ltb_spec y z) as [Hyz|Hyz].
    + intros _. destruct (N.ltb_spec x z); [reflexivity | lia].
    + destruct (N.eqb_spec y z) as [->|]; [|discriminate].
      intros _. destruct (N.ltb_spec x z); [reflexivity | lia].
  - destruct (N.eqb_spec x y) as [->|]; [|discriminate].
    intros Hab. destruct (N.ltb_spec y z) as [Hyz|Hyz]; [reflexivity|].
    destruct (N.eqb_spec y z) as [->|]; [|discriminate].
    now apply IH.
Qed.

Lemma strlt_total (a b : jsstring) :
  strlt a b = false -> strlt b a = false -> a = b.
Proof.
  revert b; induction a as [|x a IH]; intros [|y b]; simpl;
    try discriminate; [reflexivity|].
  destruct (N.ltb_spec x y) as [Hxy|Hxy]; [discriminate|].
  destruct (N.eqb_spec x y) as [->|Hne].
  - rewrite N.ltb_irrefl, N.eqb_refl. intros H1 H2. f_equal. now apply IH.
  - intros _. destruct (N.ltb_spec y x); [discriminate | lia].
Qed.

Lemma strlt_asym (a b : jsstring) : strlt a b = true -> strlt b a = false.
Proof.
  intros H. destruct (strlt b a) eqn:E; [|reflexivity].
  pose proof (strlt_trans a b a H E) as F. now rewrite strlt_irrefl in F.
Qed.

(** Not below is transitive: the order is total. *)
Lemma strlt_not_trans (a b c : jsstring) :
  strlt a b = false -> strlt b c = false -> strlt a c = false.
Proof.
  intros Hab Hbc. destruct (strlt a c) eqn:Hac; [|reflexivity].
  destruct (strlt b a) eqn:Hba.
  - now rewrite (strlt_trans b a c Hba Hac) in Hbc.
  - rewrite (strlt_total a b Hab Hba) in Hac. congruence.
Qed.

End StringOrder.

(** ** Sorting with a comparator that is an order *)

Section SortOrder.
Import Js Spec.
Context {A : Type}.
Variable comparefn : A -> A -> number.
Variable P : A -> Prop.

Let after := goes_after comparefn.

Hypothesis after_asym :
  forall a b, P a -> P b -> after a b = true -> after b a = false.
Hypothesis not_after_trans :
  forall a b c, P a -> P b -> P c ->
    after a b = false -> after b c = false -> after a c = false.

Lemma Array_sort_in_order (l : list A) :
  Forall P l ->
  StronglySorted (fun a b => after a b = false) (Array_sort comparefn l).
Proof.
  apply (Array_sort_sorted comparefn P).
  - exact not_after_trans.
  - exact after_asym.
  - intros a b _ _ H. exact H.
Qed.

(** A list that is in order is left as it is. *)
Lemma Array_sort_of_sorted (l : list A) :
  StronglySorted (fun a b => after a b = false) l ->
  Array_sort comparefn l = l.
Proof.
  induction 1 as [|x l Hs IH Hx]; simpl; [reflexivity|].
  rewrite IH. destruct l as [|y l]; simpl; [reflexivity|].
  apply Forall_cons_iff in Hx as [Hxy _]. fold (after x y). now rewrite Hxy.
Qed.

Lemma Array_sort_idempotent (l : list A) :
  Forall P l ->
  Array_sort comparefn (Array_sort comparefn l) = Array_sort comparefn l.
Proof. intros H. now apply Array_sort_of_sorted, Array_sort_in_order. Qed.

Lemma filter_sort_insert (f : A -> bool) (x : A) (l : list A) :
  P x -> Forall P l -> StronglySorted (fun a b => after a b = false) l ->
  filter f (sort_insert comparefn x l)
  = if f x then sort_insert comparefn x (filter f l) else filter f l.
Proof.
  intros Px Pl Hs. induction Hs as [|y l Hs IH Hy]; simpl.
  - now destruct (f x).
  - apply Forall_cons_iff in Pl as [Py Pl]. specialize (IH Pl).
    fold (after x y). destruct (after x y) eqn:E; simpl.
    + rewrite IH. destruct (f y), (f x); simpl; try reflexivity.
      fold (after x y). now rewrite E.
    + destruct (f x) eqn:Fx; [|reflexivity].
      change (if f y then y :: filter f l else filter f l)
        with (filter f (y :: l)).
      destruct (filter f (y :: l)) as [|z t] eqn:Ef; [reflexivity|].
      simpl. fold (after x z).
      assert (Hz : In z (y :: l)).
      { assert (Hin : In z (filter f (y :: l))) by (rewrite Ef; now left).
        now apply filter_In in Hin. }
      assert (Hxz : after x z = false).
      { destruct Hz as [<-|Hz]; [exact E|].
        rewrite Forall_forall in Hy, Pl.
        apply (not_after_trans x y z); auto. }
      now rewrite Hxz.
Qed.

(** Sorting and filtering commute. *)
Lemma filter_Array_sort (f : A -> bool) (l : list A) :
  Forall P l ->
  filter f (Array_sort comparefn l) = Array_sort comparefn (filter f l).
Proof.
  induction l as [|x l IH]; simpl; [reflexivity|].
  intros H. apply Forall_cons_iff in H as [Px Pl].
  rewrite filter_sort_insert; auto.
  - rewrite IH by exact Pl. now destruct (f x).
  - rewrite <- Array_sort_perm. exact Pl.
  - now apply Array_sort_in_order.
Qed.

(** The sort is stable: elements that tie with each other keep their
    order. *)
Lemma Array_sort_stable (f : A -> bool) (l : list A) :
  Forall P l ->
  (forall a b, In a l -> In b l -> f a = true -> f b = true ->
     after a b = false) ->
  filter f (Array_sort comparefn l) = filter f l.
Proof.
  intros HP Hties. rewrite filter_Array_sort by exact HP.
  apply Array_sort_of_sorted.
  assert (H : forall a b, In a (filter f l) -> In b (filter f l) ->
                after a b = false).
  { intros a b Ha Hb. apply filter_In in Ha as [Ha Fa].
    apply filter_In in Hb as [Hb Fb]. now apply Hties. }
  induction (filter f l) as [|x t IH]; constructor.
  - apply IH. intros a b Ha Hb. apply H; now right.
  - apply Forall_forall. intros z Hz. apply H; [now left | now right].
Qed.

End SortOrder.

(** ** The dashboard in every order (JobListingsPage.tsx) *)

Section SortedJobsOrder.
Import Js Types Spec JobListingsPage.
Variable Date_getTime : jsstring -> number.
Variable toLowerCase : jsstring -> jsstring.

Let lt := below Date_getTime toLowerCase.
Let cmp := compareJobs Date_getTime toLowerCase.
Let dated (sortKey : SortKey) (j : Job) : Prop :=
  match sortKey with
  | byAnalyzedAt => analyzedAt_value Date_getTime j <> None
  | _ => True
  end.

Lemma compareJobs_after (sortKey : SortKey) (dir : SortDirection)
  (a b : Job) :
  goes_after (cmp sortKey dir) a b
  = match dir with
    | desc => lt sortKey a b
    | asc => negb (lt sortKey a b) && lt sortKey b a
    end.
Proof.
  unfold goes_after, cmp, compareJobs, lt, below.
  destruct sortKey, dir;
    match goal with
    | |- context [if ?x then _ else if ?y then _ else _] =>
        destruct x, y; reflexivity
    end.
Qed.

Lemma below_asym (sortKey : SortKey) (a b : Job) :
  lt sortKey a b = true -> lt sortKey b a = false.
Proof.
  unfold lt, below. destruct sortKey; try apply strlt_asym.
  destruct (analyzedAt_value Date_getTime a),
    (analyzedAt_value Date_getTime b); simpl; try discriminate.
  intros H. apply Z.ltb_lt in H. apply Z.ltb_ge. lia.
Qed.

Lemma below_not_trans (sortKey : SortKey) (a b c : Job) :
  dated sortKey a -> dated sortKey b -> dated sortKey c ->
  lt sortKey a b = false -> lt sortKey b c = false ->
  lt sortKey a c = false.
Proof.
  unfold lt, below, dated.
  destruct sortKey; try (intros _ _ _; apply strlt_not_trans).
  destruct (analyzedAt_value Date_getTime a),
    (analyzedAt_value Date_getTime b),
    (analyzedAt_value Date_getTime c); simpl; try congruence.
  intros _ _ _ H1 H2. apply Z.ltb_ge in H1, H2. apply Z.ltb_ge. lia.
Qed.

Lemma after_ascending (sortKey : SortKey) (a b : Job) :
  goes_after (cmp sortKey asc) a b = lt sortKey b a.
Proof.
  rewrite compareJobs_after. destruct (lt sortKey b a) eqn:E.
  - now rewrite (below_asym _ _ _ E).
  - apply andb_false_r.
Qed.

Lemma compareJobs_asym (sortKey : SortKey) (dir : SortDirection)
  (a b : Job) :
  goes_after (cmp sortKey dir) a b = true ->
  goes_after (cmp sortKey dir) b a = false.
Proof.
  destruct dir.
  - rewrite !after_ascending. apply below_asym.
  - rewrite !compareJobs_after. apply below_asym.
Qed.

Lemma compareJobs_not_trans (sortKey : SortKey) (dir : SortDirection)
  (a b c : Job) :
  dated sortKey a -> dated sortKey b -> dated sortKey c ->
  goes_after (cmp sortKey dir) a b = false ->
  goes_after (cmp sortKey dir) b c = false ->
  goes_after (cmp sortKey dir) a c = false.
Proof.
  intros Da Db Dc. destruct dir.
  - rewrite !after_ascending. intros H1 H2.
    now apply (below_not_trans sortKey c b a).
  - rewrite !compareJobs_after. now apply below_not_trans.
Qed.

Lemma comparable_dated (sortKey : SortKey) (jobs : list Job) :
  comparable Date_getTime sortKey jobs -> Forall (dated sortKey) jobs.
Proof.
  intros H. apply Forall_forall. intros j Hj.
  destruct sortKey; simpl; auto.
Qed.

Lemma sortedJobs_sorted (jobs : list Job) (sortKey : SortKey)
  (dir : SortDirection) (a b : Job) :
  comparable Date_getTime sortKey jobs ->
  before (sortedJobs Date_getTime toLowerCase jobs sortKey dir) a b ->
  match dir with
  | asc => lt sortKey b a = false
  | desc => lt sortKey a b = false
  end.
Proof.
  intros Hc Hab. apply comparable_dated in Hc.
  pose proof (Array_sort_in_order (cmp sortKey dir) (dated sortKey)
                (fun a b _ _ => compareJobs_asym sortKey dir a b)
                (compareJobs_not_trans sortKey dir) jobs Hc) as Hs.
  pose proof (StronglySorted_before _ _ a b Hs Hab) as H. simpl in H.
  destruct dir.
  - now rewrite after_ascending in H.
  - now rewrite compareJobs_after in H.
Qed.

Lemma before_in {A : Type} (l : list A) (a b : A) :
  before l a b -> In a l /\ In b l.
Proof.
  intros (l1 & l2 & l3 & ->). split; apply in_or_app; right;
    [now left | right; apply in_or_app; right; now left].
Qed.

Lemma before_or {A : Type} (l : list A) (a b : A) :
  In a l -> In b l -> a <> b -> before l a b \/ before l b a.
Proof.
  induction l as [|x l IH]; [intros []|].
  intros [->|Ha] [->|Hb] Hne; try congruence.
  - left. apply in_split in Hb as (l2 & l3 & ->). now exists [], l2, l3.
  - right. apply in_split in Ha as (l2 & l3 & ->). now exists [], l2, l3.
  - destruct (IH Ha Hb Hne) as [(l1 & l2 & l3 & ->)|(l1 & l2 & l3 & ->)];
      [left | right]; now exists (x :: l1), l2, l3.
Qed.

(** Whatever the key and the direction, the sorted dashboard lists the
    same jobs as the collection, each as often, and with a key that can be
    compared it lists them in order: of two jobs, the first has not the
    greater sort value when ascending, not the smaller when descending. *)
Theorem sortedJobs_in_order (jobs : list Job) (sortKey : SortKey)
  (dir : SortDirection) :
  Permutation jobs (sortedJobs Date_getTime toLowerCase jobs sortKey dir)
  /\ (comparable Date_getTime sortKey jobs ->
      forall a b,
        before (sortedJobs Date_getTime toLowerCase jobs sortKey dir) a b ->
        match dir with
        | asc => below Date_getTime toLowerCase sortKey b a = false
        | desc => below Date_getTime toLowerCase sortKey a b = false
        end).
Proof.
  split; [apply Array_sort_perm|].
  intros Hc a b Hab. now apply (sortedJobs_sorted jobs sortKey dir a b).
Qed.

(** The sort of the dashboard is stable: the jobs that tie with a given
    job stand in the sorted list in the order they have in the
    collection. *)
Theorem sortedJobs_stable (jobs : list Job) (sortKey : SortKey)
  (dir : SortDirection) (x : Job) :
  comparable Date_getTime sortKey (x :: jobs) ->
  filter (tie (compareJobs Date_getTime toLowerCase sortKey dir) x)
    (sortedJobs Date_getTime toLowerCase jobs sortKey dir)
  = filter (tie (compareJobs Date_getTime toLowerCase sortKey dir) x) jobs.
Proof.
  intros Hc. apply comparable_dated in Hc.
  apply Forall_cons_iff in Hc as [Dx HD].
  apply (Array_sort_stable (cmp sortKey dir) (dated sortKey)
           (fun a b _ _ => compareJobs_asym sortKey dir a b)
           (compareJobs_not_trans sortKey dir)); [exact HD|].
  rewrite Forall_forall in HD.
  intros a b Ha Hb Ta Tb. unfold tie in Ta, Tb.
  apply andb_prop in Ta as [_ Ta]. apply andb_prop in Tb as [Tb _].
  apply negb_true_iff in Ta, Tb.
  apply (compareJobs_not_trans sortKey dir a x b); auto.
Qed.

(** Of two jobs of the collection with different sort values, the one
    with the smaller value stands first when ascending and last when
    descending: clicking the active key turns their order round. *)
Theorem sortedJobs_direction (jobs : list Job) (sortKey : SortKey)
  (a b : Job) :
  comparable Date_getTime sortKey jobs ->
  In a jobs -> In b jobs ->
  below Date_getTime toLowerCase sortKey a b = true ->
  before (sortedJobs Date_getTime toLowerCase jobs sortKey asc) a b
  /\ before (sortedJobs Date_getTime toLowerCase jobs sortKey desc) b a.
Proof.
  intros Hc Ha Hb Hlt.
  assert (Hne : a <> b).
  { intros E. subst b. pose proof (below_asym sortKey a a Hlt) as F.
    unfold lt in F. rewrite F in Hlt. discriminate Hlt. }
  assert (Hin : forall dir,
            In a (sortedJobs Date_getTime toLowerCase jobs sortKey dir)
            /\ In b (sortedJobs Date_getTime toLowerCase jobs sortKey dir)).
  { intros dir. split;
      apply (Permutation_in _ (Array_sort_perm _ jobs)); assumption. }
  split.
  - destruct (before_or _ a b (proj1 (Hin asc)) (proj2 (Hin asc)) Hne)
      as [H|H]; [exact H|].
    pose proof (sortedJobs_sorted jobs sortKey asc b a Hc H) as F.
    unfold lt in F. rewrite F in Hlt. discriminate Hlt.
  - assert (Hne' : b <> a) by congruence.
    destruct (before_or _ b a (proj2 (Hin desc)) (proj1 (Hin desc)) Hne')
      as [H|H]; [exact H|].
    pose proof (sortedJobs_sorted jobs sortKey desc a b Hc H) as F.
    unfold lt in F. rewrite F in Hlt. discriminate Hlt.
Qed.

(** Sorted by analyzedAt ascending, the jobs never analyzed stand first,
    not last: of two jobs of the sorted list, if the second has no
    analyzedAt the first has none either (every analyzedAt present being a
    date after the Unix epoch). *)
Theorem sortedJobs_ascending_unanalyzed_first (jobs : list Job) :
  analyzed_after_epoch Date_getTime jobs ->
  forall a b,
    before (sortedJobs Date_getTime toLowerCase jobs byAnalyzedAt asc) a b ->
    analyzedAt b = None -> analyzedAt a = None.
Proof.
  intros Hvalid a b Hab Hb.
  assert (Hval : forall j, In j jobs ->
            (analyzedAt j = None
             /\ analyzedAt_value Date_getTime j = Some 0)
            \/ (analyzedAt j <> None
                /\ exists t, analyzedAt_value Date_getTime j = Some t
                             /\ 0 < t)).
  { intros j Hj. destruct (analyzedAt j) as [s|] eqn:E.
    - right. split; [discriminate|].
      destruct (Hvalid j s Hj E) as (Hs & t & Ht & Hpos).
      exists t. split; [|exact Hpos].
      now apply (analyzedAt_value_analyzed Date_getTime j s t).
    - left. split; [reflexivity|].
      now apply analyzedAt_value_unanalyzed. }
  assert (Hc : comparable Date_getTime byAnalyzedAt jobs).
  { intros j Hj. destruct (Hval j Hj) as [[_ H]|[_ (t & H & _)]];
      rewrite H; discriminate. }
  pose proof (sortedJobs_sorted jobs byAnalyzedAt asc a b Hc Hab) as Hle.
  apply before_in in Hab as [Ha' Hb'].
  apply (Permutation_in _ (Permutation_sym (Array_sort_perm _ jobs))) in Ha'.
  apply (Permutation_in _ (Permutation_sym (Array_sort_perm _ jobs))) in Hb'.
  destruct (Hval a Ha') as [[Ha _]|[_ (t & Hat & Hpos)]]; [exact Ha|].
  destruct (Hval b Hb') as [[_ Hb0]|[Hb1 _]]; [|congruence].
  exfalso. unfold lt, below in Hle. rewrite Hb0, Hat in Hle. simpl in Hle.
  apply Z.ltb_ge in Hle. lia.
Qed.

End SortedJobsOrder.

(** ** The job collection, further (App.tsx) *)

Section JobCollectionMore.
Import Js Types Net Spec App.

Lemma find_job_some (jobId : jsstring) (l : list Job) (job : Job) :
  find_job jobId l = Some job -> first_with_id jobId l job.
Proof.
  unfold find_job. induction l as [|x l IH]; simpl; [discriminate|].
  destruct (streq (id x) jobId) eqn:E.
  - intros [= <-]. exists [], l. apply streq_eq in E.
    split; [reflexivity|]. split; [exact E | intros j []].
  - intros H. destruct (IH H) as (l1 & l2 & -> & Hid & Hl1).
    exists (x :: l1), l2. split; [reflexivity|]. split; [exact Hid|].
    intros j [<-|Hj]; [now apply streq_neq | now apply Hl1].
Qed.

Lemma not_blank (s : jsstring) :
  truthy (trim s) = true <-> ~ whitespace_only s.
Proof.
  rewrite <- truthy_trim. destruct (truthy (trim s)); split; congruence.
Qed.

(** [handleAnalyzeJob] makes a request exactly when a Job has the id and
    neither the résumé nor the description of the first such Job is blank.
    The request carries the résumé and that description as they are at
    the call; the Jobs of the id are shown loading with their error
    cleared, and nothing else changes. *)
Theorem handleAnalyzeJob_request (jobId : jsstring) (st : State) (c : Call) :
  (snd (handleAnalyzeJob jobId st) = Some c <->
   exists job,
     first_with_id jobId (jobs st) job
     /\ ~ whitespace_only (resume st)
     /\ ~ whitespace_only (description job)
     /\ c = Analysis jobId (resume st) (description job))
  /\ (snd (handleAnalyzeJob jobId st) = Some c ->
      resume (fst (handleAnalyzeJob jobId st)) = resume st
      /\ forall n j, nth_error (jobs st) n = Some j ->
           exists j',
             nth_error (jobs (fst (handleAnalyzeJob jobId st))) n = Some j'
             /\ (id j <> jobId -> j' = j)
             /\ (id j = jobId ->
                 isLoading j' = true /\ error j' = None
                 /\ same_but_loading j j')).
Proof.
  unfold handleAnalyzeJob.
  destruct (find_job jobId (jobs st)) as [job|] eqn:Ef.
  - apply find_job_some in Ef.
    destruct (truthy (trim (resume st))) eqn:Er;
      destruct (truthy (trim (description job))) eqn:Ed; simpl.
    + split.
      * split.
        -- intros [= <-]. exists job. apply not_blank in Er, Ed. auto.
        -- intros (job' & Hj' & _ & _ & ->).
           pose proof (find_job_first _ _ _ Hj') as E.
           rewrite (find_job_first _ _ _ Ef) in E. now injection E as <-.
      * intros _. split; [reflexivity|]. intros n j Hn.
        rewrite nth_error_map, Hn. simpl.
        destruct (streq (id j) jobId) eqn:E.
        -- eexists. split; [reflexivity|]. split.
           ++ apply streq_eq in E. congruence.
           ++ intros _. repeat split.
        -- exists j. split; [reflexivity|]. split; [reflexivity|].
           apply streq_neq in E. congruence.
    + split; [|discriminate]. split; [discriminate|].
      intros (job' & Hj' & _ & Hd & _).
      pose proof (find_job_first _ _ _ Hj') as E.
      rewrite (find_job_first _ _ _ Ef) in E. injection E as <-.
      exfalso. apply Hd. now apply truthy_trim.
    + split; [|discriminate]. split; [discriminate|].
      intros (_ & _ & Hr & _). exfalso. apply Hr. now apply truthy_trim.
    + split; [|discriminate]. split; [discriminate|].
      intros (_ & _ & Hr & _). exfalso. apply Hr. now apply truthy_trim.
  - simpl. split; [|discriminate]. split; [discriminate|].
    intros (job & Hj & _). apply find_job_first in Hj. congruence.
Qed.

Lemma removed_absent (jobId : jsstring) (l : list Job) :
  no_job_with_id jobId (filter (fun j => negb (streq (id j) jobId)) l).
Proof.
  intros j Hj. apply filter_In in Hj as [_ Hj].
  apply negb_true_iff in Hj. now apply streq_neq.
Qed.

Lemma before_filter {A : Type} (f : A -> bool) (l : list A) (a b : A) :
  before (filter f l) a b -> before l a b.
Proof.
  induction l as [|x l IH]; simpl.
  - intros ([|? ?] & l2 & l3 & E); discriminate.
  - destruct (f x).
    + intros ([|y l1] & l2 & l3 & E); simpl in E.
      * injection E as -> E.
        assert (Hb : In b (filter f l))
          by (rewrite E; apply in_or_app; right; now left).
        apply filter_In in Hb as [Hb _].
        apply in_split in Hb as (m1 & m2 & ->). now exists [], m1, m2.
      * injection E as -> E.
        destruct (IH (ex_intro _ l1 (ex_intro _ l2 (ex_intro _ l3 E))))
          as (m1 & m2 & m3 & ->).
        now exists (y :: m1), m2, m3.
    + intros H. destruct (IH H) as (m1 & m2 & m3 & ->).
      now exists (x :: m1), m2, m3.
Qed.

(** [handleRemoveJob] takes away every Job of the id and no other; the
    Jobs that stay keep their order, and the résumé is not touched.  A
    request of the removed Job that settles afterwards, with whatever
    outcome, changes nothing. *)
Theorem handleRemoveJob_removes (jobId : jsstring) (st : State) :
  (forall j, In j (jobs (handleRemoveJob jobId st)) <->
             In j (jobs st) /\ id j <> jobId)
  /\ (forall a b, before (jobs (handleRemoveJob jobId st)) a b ->
                  before (jobs st) a b)
  /\ resume (handleRemoveJob jobId st) = resume st
  /\ (forall o,
        handleFetchDescription_settled jobId o (handleRemoveJob jobId st)
        = handleRemoveJob jobId st)
  /\ (forall o,
        handleAddJobFromSearch_settled jobId o (handleRemoveJob jobId st)
        = handleRemoveJob jobId st)
  /\ (forall o now,
        handleAnalyzeJob_settled jobId o now (handleRemoveJob jobId st)
        = handleRemoveJob jobId st).
Proof.
  assert (Hdrop : forall u,
            handleUpdateJob jobId u (handleRemoveJob jobId st)
            = handleRemoveJob jobId st).
  { intros u. unfold handleUpdateJob, setJobs. simpl.
    now rewrite update_absent by apply removed_absent. }
  split; [|split; [|split; [reflexivity|split; [|split]]]].
  - intros j. simpl. rewrite filter_In, negb_true_iff, streq_neq. tauto.
  - intros a b. apply before_filter.
  - intros [d|m]; apply Hdrop.
  - intros [d|m]; apply Hdrop.
  - intros [r|m] now; apply Hdrop.
Qed.

(** A description fetch that succeeds: the Jobs of the id end with the
    text returned as description, isFetching false and no error, every
    other field as before the call; the other Jobs and the résumé are as
    before. *)
Theorem handleFetchDescription_success (jobId d : jsstring) (st : State)
  (job : Job) :
  first_with_id jobId (jobs st) job ->
  url job <> [] ->
  snd (handleFetchDescription jobId st)
  = Some (DescriptionFetch jobId (url job))
  /\ (forall n j, nth_error (jobs st) n = Some j ->
        exists j',
          nth_error
            (jobs (handleFetchDescription_settled jobId (Resolved d)
                     (fst (handleFetchDescription jobId st)))) n = Some j'
          /\ (id j <> jobId -> j' = j)
          /\ (id j = jobId ->
              description j' = d /\ isFetching j' = false
              /\ error j' = None /\ same_but_description j j'))
  /\ resume (handleFetchDescription_settled jobId (Resolved d)
               (fst (handleFetchDescription jobId st)))
     = resume st.
Proof.
  intros Hjob Hurl. unfold handleFetchDescription.
  rewrite (find_job_first _ _ _ Hjob).
  destruct (url job) as [|c u] eqn:Eurl; [congruence|]. simpl negb. cbv iota.
  split; [reflexivity|]. split; [|reflexivity].
  intros n j Hn. simpl. rewrite !nth_error_map, Hn. simpl.
  destruct (streq (id j) jobId) eqn:E.
  - simpl. rewrite E. eexists. split; [reflexivity|]. split.
    + apply streq_eq in E. congruence.
    + intros _. repeat split.
  - rewrite E. exists j. split; [reflexivity|]. split; [reflexivity|].
    apply streq_neq in E. congruence.
Qed.

(** A listing added from the search page: the dashboard is shown, the new
    Job stands at the head with the fields of the listing, isFetching true
    and a request for its description in flight.  Under an id no Job had,
    a failure of that request leaves it with the advice to paste the
    description, the message as error and isFetching false; a success
    leaves it with the text returned; the Jobs that were there are as
    before. *)
Theorem handleAddJobFromSearch_cycle (listing : JobListing)
  (uuid : jsstring) (st : State) (o : Outcome jsstring) :
  no_job_with_id uuid (jobs st) ->
  snd (handleAddJobFromSearch listing uuid st)
  = SearchFetch uuid (l_url listing)
  /\ view (fst (handleAddJobFromSearch listing uuid st)) = listings
  /\ jobs (fst (handleAddJobFromSearch listing uuid st))
     = {| id := uuid; url := l_url listing; title := l_title listing;
          company := l_company listing;
          description := js "Fetching description...";
          isFetching := true; isLoading := false; error := None;
          analysis := JNull; analyzedAt := None |} :: jobs st
  /\ jobs (handleAddJobFromSearch_settled uuid o
             (fst (handleAddJobFromSearch listing uuid st)))
     = {| id := uuid; url := l_url listing; title := l_title listing;
          company := l_company listing;
          description :=
            match o with
            | Resolved d => d
            | Rejected _ =>
                js "Failed to fetch job description. Please paste it manually."
            end;
          isFetching := false; isLoading := false;
          error :=
            match o with Resolved _ => None | Rejected m => Some m end;
          analysis := JNull; analyzedAt := None |} :: jobs st.
Proof.
  intros Hfresh. split; [reflexivity|]. split; [reflexivity|].
  split; [reflexivity|].
  destruct o; simpl; rewrite streq_refl; simpl;
    now rewrite update_absent by exact Hfresh.
Qed.

End JobCollectionMore.

(** ** isFetching, and the ids, along every run (App.tsx) *)

Section Runs.
Import Js Types Net Spec App.

Lemma update_keeps_fetching (jobId : jsstring) (u : PartialJob) (st : State)
  (p p' : list Call) :
  p_id u = None -> p_isFetching u = None ->
  (forall c, In c p -> (forall i r d, c <> Analysis i r d) -> In c p') ->
  fetching_only_while_fetching (jobs st) p ->
  fetching_only_while_fetching (jobs (handleUpdateJob jobId u st)) p'.
Proof.
  intros Hid Hf Hsub Hinv j' Hj' Hl.
  apply in_updated in Hj' as (j & Hj & ->).
  assert (E : id (if streq (id j) jobId then spread j u else j) = id j
              /\ isFetching (if streq (id j) jobId then spread j u else j)
                 = isFetching j).
  { destruct (streq (id j) jobId); [|split; reflexivity].
    simpl. now rewrite Hid, Hf. }
  destruct E as [E1 E2]. rewrite E1. rewrite E2 in Hl.
  destruct (Hinv j Hj Hl) as (v & [Hin|Hin]); exists v; [left | right];
    (apply Hsub; [exact Hin | discriminate]).
Qed.

Lemma fetch_settles (jobId : jsstring) (u : PartialJob) (st : State)
  (c0 : Call) (p1 p2 : list Call) :
  p_id u = None -> p_isFetching u = Some false ->
  (forall j v, id j <> jobId ->
     DescriptionFetch (id j) v <> c0 /\ SearchFetch (id j) v <> c0) ->
  fetching_only_while_fetching (jobs st) (p1 ++ c0 :: p2) ->
  fetching_only_while_fetching (jobs (handleUpdateJob jobId u st)) (p1 ++ p2).
Proof.
  intros Hid Hf Hother Hinv j' Hj' Hl.
  apply in_updated in Hj' as (j & Hj & ->).
  destruct (streq (id j) jobId) eqn:E.
  - simpl in Hl. rewrite Hf in Hl. discriminate Hl.
  - apply streq_neq in E.
    destruct (Hinv j Hj Hl) as (v & [Hin|Hin]); exists v;
      destruct (Hother j v E) as [H1 H2]; [left | right];
      now apply (analysis_stays _ _ _ _ Hin).
Qed.

(** At every moment of every run of the application, a Job whose
    isFetching is true has a request for its description in flight, made
    by Fetch or by the search page and not yet settled. *)
Theorem isFetching_window (templateResumeContent : jsstring) (w : World) :
  reachable templateResumeContent w ->
  forall j, In j (jobs (app w)) -> isFetching j = true ->
    exists u, In (DescriptionFetch (id j) u) (pending w)
              \/ In (SearchFetch (id j) u) (pending w).
Proof.
  intros Hreach.
  change (fetching_only_while_fetching (jobs (app w)) (pending w)).
  induction Hreach as [|w w' Hreach IH Hstep].
  - intros j [].
  - destruct Hstep; simpl.
    + intros j [<-|Hj] Hl; [discriminate | now apply IH].
    + apply (update_keeps_fetching _ _ _ (pending w)); auto.
    + apply (update_keeps_fetching _ _ _ (pending w)); auto.
    + intros j Hj Hl. apply filter_In in Hj as [Hj _]. now apply IH.
    + (* handleFetchDescription *)
      unfold handleFetchDescription.
      destruct (find_job jobId (jobs (app w))) as [job|]; [|exact IH].
      destruct (negb (truthy (url job))); [exact IH|].
      intros j' Hj' Hl. apply in_updated in Hj' as (j & Hj & ->).
      destruct (streq (id j) jobId) eqn:E.
      * apply streq_eq in E. simpl. rewrite E.
        exists (url job). left. now left.
      * destruct (IH j Hj Hl) as (v & [Hin|Hin]); exists v;
          [left | right]; now right.
    + (* the request of Fetch settles *)
      rewrite H in IH.
      destruct o; unfold handleFetchDescription_settled;
        (eapply fetch_settles; [reflexivity | reflexivity | | exact IH]);
        intros j v Hne; split; congruence.
    + (* handleAnalyzeJob *)
      unfold handleAnalyzeJob.
      destruct (find_job jobId (jobs (app w))) as [job|]; [|exact IH].
      destruct (negb (truthy (trim (resume (app w))))
                || negb (truthy (trim (description job)))); [exact IH|].
      apply (update_keeps_fetching _ _ _ (pending w)); auto.
      intros c Hc _. now right.
    + destruct o; apply (update_keeps_fetching _ _ _ (pending w)); auto;
        intros c Hc Hna; rewrite H in Hc;
        apply (analysis_stays _ _ _ _ Hc); apply Hna.
    + (* handleAddJobFromSearch *)
      intros j [<-|Hj] Hl.
      * exists (l_url listing). right. now left.
      * destruct (IH j Hj Hl) as (v & [Hin|Hin]); exists v;
          [left | right]; now right.
    + (* the request of the search page settles *)
      rewrite H in IH.
      destruct o; unfold handleAddJobFromSearch_settled;
        (eapply fetch_settles; [reflexivity | reflexivity | | exact IH]);
        intros j v Hne; split; congruence.
    + intros j [<-|Hj] Hl; [discriminate | now apply IH].
    + exact IH.
    + exact IH.
    + exact IH.
    + exact IH.
    + exact IH.
    + exact IH.
Qed.

Lemma updated_ids (jobId : jsstring) (u : PartialJob) (st : State) :
  p_id u = None ->
  map id (jobs (handleUpdateJob jobId u st)) = map id (jobs st).
Proof.
  intros Hid. simpl. rewrite map_map. apply map_ext. intros j.
  destruct (streq (id j) jobId); [|reflexivity]. simpl. now rewrite Hid.
Qed.

Lemma NoDup_filter {A : Type} (f : A -> bool) (l : list A) :
  NoDup l -> NoDup (filter f l).
Proof.
  induction 1 as [|x l Hx Hl IH]; simpl; [constructor|].
  destruct (f x); [|exact IH]. constructor; [|exact IH].
  intros Hin. apply filter_In in Hin as [Hin _]. contradiction.
Qed.

Lemma map_id_removed (jobId : jsstring) (l : list Job) :
  map id (filter (fun j => negb (streq (id j) jobId)) l)
  = filter (fun i => negb (streq i jobId)) (map id l).
Proof.
  induction l as [|x l IH]; simpl; [reflexivity|].
  destruct (streq (id x) jobId); simpl; now rewrite IH.
Qed.

(** No event rewrites the id of a Job: one step leaves the list of ids
    as it is, or takes away the ids equal to one id, or puts one id at
    the head.  So the ids stay distinct as long as the ids put in are
    new. *)
Theorem ids_along_a_step (w w' : World) :
  step w w' ->
  (map id (jobs (app w')) = map id (jobs (app w))
   \/ (exists jobId,
         map id (jobs (app w'))
         = filter (fun i => negb (streq i jobId)) (map id (jobs (app w))))
   \/ exists uuid, map id (jobs (app w')) = uuid :: map id (jobs (app w)))
  /\ (NoDup (map id (jobs (app w))) ->
      (forall uuid, map id (jobs (app w')) = uuid :: map id (jobs (app w)) ->
         ~ In uuid (map id (jobs (app w)))) ->
      NoDup (map id (jobs (app w')))).
Proof.
  intros Hstep.
  assert (H : map id (jobs (app w')) = map id (jobs (app w))
              \/ (exists jobId,
                    map id (jobs (app w'))
                    = filter (fun i => negb (streq i jobId))
                        (map id (jobs (app w))))
              \/ exists uuid,
                   map id (jobs (app w')) = uuid :: map id (jobs (app w))).
  { destruct Hstep; simpl app;
      try (left; reflexivity);
      try (left; apply updated_ids; reflexivity);
      try (left; destruct o; apply updated_ids; reflexivity);
      try (right; right; eexists; reflexivity).
    - right. left. exists jobId. apply map_id_removed.
    - left. unfold handleFetchDescription.
      destruct (find_job jobId (jobs (app w))) as [job|]; [|reflexivity].
      destruct (negb (truthy (url job))); [reflexivity|].
      now apply updated_ids.
    - left. unfold handleAnalyzeJob.
      destruct (find_job jobId (jobs (app w))) as [job|]; [|reflexivity].
      destruct (negb (truthy (trim (resume (app w))))
                || negb (truthy (trim (description job)))); [reflexivity|].
      now apply updated_ids. }
  split; [exact H|].
  intros Hnd Hfresh. destruct H as [->|[(jobId & ->)|(uuid & E)]].
  - exact Hnd.
  - now apply NoDup_filter.
  - rewrite E. constructor; [now apply Hfresh | exact Hnd].
Qed.

End Runs.

(** ** trim *)

Section TrimFacts.
Import Js Spec.

Lemma trimStart_head (s : jsstring) (c : code_unit) (t : jsstring) :
  trimStart s = c :: t -> is_white_space c = false.
Proof.
  induction s as [|x s IH]; simpl; [discriminate|].
  destruct (is_white_space x) eqn:E; [exact IH|]. now intros [= <- _].
Qed.

Lemma trimStart_fixed (s : jsstring) :
  (forall c t, s = c :: t -> is_white_space c = false) -> trimStart s = s.
Proof.
  destruct s as [|c t]; [reflexivity|]. intros H. simpl.
  now rewrite (H c t eq_refl).
Qed.

Lemma trimStart_suffix (s : jsstring) : exists p, s = p ++ trimStart s.
Proof.
  induction s as [|x s [p IH]]; [now exists []|]. simpl.
  destruct (is_white_space x); [|now exists []].
  exists (x :: p). simpl. now f_equal.
Qed.

Lemma trimEnd_last (s : jsstring) (c : code_unit) (t : jsstring) :
  trimEnd s = t ++ [c] -> is_white_space c = false.
Proof.
  unfold trimEnd. intros H. apply (f_equal (@rev _)) in H.
  rewrite rev_involutive, rev_app_distr in H. simpl in H.
  now apply trimStart_head in H.
Qed.

Lemma trimEnd_head (s : jsstring) (c : code_unit) (t : jsstring) :
  (forall c' t', s = c' :: t' -> is_white_space c' = false) ->
  trimEnd s = c :: t -> is_white_space c = false.
Proof.
  intros Hs. unfold trimEnd.
  destruct (trimStart_suffix (rev s)) as [p Hp].
  intros H. apply (f_equal (@rev _)) in Hp.
  rewrite rev_involutive, rev_app_distr, H in Hp. simpl in Hp.
  now apply (Hs c (t ++ rev p)).
Qed.

Lemma trim_trimmed (s : jsstring) : trimmed (trim s).
Proof.
  unfold trim. split.
  - intros c t. apply trimEnd_head. intros c' t'. apply trimStart_head.
  - intros c t. apply trimEnd_last.
Qed.

Lemma trimmed_fixed (s : jsstring) : trimmed s -> trim s = s.
Proof.
  intros [Hh Hl]. unfold trim, trimEnd.
  rewrite (trimStart_fixed s Hh).
  rewrite trimStart_fixed; [apply rev_involutive|].
  intros c t E. apply (Hl c (rev t)).
  apply (f_equal (@rev _)) in E. rewrite rev_involutive in E.
  now rewrite E.
Qed.

Lemma trim_idempotent (s : jsstring) : trim (trim s) = trim s.
Proof. apply trimmed_fixed, trim_trimmed. Qed.

End TrimFacts.

(** ** The résumé store client, offline and online (apiService.ts) *)

Section ResumeStoreMore.
Import Js Types Net Spec ApiService.
Variable templateResumeContent : jsstring.
Variable Date_getTime : jsstring -> number.

Lemma readLocalResumes_records (uuid now : jsstring) (st : Storage) :
  readLocalResumes templateResumeContent uuid now st
  = (cache_records templateResumeContent uuid now st,
     Some (cache_records templateResumeContent uuid now st)).
Proof. now destruct st. Qed.

(** A résumé saved while the server cannot be reached is put in front of
    the local cache, under the id and time obtained for it, and the next
    list read from the cache shows it, along with every record the cache
    had. *)
Theorem saveResume_then_list (n c jd : jsstring) (net net' : Fetch)
  (m m' uuid now uuid' now' uuid2 now2 : jsstring) (st : Storage) :
  tryFetchJson net = Rejected m ->
  tryFetchJson net' = Rejected m' ->
  let saved :=
    {| _id := uuid'; name := n; content := c; jobDescription := jd;
       savedAt := now' |} in
  let records := cache_records templateResumeContent uuid now st in
  saveResume templateResumeContent n c jd net uuid now uuid' now' st
  = (Resolved (FromCache saved), Some (saved :: records))
  /\ exists l,
       getResumes templateResumeContent Date_getTime net' uuid2 now2
         (Some (saved :: records))
       = (Resolved (FromCache l), Some (saved :: records))
       /\ In saved l
       /\ (forall r, In r records -> In r l)
       /\ List.length l = S (List.length records).
Proof.
  intros Hnet Hnet' saved records. split.
  - unfold saveResume. rewrite Hnet, readLocalResumes_records. reflexivity.
  - unfold getResumes. rewrite Hnet'. simpl.
    eexists. split; [reflexivity|].
    pose proof (sort_insert_perm (bySavedAtDesc Date_getTime) saved
                  (Array_sort (bySavedAtDesc Date_getTime) records)) as Hp.
    pose proof (Array_sort_perm (bySavedAtDesc Date_getTime) records) as Hq.
    split; [|split].
    + apply (Permutation_in _ Hp). now left.
    + intros r Hr. apply (Permutation_in _ Hp). right.
      now apply (Permutation_in _ Hq).
    + rewrite <- (Permutation_length Hp). simpl. f_equal.
      symmetry. apply (Permutation_length Hq).
Qed.

Lemma filter_shorter {A : Type} (f : A -> bool) (l : list A) (x : A) :
  In x l -> f x = false ->
  Nat.eqb (List.length (filter f l)) (List.length l) = false.
Proof.
  intros Hx Hf. apply Nat.eqb_neq.
  assert (H : forall l', (List.length (filter f l') <= List.length l')%nat).
  { induction l' as [|y l' IH]; simpl; [lia|]. destruct (f y); simpl; lia. }
  induction l as [|y l IH]; [destruct Hx|]. simpl.
  destruct Hx as [->|Hx].
  - rewrite Hf. specialize (H l). lia.
  - specialize (IH Hx). destruct (f y); simpl; [lia|].
    specialize (H l). lia.
Qed.

Lemma local_delete (id : jsstring) (net : Fetch) (uuid now : jsstring)
  (st : Storage) :
  request_fails id net ->
  deleteResume templateResumeContent id net uuid now st
  = let records := cache_records templateResumeContent uuid now st in
    let updated := filter (fun r => negb (streq (_id r) id)) records in
    if Nat.eqb (List.length updated) (List.length records)
    then (Rejected (not_found id), Some records)
    else (Resolved true, Some updated).
Proof.
  intros Hfail. unfold deleteResume. rewrite readLocalResumes_records.
  destruct Hfail as [Hw|[m' ->]].
  - now rewrite Hw.
  - now destruct (well_formed id).
Qed.

(** A delete made while the server cannot be reached, of an id the local
    cache has: it succeeds, every record of that id is gone from the
    cache and the others stay in their order; deleting the same id again
    then fails with "Resume with ID <id> not found". *)
Theorem deleteResume_offline (id : jsstring) (net net' : Fetch)
  (uuid now uuid' now' : jsstring) (rs : list SavedResume) :
  request_fails id net -> request_fails id net' ->
  In id (map _id rs) ->
  let rest := filter (fun r => negb (streq (_id r) id)) rs in
  deleteResume templateResumeContent id net uuid now (Some rs)
  = (Resolved true, Some rest)
  /\ (forall r, In r rest <-> In r rs /\ _id r <> id)
  /\ (forall a b, before rest a b -> before rs a b)
  /\ deleteResume templateResumeContent id net' uuid' now' (Some rest)
     = (Rejected (js "Resume with ID " ++ id ++ js " not found"),
        Some rest).
Proof.
  intros Hnet Hnet' Hin rest.
  apply in_map_iff in Hin as (x & Hx & Hxin).
  split; [|split; [|split]].
  - rewrite local_delete by exact Hnet. simpl.
    rewrite (filter_shorter _ rs x Hxin); [reflexivity|].
    apply negb_false_iff, streq_eq, Hx.
  - intros r. unfold rest. rewrite filter_In, negb_true_iff, streq_neq.
    reflexivity.
  - intros a b. apply before_filter.
  - rewrite local_delete by exact Hnet'. simpl.
    rewrite (filter_absent id rest).
    + now rewrite Nat.eqb_refl.
    + intros r Hr. apply filter_In in Hr as [_ Hr].
      now apply streq_neq, negb_true_iff.
Qed.

Lemma patch_first_found (id : jsstring) (patch : Patch)
  (l1 l2 : list SavedResume) (r : SavedResume) :
  _id r = id -> (forall x, In x l1 -> _id x <> id) ->
  patch_first id patch (l1 ++ r :: l2)
  = Some (patched r patch, l1 ++ patched r patch :: l2).
Proof.
  intros Hr Hl1. induction l1 as [|x l1 IH]; simpl.
  - apply streq_eq in Hr. now rewrite Hr.
  - assert (E : streq (_id x) id = false)
      by (apply streq_neq, Hl1; now left).
    rewrite E, IH; [reflexivity|]. intros y Hy. apply Hl1. now right.
Qed.

Lemma patch_first_absent (id : jsstring) (patch : Patch)
  (l : list SavedResume) :
  (forall x, In x l -> _id x <> id) -> patch_first id patch l = None.
Proof.
  induction l as [|x l IH]; simpl; [reflexivity|]. intros H.
  assert (E : streq (_id x) id = false) by (apply streq_neq, H; now left).
  rewrite E, IH; [reflexivity|]. intros y Hy. apply H. now right.
Qed.

(** An update made while the server cannot be reached, the cache holding
    an array.  When the cache has the id, the first record of that id gets the fields the patch
    lists and keeps the others, its id and its savedAt among them; it is
    returned, and it takes the place of the old one in the cache, every
    other record staying as it is.  When the cache has not the id, the
    update fails with "Resume with ID <id> not found" and the cache stays
    as it is. *)
Theorem updateResume_offline (id : jsstring) (patch : Patch) (net : Fetch)
  (uuid now : jsstring) (rs : list SavedResume) :
  (well_formed id = false \/ exists m, tryFetchJson net = Rejected m) ->
  (forall l1 r l2,
     rs = l1 ++ r :: l2 -> _id r = id ->
     (forall x, In x l1 -> _id x <> id) ->
     updateResume templateResumeContent id patch net uuid now (Some rs)
     = (Resolved (FromCache (patched r patch)),
        Some (l1 ++ patched r patch :: l2))
     /\ _id (patched r patch) = id
     /\ savedAt (patched r patch) = savedAt r
     /\ (forall v, patch_name patch = Some v -> name (patched r patch) = v)
     /\ (patch_name patch = None -> name (patched r patch) = name r)
     /\ (forall v, patch_content patch = Some v ->
                   content (patched r patch) = v)
     /\ (patch_content patch = None ->
         content (patched r patch) = content r)
     /\ (forall v, patch_jobDescription patch = Some v ->
                   jobDescription (patched r patch) = v)
     /\ (patch_jobDescription patch = None ->
         jobDescription (patched r patch) = jobDescription r))
  /\ ((forall x, In x rs -> _id x <> id) ->
      updateResume templateResumeContent id patch net uuid now (Some rs)
      = (Rejected (js "Resume with ID " ++ id ++ js " not found"),
         Some rs)).
Proof.
  intros Hfail.
  assert (E : updateResume templateResumeContent id patch net uuid now
                (Some rs)
              = match patch_first id patch rs with
                | None => (Rejected (not_found id), Some rs)
                | Some (updated, existing') =>
                    (Resolved (FromCache updated),
                     writeLocalResumes existing')
                end).
  { unfold updateResume. simpl. destruct Hfail as [Hw|[m Hm]].
    - now rewrite Hw.
    - rewrite Hm. now destruct (well_formed id). }
  rewrite E. clear E. split.
  - intros l1 r l2 -> Hr Hl1.
    rewrite (patch_first_found id patch l1 l2 r Hr Hl1).
    unfold patched; simpl.
    repeat split; try assumption; try (now intros v ->); now intros ->.
  - intros Habsent. now rewrite patch_first_absent.
Qed.

End ResumeStoreMore.

(** ** The page of saved résumés (ResumesPage.tsx) *)

Ltac bools :=
  repeat match goal with
         | H : _ && _ = true |- _ => apply andb_prop in H as [? ?]
         | H : _ || _ = true |- _ => apply orb_prop in H as [?|?]
         | H : _ && _ = false |- _ => apply andb_false_iff in H as [?|?]
         | H : _ || _ = false |- _ => apply orb_false_iff in H as [? ?]
         | H : N.leb _ _ = true |- _ => apply N.leb_le in H
         | H : N.leb _ _ = false |- _ => apply N.leb_gt in H
         | H : N.eqb _ _ = true |- _ => apply N.eqb_eq in H
         | H : N.eqb _ _ = false |- _ => apply N.eqb_neq in H
         end.

Section SavedResumes.
Import Js Types Net Spec ApiService ResumesPage.
Variable templateResumeContent : jsstring.
Variable Date_getTime : jsstring -> number.

Let dated (r : SavedResume) : Prop := Date_getTime (savedAt r) <> None.

Lemma bySavedAtDesc_asym (a b : SavedResume) :
  dated a -> dated b ->
  goes_after (bySavedAtDesc Date_getTime) a b = true ->
  goes_after (bySavedAtDesc Date_getTime) b a = false.
Proof.
  unfold dated. intros Da Db.
  destruct (Date_getTime (savedAt a)) as [ta|] eqn:Ea; [|congruence].
  destruct (Date_getTime (savedAt b)) as [tb|] eqn:Eb; [|congruence].
  rewrite (bySavedAtDesc_after Date_getTime a b ta tb Ea Eb).
  rewrite (bySavedAtDesc_after Date_getTime b a tb ta Eb Ea).
  intros H. apply Z.ltb_lt in H. apply Z.ltb_ge. lia.
Qed.

Lemma bySavedAtDesc_not_trans (a b c : SavedResume) :
  dated a -> dated b -> dated c ->
  goes_after (bySavedAtDesc Date_getTime) a b = false ->
  goes_after (bySavedAtDesc Date_getTime) b c = false ->
  goes_after (bySavedAtDesc Date_getTime) a c = false.
Proof.
  unfold dated. intros Da Db Dc.
  destruct (Date_getTime (savedAt a)) as [ta|] eqn:Ea; [|congruence].
  destruct (Date_getTime (savedAt b)) as [tb|] eqn:Eb; [|congruence].
  destruct (Date_getTime (savedAt c)) as [tc|] eqn:Ec; [|congruence].
  rewrite (bySavedAtDesc_after Date_getTime a b ta tb Ea Eb).
  rewrite (bySavedAtDesc_after Date_getTime b c tb tc Eb Ec).
  rewrite (bySavedAtDesc_after Date_getTime a c ta tc Ea Ec).
  intros H1 H2. apply Z.ltb_ge in H1, H2. apply Z.ltb_ge. lia.
Qed.

(** Deleting on the page while offline keeps the page and the cache in
    step.  The page shows the cache as [getResumes] listed it; the user
    deletes a record the cache has; the request cannot be made, the
    record is deleted from the cache, and the page, which took it off at
    once, shows what [getResumes] would list now.  No error is shown. *)
Theorem handleDelete_in_step (id : jsstring) (net net' : Fetch)
  (m uuid now uuid' now' : jsstring) (rs : list SavedResume)
  (page : State) :
  request_fails id net ->
  tryFetchJson net' = Rejected m ->
  (forall r, In r rs -> Date_getTime (savedAt r) <> None) ->
  In id (map _id rs) ->
  resumes page = Array_sort (bySavedAtDesc Date_getTime) rs ->
  let deleted :=
    deleteResume templateResumeContent id net uuid now (Some rs) in
  let page' :=
    handleDelete_settled (snd (handleDelete id page)) (fst deleted)
      (fst (handleDelete id page)) in
  getResumes templateResumeContent Date_getTime net' uuid' now'
    (snd deleted)
  = (Resolved (FromCache (resumes page')), snd deleted)
  /\ error page' = error page.
Proof.
  intros Hnet Hnet' Hvalid Hin Hpage deleted page'.
  assert (Hd : deleted
               = (Resolved true,
                  Some (filter (fun r => negb (streq (_id r) id)) rs))).
  { unfold deleted. rewrite local_delete by exact Hnet. simpl.
    apply in_map_iff in Hin as (x & Hx & Hxin).
    rewrite (filter_shorter _ rs x Hxin); [reflexivity|].
    apply negb_false_iff, streq_eq, Hx. }
  unfold page'. rewrite Hd. simpl. split; [|reflexivity].
  unfold getResumes. rewrite Hnet'. simpl. rewrite Hpage.
  rewrite (filter_Array_sort (bySavedAtDesc Date_getTime) dated
             bySavedAtDesc_asym bySavedAtDesc_not_trans).
  - reflexivity.
  - apply Forall_forall. exact Hvalid.
Qed.

(** A delete that fails puts the page back: the list is the one shown
    when Delete was clicked, and an error is shown, a text that is never
    empty.  So when the record is no longer in the cache and the server
    cannot be reached, the page shows the record again, with "Resume with
    ID <id> not found". *)
Theorem handleDelete_reverts (id : jsstring) (net : Fetch)
  (uuid now m : jsstring) (rs : list SavedResume) (page : State) :
  (resumes (handleDelete_settled (snd (handleDelete id page)) (Rejected m)
              (fst (handleDelete id page)))
   = resumes page
   /\ exists e,
        error (handleDelete_settled (snd (handleDelete id page))
                 (Rejected m) (fst (handleDelete id page)))
        = Some e
        /\ e <> [])
  /\ (request_fails id net ->
      (forall r, In r rs -> _id r <> id) ->
      let page' :=
        handleDelete_settled (snd (handleDelete id page))
          (fst (deleteResume templateResumeContent id net uuid now
                  (Some rs)))
          (fst (handleDelete id page)) in
      resumes page' = resumes page
      /\ error page'
         = Some (js "Resume with ID " ++ id ++ js " not found")).
Proof.
  split.
  - split; [reflexivity|]. simpl. eexists. split; [reflexivity|].
    destruct m as [|c t]; discriminate.
  - intros Hnet Habsent. rewrite local_delete by exact Hnet. simpl.
    rewrite filter_absent by exact Habsent. rewrite Nat.eqb_refl. simpl.
    split; reflexivity.
Qed.

Lemma lower_safe (c : code_unit) :
  is_safe (lower (if is_alnum c then c else UNDERSCORE)) = true.
Proof.
  destruct (is_alnum c) eqn:A; [|reflexivity].
  unfold lower. destruct (N.leb 65 c && N.leb c 90) eqn:U.
  - unfold is_safe. bools.
    assert (E : (N.leb 97 (c + 32) && N.leb (c + 32) 122) = true).
    { apply andb_true_intro. split; apply N.leb_le; lia. }
    rewrite E. now rewrite orb_true_r.
  - unfold is_safe. unfold is_alnum in A. rewrite U in A.
    rewrite orb_false_r in A.
    apply orb_prop in A as [A|A]; rewrite A; [reflexivity|].
    now rewrite orb_true_r.
Qed.

Lemma safe_fixed (c : code_unit) :
  is_safe c = true -> lower (if is_alnum c then c else UNDERSCORE) = c.
Proof.
  unfold is_safe. intros H.
  assert (U : (N.leb 65 c && N.leb c 90) = false).
  { apply andb_false_iff. bools; subst; try (left; apply N.leb_gt; lia);
      right; apply N.leb_gt; lia. }
  destruct (is_alnum c) eqn:A.
  - unfold lower. now rewrite U.
  - unfold is_alnum in A. bools; subst; try reflexivity; lia.
Qed.

(** The name a download gets is made of lower-case ASCII letters, digits
    and underscores only, has one code unit for each code unit of the
    résumé's name, and leaves a name that is already so as it is. *)
Theorem safeName_safe (n : jsstring) :
  forallb is_safe (safeName n) = true
  /\ List.length (safeName n) = List.length n
  /\ (forallb is_safe n = true -> safeName n = n)
  /\ safeName (safeName n) = safeName n.
Proof.
  assert (H1 : forall s, forallb is_safe (safeName s) = true).
  { unfold safeName. induction s as [|c s IH]; simpl; [reflexivity|].
    now rewrite lower_safe, IH. }
  assert (H3 : forall s, forallb is_safe s = true -> safeName s = s).
  { unfold safeName. induction s as [|c s IH]; simpl; [reflexivity|].
    intros H. apply andb_prop in H as [Hc Hs].
    rewrite (safe_fixed c Hc). f_equal. now apply IH. }
  split; [apply H1|]. split; [|split; [apply H3|]].
  - unfold safeName. now rewrite !length_map.
  - apply H3, H1.
Qed.

End SavedResumes.

(** ** The hiring.cafe listing (hiringCafeService.ts, server.js) *)

Section HiringCafe.
Import Js Types Net Spec HiringCafeService.

(** [fetchHiringCafeJobs] resolves only on a success status whose body
    is JSON, with the value of that body; in every other case it rejects
    with the one message "Failed to load job listings from hiring.cafe.
    Please try again later.", whatever the cause was. *)
Theorem fetchHiringCafeJobs_outcome (net : Fetch) :
  (forall data,
     fetchHiringCafeJobs net = Resolved data <->
     exists resp text,
       net = FetchResolves resp /\ ok resp = true
       /\ body resp = BodyText text (Parsed data))
  /\ (forall m,
        fetchHiringCafeJobs net = Rejected m ->
        m = js "Failed to load job listings from hiring.cafe. Please try again later.").
Proof.
  unfold fetchHiringCafeJobs. split.
  - intros data. split.
    + destruct net as [m|resp]; [discriminate|].
      destruct (ok resp) eqn:Eok; simpl; [|discriminate].
      destruct (body resp) as [m|text [v|m]] eqn:Eb; try discriminate.
      intros [= <-]. now exists resp, text.
    + intros (resp & text & -> & Hok & Hb). now rewrite Hok, Hb.
  - intros m. destruct net as [m'|resp]; [now intros [= <-]|].
    destruct (ok resp); simpl; [|now intros [= <-]].
    destruct (body resp) as [m'|text [v|m']]; try discriminate;
      now intros [= <-].
Qed.

(** The proxy does not look at the status hiring.cafe answers with: any
    answer whose body is JSON reaches the page as the list of jobs, a
    JSON error body of a failed upstream request included. *)
Theorem hiring_cafe_proxy (upstream resp : Response) (text : jsstring)
  (data : JSValue) :
  body upstream = BodyText text (Parsed data) ->
  Server.arrives (Server.hiring_cafe (FetchResolves upstream)) resp ->
  fetchHiringCafeJobs (FetchResolves resp) = Resolved data.
Proof.
  intros Hb (Hstatus & Hok & text' & _ & Hbody).
  unfold Server.hiring_cafe in *. rewrite Hb in *. simpl in *.
  unfold fetchHiringCafeJobs. now rewrite Hok, Hbody.
Qed.

End HiringCafe.

(** ** The client and the proxy together (geminiService.ts, server.js) *)

Section ThroughTheServer.
Import Js Types Net Spec GeminiService.

Lemma arrives_ok (reply : Server.Reply) (resp : Response) :
  Server.arrives reply resp -> Server.code reply = 200%N ->
  ok resp = true
  /\ exists text,
       truthy text = true
       /\ body resp = BodyText text (Parsed (Server.payload reply)).
Proof.
  intros (_ & Hok & text & Ht & Hb) Hc. rewrite Hc in Hok.
  split; [exact Hok|]. exists text. split; [|exact Hb].
  destruct text; [congruence | reflexivity].
Qed.

Lemma arrives_error (c : N) (message : string) (resp : Response) :
  Server.arrives (Server.error_reply c message) resp ->
  (N.leb 200 c && N.leb c 299) = false ->
  ok resp = false
  /\ exists text json,
       text <> [] /\ truthy text = true /\ body resp = BodyText text json.
Proof.
  intros (_ & Hok & text & Ht & Hb) Hc. simpl in Hok. rewrite Hc in Hok.
  split; [exact Hok|]. exists text. eexists. split; [exact Ht|].
  split; [|exact Hb]. destruct text; [congruence | reflexivity].
Qed.

(** Through the proxy of server.js, [analyzeJobFit] resolves in one case
    only: the request had a résumé and a job description, and the model
    answered with a text that is not blank and parses; the value it
    resolves with is the one that text parsed to.  In every other case
    (a field missing, the model failing, an empty or unparseable answer)
    it rejects, with "Failed to analyze job fit: " followed by the body
    of the error reply, which is not empty. *)
Theorem analyzeJobFit_through_server (resume jobDescription : option jsstring)
  (g : Server.Generate) (resp : Response) :
  Server.arrives (Server.analyze resume jobDescription g) resp ->
  (forall v,
     analyzeJobFit (FetchResolves resp) = Resolved v <->
     Server.missing resume = false /\ Server.missing jobDescription = false
     /\ exists text,
          g = Server.GenerateText text (Parsed v)
          /\ Server.trimmed_text text <> [])
  /\ (forall m,
        analyzeJobFit (FetchResolves resp) = Rejected m ->
        exists sent,
          sent <> [] /\ m = js "Failed to analyze job fit: " ++ sent).
Proof.
  unfold Server.analyze.
  assert (Herr : forall c message,
            Server.arrives (Server.error_reply c message) resp ->
            (N.leb 200 c && N.leb c 299) = false ->
            (forall v, analyzeJobFit (FetchResolves resp) <> Resolved v)
            /\ (forall m,
                  analyzeJobFit (FetchResolves resp) = Rejected m ->
                  exists sent,
                    sent <> []
                    /\ m = js "Failed to analyze job fit: " ++ sent)).
  { intros c message Ha Hc.
    destruct (arrives_error c message resp Ha Hc)
      as (Hok & text & json & Hne & Ht & Hb).
    unfold analyzeJobFit. rewrite Hok, Hb. simpl. unfold or_else.
    rewrite Ht. split; [discriminate|]. intros m [= <-]. now exists text. }
  destruct (Server.missing resume) eqn:Er; simpl.
  { intros Ha. destruct (Herr _ _ Ha eq_refl) as [H1 H2].
    split; [|exact H2]. intros v. split; [intros H; now apply H1 in H|].
    intros (F & _); discriminate. }
  destruct (Server.missing jobDescription) eqn:Ej; simpl.
  { intros Ha. destruct (Herr _ _ Ha eq_refl) as [H1 H2].
    split; [|exact H2]. intros v. split; [intros H; now apply H1 in H|].
    intros (_ & F & _); discriminate. }
  destruct g as [|text json].
  { intros Ha. destruct (Herr _ _ Ha eq_refl) as [H1 H2].
    split; [|exact H2]. intros v. split; [intros H; now apply H1 in H|].
    intros (_ & _ & t & F & _); discriminate. }
  destruct (truthy (Server.trimmed_text text)) eqn:Et; simpl.
  - destruct json as [parsed|sm].
    + intros Ha. destruct (arrives_ok _ resp Ha eq_refl)
        as (Hok & text' & Ht' & Hb).
      unfold analyzeJobFit, handleResponse. rewrite Hok, Hb. simpl.
      rewrite Ht'. simpl. split; [|discriminate].
      intros v. split.
      * intros [= <-]. repeat split. exists text. split; [reflexivity|].
        destruct (Server.trimmed_text text); [discriminate | congruence].
      * intros (_ & _ & t & [= _ ->] & _). reflexivity.
    + intros Ha. destruct (Herr _ _ Ha eq_refl) as [H1 H2].
      split; [|exact H2]. intros v. split; [intros H; now apply H1 in H|].
      intros (_ & _ & t & F & _); discriminate.
  - intros Ha. destruct (Herr _ _ Ha eq_refl) as [H1 H2].
    split; [|exact H2]. intros v. split; [intros H; now apply H1 in H|].
    intros (_ & _ & t & [= <- _] & F).
    destruct (Server.trimmed_text text); [congruence | discriminate].
Qed.

(** Through the proxy, [fetchJobDescriptionFromUrl] rejects only when the
    model call fails.  When the model answers, it resolves with the
    answer trimmed, and with the empty string when the model gave no text
    or only white space: no usable text is not an error. *)
Theorem fetchJobDescriptionFromUrl_through_server (engine : Engine)
  (url : jsstring) (g : Server.Generate) (resp : Response) :
  url <> [] ->
  Server.arrives (Server.fetch_description (Some url) g) resp ->
  match g with
  | Server.GenerateThrows =>
      exists sent,
        sent <> []
        /\ fetchJobDescriptionFromUrl engine (FetchResolves resp)
           = Rejected (js "Failed to fetch job description: " ++ sent)
  | Server.GenerateText text _ =>
      fetchJobDescriptionFromUrl engine (FetchResolves resp)
      = Resolved (Server.trimmed_text text)
      /\ (text = None \/ (exists t, text = Some t /\ whitespace_only t) ->
          fetchJobDescriptionFromUrl engine (FetchResolves resp)
          = Resolved [])
  end.
Proof.
  intros Hurl. unfold Server.fetch_description.
  destruct url as [|c u]; [congruence|]. simpl Server.missing. cbv iota.
  destruct g as [|text json].
  - intros Ha. destruct (arrives_error _ _ resp Ha eq_refl)
      as (Hok & text & json & Hne & Ht & Hb).
    exists text. split; [exact Hne|].
    unfold fetchJobDescriptionFromUrl. rewrite Hok, Hb. simpl.
    unfold or_else. now rewrite Ht.
  - intros Ha. destruct (arrives_ok _ resp Ha eq_refl)
      as (Hok & text' & Ht' & Hb).
    assert (E : fetchJobDescriptionFromUrl engine (FetchResolves resp)
                = Resolved (Server.trimmed_text text)).
    { unfold fetchJobDescriptionFromUrl. rewrite Hok, Hb. simpl.
      destruct (Server.trimmed_text text) as [|x t] eqn:Et;
        [reflexivity|].
      simpl. rewrite <- Et. f_equal.
      destruct text as [s|]; simpl in *; [apply trim_idempotent|].
      discriminate. }
    split; [exact E|]. rewrite E.
    intros [->|(t & -> & Hws)]; [reflexivity|]. simpl.
    apply trim_nil in Hws. now rewrite Hws.
Qed.

(** What [fetchJobDescriptionFromUrl] resolves with has no white space
    at either end. *)
Theorem fetchJobDescriptionFromUrl_trimmed (engine : Engine) (net : Fetch)
  (t : jsstring) :
  fetchJobDescriptionFromUrl engine net = Resolved t -> trimmed t.
Proof.
  unfold fetchJobDescriptionFromUrl.
  destruct net as [m|resp]; [discriminate|].
  destruct (ok resp); simpl.
  - destruct (body resp) as [m|text [data|m]]; try discriminate.
    unfold text_of_data.
    destruct data as [|b|q|s|l|ps]; try discriminate;
      try (intros [= <-]; apply trim_trimmed).
    destruct (get_property (js "text") ps) as [v|];
      [|intros [= <-]; apply trim_trimmed].
    destruct (truthy_value v); [|intros [= <-]; apply trim_trimmed].
    destruct v; try discriminate. intros [= <-]. apply trim_trimmed.
  - destruct (body resp); discriminate.
Qed.

(** Through the proxy, [calculateDistance] gives the empty object, not an
    error, when the model answers with no text; it gives the value the
    text parses to when there is one, and rejects with "Failed to
    calculate distance: " followed by the error reply otherwise. *)
Theorem calculateDistance_through_server (origin destination : jsstring)
  (g : Server.Generate) (resp : Response) :
  origin <> [] -> destination <> [] ->
  Server.arrives (Server.distance (Some origin) (Some destination) g) resp ->
  match g with
  | Server.GenerateText text json =>
      match Server.trimmed_text text, json with
      | [], _ => calculateDistance (FetchResolves resp) = Resolved (JObject [])
      | _ :: _, Parsed v => calculateDistance (FetchResolves resp) = Resolved v
      | _ :: _, SyntaxError _ =>
          exists sent,
            sent <> []
            /\ calculateDistance (FetchResolves resp)
               = Rejected (js "Failed to calculate distance: " ++ sent)
      end
  | Server.GenerateThrows =>
      exists sent,
        sent <> []
        /\ calculateDistance (FetchResolves resp)
           = Rejected (js "Failed to calculate distance: " ++ sent)
  end.
Proof.
  intros Ho Hd. unfold Server.distance.
  destruct origin as [|c1 o]; [congruence|].
  destruct destination as [|c2 d]; [congruence|].
  simpl Server.missing. cbv iota. simpl orb. cbv iota.
  assert (Herr : forall c message,
            Server.arrives (Server.error_reply c message) resp ->
            (N.leb 200 c && N.leb c 299) = false ->
            exists sent,
              sent <> []
              /\ calculateDistance (FetchResolves resp)
                 = Rejected (js "Failed to calculate distance: " ++ sent)).
  { intros c message Ha Hc.
    destruct (arrives_error c message resp Ha Hc)
      as (Hok & text & json & Hne & Ht & Hb).
    exists text. split; [exact Hne|].
    unfold calculateDistance. rewrite Hok, Hb. simpl. unfold or_else.
    now rewrite Ht. }
  destruct g as [|text json]; [intros Ha; now apply (Herr _ _ Ha)|].
  destruct (Server.trimmed_text text) as [|x t]; simpl.
  - intros Ha. destruct (arrives_ok _ resp Ha eq_refl)
      as (Hok & text' & Ht' & Hb).
    unfold calculateDistance. now rewrite Hok, Hb.
  - destruct json as [v|sm].
    + intros Ha. destruct (arrives_ok _ resp Ha eq_refl)
        as (Hok & text' & Ht' & Hb).
      unfold calculateDistance. now rewrite Hok, Hb.
    + intros Ha. now apply (Herr _ _ Ha).
Qed.

(** Through the proxy, [getAddressFromCoordinates] resolves with the
    answer of the model trimmed, a string, and with the empty string when
    the model gave no text; it rejects only when the model call fails. *)
Theorem getAddressFromCoordinates_through_server (null_message : jsstring)
  (lat lon : Q) (g : Server.Generate) (resp : Response) :
  Server.arrives
    (Server.reverse_geocode (Some (JNumber lat)) (Some (JNumber lon)) g)
    resp ->
  match g with
  | Server.GenerateThrows =>
      exists sent,
        sent <> []
        /\ getAddressFromCoordinates null_message (FetchResolves resp)
           = Rejected (js "Failed to get address from coordinates: " ++ sent)
  | Server.GenerateText text _ =>
      getAddressFromCoordinates null_message (FetchResolves resp)
      = Resolved (JString (Server.trimmed_text text))
  end.
Proof.
  unfold Server.reverse_geocode. simpl.
  destruct g as [|text json].
  - intros Ha. destruct (arrives_error _ _ resp Ha eq_refl)
      as (Hok & text & json & Hne & Ht & Hb).
    exists text. split; [exact Hne|].
    unfold getAddressFromCoordinates. rewrite Hok, Hb. simpl.
    unfold or_else. now rewrite Ht.
  - intros Ha. destruct (arrives_ok _ resp Ha eq_refl)
      as (Hok & text' & Ht' & Hb).
    unfold getAddressFromCoordinates. rewrite Hok, Hb. simpl.
    now destruct (Server.trimmed_text text).
Qed.

End ThroughTheServer.

(** ** The dialogs that call the services *)

Section Dialogs.
Import Js Types Net Spec.


(** The search page never shows a result: with a query that is not
    blank, [handleSearch] ends with no listing, isLoading false and the
    error "searchForJobs is not implemented in the client. ..."; with a
    blank query it does nothing. *)
Theorem handleSearch_never_finds (st : JobSearchPage.State) :
  (whitespace_only (JobSearchPage.query st) ->
   JobSearchPage.handleSearch st = st)
  /\ (~ whitespace_only (JobSearchPage.query st) ->
      JobSearchPage.results (JobSearchPage.handleSearch st) = []
      /\ JobSearchPage.isLoading (JobSearchPage.handleSearch st) = false
      /\ JobSearchPage.error (JobSearchPage.handleSearch st)
         = Some
             (js "searchForJobs is not implemented in the client. Implement a backend endpoint to perform job site searches.")).
Proof.
  unfold JobSearchPage.handleSearch. split.
  - intros H. apply truthy_trim in H. now rewrite H.
  - intros H. apply not_blank in H. rewrite H. simpl. repeat split.
Qed.

End Dialogs.

(** ** The proxy with the document store (src/unnamed/part_003) *)

Section ThroughTheStoreServer.
Import Js Types Net Spec GeminiService.

(** Through the proxy with the store, for a request that carries a
    résumé: an answer of the model that is blank makes [analyzeJobFit]
    reject, but an answer that is not JSON does not; the call resolves
    with the object holding that text under "raw".  When the analysis is
    stored, the call resolves with the stored document, whatever the
    model's text was. *)
Theorem analyzeJobFit_through_store_server
  (resumeId : option jsstring) (resume jobDescription : jsstring)
  (store : StoreServer.Store) (g : Server.Generate) (resp : Response) :
  resume <> [] ->
  Server.arrives
    (StoreServer.analyze
       (StoreServer.Valid resumeId (Some resume) jobDescription) store g)
    resp ->
  match g with
  | Server.GenerateThrows =>
      exists sent,
        sent <> []
        /\ analyzeJobFit (FetchResolves resp)
           = Rejected (js "Failed to analyze job fit: " ++ sent)
  | Server.GenerateText text json =>
      match Server.trimmed_text text with
      | [] =>
          exists sent,
            sent <> []
            /\ analyzeJobFit (FetchResolves resp)
               = Rejected (js "Failed to analyze job fit: " ++ sent)
      | _ :: _ =>
          analyzeJobFit (FetchResolves resp)
          = Resolved
              match StoreServer.create store, json with
              | StoreServer.Created sent, _ => sent
              | _, Parsed v => v
              | _, SyntaxError _ =>
                  JObject [(js "raw", JString (Server.trimmed_text text))]
              end
      end
  end.
Proof.
  intros Hr. unfold StoreServer.analyze.
  destruct resume as [|c r]; [congruence|]. simpl StoreServer.given.
  simpl negb. rewrite andb_false_l, andb_false_r, andb_false_l.
  unfold StoreServer.answer.
  assert (Herr : forall c message,
            Server.arrives (Server.error_reply c message) resp ->
            (N.leb 200 c && N.leb c 299) = false ->
            exists sent,
              sent <> []
              /\ analyzeJobFit (FetchResolves resp)
                 = Rejected (js "Failed to analyze job fit: " ++ sent)).
  { intros c' message Ha Hc.
    destruct (arrives_error c' message resp Ha Hc)
      as (Hok & text & json & Hne & Ht & Hb).
    exists text. split; [exact Hne|].
    unfold analyzeJobFit. rewrite Hok, Hb. simpl. unfold or_else.
    now rewrite Ht. }
  destruct g as [|text json]; [intros Ha; now apply (Herr _ _ Ha)|].
  destruct (Server.trimmed_text text) as [|x t] eqn:Et; simpl.
  - intros Ha. now apply (Herr _ _ Ha).
  - intros Ha.
    assert (Hc : Server.code
                   match StoreServer.create store with
                   | StoreServer.Created sent =>
                       {| Server.code := 200; Server.payload := sent |}
                   | _ =>
                       {| Server.code := 200;
                          Server.payload :=
                            match json with
                            | Parsed v => v
                            | SyntaxError _ =>
                                JObject [(js "raw", JString (x :: t))]
                            end |}
                   end = 200%N)
      by now destruct (StoreServer.create store).
    destruct (arrives_ok _ resp Ha Hc) as (Hok & text' & Ht' & Hb).
    unfold analyzeJobFit, handleResponse. rewrite Hok, Hb. simpl.
    rewrite Ht'. f_equal.
    destruct (StoreServer.create store), json; reflexivity.
Qed.

End ThroughTheStoreServer.

(** ** The store on localStorage alone (src/unnamed/part_005) *)

Section MockStore.
Import Js Types Net Spec MockApiService.
Variable templateResumeContent : jsstring.
Variable Date_getTime : jsstring -> number.

(** [deleteResume] of the store on localStorage alone, the store holding
    an array.  For an id no record has it rejects with "Failed to delete the resume from the
    database." and leaves the stored array as it is; for an id a record
    has it resolves, and the stored array becomes the records sorted
    newest first without the ones of that id. *)
Theorem mock_deleteResume_outcome (id uuid now : jsstring)
  (rs : list SavedResume) :
  ((forall r, In r rs -> _id r <> id) ->
   deleteResume templateResumeContent Date_getTime id uuid now (Some rs)
   = (Rejected (js "Failed to delete the resume from the database."),
      Some rs))
  /\ (In id (map _id rs) ->
      deleteResume templateResumeContent Date_getTime id uuid now (Some rs)
      = (Resolved true,
         Some (filter (fun r => negb (streq (_id r) id))
                 (Array_sort (ApiService.bySavedAtDesc Date_getTime) rs)))).
Proof.
  unfold deleteResume, getResumes. split.
  - intros Habsent. rewrite filter_absent; [now rewrite Nat.eqb_refl|].
    intros r Hr. apply Habsent.
    now apply (Permutation_in _
                 (Permutation_sym
                    (Array_sort_perm
                       (ApiService.bySavedAtDesc Date_getTime) rs))).
  - intros Hin. apply in_map_iff in Hin as (x & Hx & Hxin).
    rewrite Nat.eqb_sym.
    rewrite (filter_shorter _ _ x); [reflexivity| |].
    + now apply (Permutation_in _
                   (Array_sort_perm
                      (ApiService.bySavedAtDesc Date_getTime) rs)).
    + apply negb_false_iff, streq_eq, Hx.
Qed.

End MockStore.

(** ** Deleting through the proxy with the store *)

Section DeleteThroughTheStoreServer.
Import Js Types Net Spec ApiService.
Variable templateResumeContent : jsstring.

(** Whatever the store does with a DELETE request (the record deleted, no
    record of that id, the store failing or absent), so whatever status
    the proxy answers with, 404 and 500 included, [deleteResume] resolves
    with success and leaves the local cache untouched. *)
Theorem deleteResume_through_store_server (id : jsstring)
  (model : bool) (d : StoreServer.FindAndDelete) (resp : Response)
  (uuid now : jsstring) (st : Storage) :
  well_formed id = true ->
  Server.arrives (StoreServer.delete_resume model d) resp ->
  deleteResume templateResumeContent id (FetchResolves resp) uuid now st
  = (Resolved true, st)
  /\ (d = StoreServer.DeleteNothing -> model = true -> status resp = 404%N).
Proof.
  intros Hw (Hstatus & _). unfold deleteResume. rewrite Hw.
  split; [reflexivity|]. intros -> ->. exact Hstatus.
Qed.

End DeleteThroughTheStoreServer.

(** ** The services calling the model from the browser
    (src/unnamed/part_004) *)

Section Sdk.
Import Js Types Net Spec GeminiSdk.

(** The analysis service that calls the model itself resolves only when
    the model gave a text and that text, trimmed, parses; it resolves
    with the parsed value.  A failing call, a missing, empty or
    unparseable text all reject with the one message "Failed to get
    analysis from Gemini API. ...". *)
Theorem sdk_analyzeJobFit_outcome (g : Server.Generate) :
  (forall v,
     analyzeJobFit g = Resolved v <->
     exists t, g = Server.GenerateText (Some t) (Parsed v))
  /\ (forall m, analyzeJobFit g = Rejected m -> m = analysis_failed)
  /\ analysis_failed <> [].
Proof.
  split; [|split; [|discriminate]].
  - intros v. split.
    + destruct g as [|[t|] [p|s]]; try discriminate.
      intros [= <-]. now exists t.
    + now intros (t & ->).
  - intros m. destruct g as [|[t|] [p|s]]; try discriminate;
      now intros [= <-].
Qed.

(** The description service that calls the model itself resolves only
    when the model gave a text that is not empty, with that text trimmed;
    a failing call and a missing or empty text reject with the advice to
    check the link or paste the description manually.  A text of white
    space only is not an error: it resolves with the empty string. *)
Theorem sdk_fetchJobDescriptionFromUrl_outcome (g : Server.Generate) :
  (forall d,
     fetchJobDescriptionFromUrl g = Resolved d <->
     exists t json,
       g = Server.GenerateText (Some t) json /\ t <> [] /\ d = trim t)
  /\ (forall m,
        fetchJobDescriptionFromUrl g = Rejected m ->
        m = description_failed)
  /\ (forall t json,
        t <> [] -> whitespace_only t ->
        fetchJobDescriptionFromUrl (Server.GenerateText (Some t) json)
        = Resolved []).
Proof.
  split; [|split].
  - intros d. split.
    + destruct g as [|[t|] json]; try discriminate. simpl.
      destruct t as [|c t]; [discriminate|]. intros [= <-].
      exists (c :: t), json. repeat split. discriminate.
    + intros (t & json & -> & Ht & ->). simpl.
      destruct t; [congruence | reflexivity].
  - intros m. destruct g as [|[t|] json]; try (now intros [= <-]).
    simpl. destruct (truthy t); [discriminate | now intros [= <-]].
  - intros t json Ht Hws. simpl. destruct t as [|c t]; [congruence|].
    simpl truthy. cbv iota. f_equal. now apply trim_nil.
Qed.

End Sdk.

(** ** The further theorems at work *)

Lemma delivered_arrives (reply : Server.Reply) (a : ascii) (text : string) :
  Server.arrives reply (Sample.delivered reply (String a text)).
Proof.
  split; [reflexivity|]. split; [reflexivity|].
  exists (Js.js (String a text)). split; [discriminate | reflexivity].
Defined.

Lemma dashboard_after_epoch :
  Spec.analyzed_after_epoch Js.Date_getTime_iso Sample.dashboard.
Proof.
  intros j s Hj Hs. simpl in Hj.
  destruct Hj as [<-|[<-|[<-|[<-|[]]]]]; simpl in Hs; try discriminate;
    injection Hs as <-; (split; [discriminate|]).
  - exists 1704067200000. split; [reflexivity | lia].
  - exists 1000000000000. split; [reflexivity | lia].
Defined.

Lemma dashboard_comparable (x : Types.Job) :
  In x Sample.dashboard ->
  Spec.comparable Js.Date_getTime_iso JobListingsPage.byAnalyzedAt
    (x :: Sample.dashboard).
Proof.
  intros Hx j [<-|Hj]; [|clear Hx]; simpl in *;
    repeat match goal with
           | H : _ \/ _ |- _ => destruct H as [<-|H]
           | H : False |- _ => destruct H
           end; discriminate.
Defined.

Lemma not_blank_text (c : ascii) (s : string) :
  Js.is_white_space (N_of_ascii c) = false ->
  ~ Spec.whitespace_only (Js.js (String c s)).
Proof. intros H W. inversion W; subst. congruence. Defined.

Lemma sortedJobs_in_order_witness :
  JobListingsPage.sortedJobs Js.Date_getTime_iso Sample.toLowerCase_ascii
    Sample.dashboard JobListingsPage.byAnalyzedAt JobListingsPage.asc
  = [Sample.job "a"; Sample.job "c";
     Sample.analyzed "d" "2001-09-09T01:46:40.000Z";
     Sample.analyzed "b" "2024-01-01T00:00:00.000Z"]
  /\ Spec.below Js.Date_getTime_iso Sample.toLowerCase_ascii
       JobListingsPage.byAnalyzedAt
       (Sample.analyzed "b" "2024-01-01T00:00:00.000Z")
       (Sample.analyzed "d" "2001-09-09T01:46:40.000Z")
     = false.
Proof.
  split; [reflexivity|].
  apply (proj2 (sortedJobs_in_order Js.Date_getTime_iso
                  Sample.toLowerCase_ascii Sample.dashboard
                  JobListingsPage.byAnalyzedAt JobListingsPage.asc)
           (fun j Hj =>
              dashboard_comparable (Sample.job "a") (or_introl eq_refl) j
                (or_intror Hj))
           (Sample.analyzed "d" "2001-09-09T01:46:40.000Z")
           (Sample.analyzed "b" "2024-01-01T00:00:00.000Z")).
  now exists [Sample.job "a"; Sample.job "c"], [], [].
Defined.

Lemma sortedJobs_stable_witness :
  filter
    (Spec.tie
       (JobListingsPage.compareJobs Js.Date_getTime_iso
          Sample.toLowerCase_ascii JobListingsPage.byAnalyzedAt
          JobListingsPage.desc) (Sample.job "a"))
    (JobListingsPage.sortedJobs Js.Date_getTime_iso
       Sample.toLowerCase_ascii Sample.dashboard
       JobListingsPage.byAnalyzedAt JobListingsPage.desc)
  = [Sample.job "a"; Sample.job "c"].
Proof.
  rewrite (sortedJobs_stable Js.Date_getTime_iso Sample.toLowerCase_ascii
             Sample.dashboard JobListingsPage.byAnalyzedAt
             JobListingsPage.desc (Sample.job "a")).
  - reflexivity.
  - apply dashboard_comparable. now left.
Defined.

Lemma sortedJobs_direction_witness :
  Spec.before
    (JobListingsPage.sortedJobs Js.Date_getTime_iso
       Sample.toLowerCase_ascii Sample.dashboard
       JobListingsPage.byAnalyzedAt JobListingsPage.asc)
    (Sample.job "a") (Sample.analyzed "b" "2024-01-01T00:00:00.000Z")
  /\ Spec.before
       (JobListingsPage.sortedJobs Js.Date_getTime_iso
          Sample.toLowerCase_ascii Sample.dashboard
          JobListingsPage.byAnalyzedAt JobListingsPage.desc)
       (Sample.analyzed "b" "2024-01-01T00:00:00.000Z") (Sample.job "a").
Proof.
  apply (sortedJobs_direction Js.Date_getTime_iso Sample.toLowerCase_ascii
           Sample.dashboard JobListingsPage.byAnalyzedAt).
  - intros j Hj.
    apply (dashboard_comparable (Sample.job "a") (or_introl eq_refl) j).
    now right.
  - now left.
  - right. now left.
  - reflexivity.
Defined.

Lemma sortedJobs_ascending_unanalyzed_first_witness :
  Types.analyzedAt (Sample.job "a") = None.
Proof.
  apply (sortedJobs_ascending_unanalyzed_first Js.Date_getTime_iso
           Sample.toLowerCase_ascii Sample.dashboard dashboard_after_epoch
           (Sample.job "a") (Sample.job "c")).
  - now exists [], [],
      [Sample.analyzed "d" "2001-09-09T01:46:40.000Z";
       Sample.analyzed "b" "2024-01-01T00:00:00.000Z"].
  - reflexivity.
Defined.

Lemma handleAnalyzeJob_request_witness :
  snd (App.handleAnalyzeJob (Js.js "a")
         (Sample.desk "Managed inbound calls." Sample.dashboard))
  = Some (App.Analysis (Js.js "a") (Js.js "Managed inbound calls.")
            (Js.js "Looking for a CRM expert.")).
Proof.
  apply (proj1 (handleAnalyzeJob_request (Js.js "a")
                  (Sample.desk "Managed inbound calls." Sample.dashboard)
                  (App.Analysis (Js.js "a") (Js.js "Managed inbound calls.")
                     (Js.js "Looking for a CRM expert.")))).
  exists (Sample.job "a"). split; [|split; [|split]].
  - exists [], (tl Sample.dashboard).
    split; [reflexivity|]. split; [reflexivity | intros j []].
  - now apply not_blank_text.
  - now apply not_blank_text.
  - reflexivity.
Defined.

Lemma handleRemoveJob_removes_witness :
  In (Sample.job "a")
    (App.jobs (App.handleRemoveJob (Js.js "b")
                 (Sample.desk "Managed inbound calls." Sample.dashboard)))
  /\ ~ In (Sample.analyzed "b" "2024-01-01T00:00:00.000Z")
         (App.jobs (App.handleRemoveJob (Js.js "b")
                      (Sample.desk "Managed inbound calls."
                         Sample.dashboard))).
Proof.
  split.
  - apply (proj1 (handleRemoveJob_removes (Js.js "b")
                    (Sample.desk "Managed inbound calls." Sample.dashboard))).
    split; [now left | discriminate].
  - intros H.
    apply (proj1 (handleRemoveJob_removes (Js.js "b")
                    (Sample.desk "Managed inbound calls." Sample.dashboard)))
      in H.
    destruct H as [_ H]. now apply H.
Defined.

Lemma handleFetchDescription_success_witness :
  exists j',
    nth_error
      (App.jobs
         (App.handleFetchDescription_settled (Js.js "a")
            (Net.Resolved (Js.js "We are hiring a CRM expert."))
            (fst (App.handleFetchDescription (Js.js "a")
                    (Sample.desk "Managed inbound calls."
                       Sample.dashboard))))) 0
    = Some j'
    /\ (Types.id (Sample.job "a") <> Js.js "a" -> j' = Sample.job "a")
    /\ (Types.id (Sample.job "a") = Js.js "a" ->
        Types.description j' = Js.js "We are hiring a CRM expert."
        /\ Types.isFetching j' = false /\ Types.error j' = None
        /\ Spec.same_but_description (Sample.job "a") j').
Proof.
  apply (proj1 (proj2
           (handleFetchDescription_success (Js.js "a")
              (Js.js "We are hiring a CRM expert.")
              (Sample.desk "Managed inbound calls." Sample.dashboard)
              (Sample.job "a")
              ltac:(exists [], (tl Sample.dashboard);
                    split; [reflexivity | split; [reflexivity | intros j []]])
              ltac:(discriminate)))
           0%nat (Sample.job "a") eq_refl).
Defined.

Lemma handleAddJobFromSearch_cycle_witness :
  map Types.description
    (App.jobs
       (App.handleAddJobFromSearch_settled (Js.js "s1")
          (Net.Rejected (Js.js "Failed to fetch"))
          (fst (App.handleAddJobFromSearch Sample.listing (Js.js "s1")
                  (Sample.desk "Managed inbound calls." [Sample.job "a"])))))
  = [Js.js "Failed to fetch job description. Please paste it manually.";
     Js.js "Looking for a CRM expert."].
Proof.
  rewrite (proj2 (proj2 (proj2
             (handleAddJobFromSearch_cycle Sample.listing (Js.js "s1")
                (Sample.desk "Managed inbound calls." [Sample.job "a"])
                (Net.Rejected (Js.js "Failed to fetch"))
                ltac:(intros j [<-|[]]; discriminate))))).
  reflexivity.
Defined.

Lemma isFetching_window_witness :
  exists u,
    In (App.DescriptionFetch (Types.id Sample.fetching_job) u)
      (App.pending Sample.w_search)
    \/ In (App.SearchFetch (Types.id Sample.fetching_job) u)
         (App.pending Sample.w_search).
Proof.
  apply (isFetching_window Sample.template Sample.w_search).
  - apply (App.after_step _ Sample.w0);
      [exact (App.at_start Sample.template)
      |exact (App.on_add_from_search Sample.w0 Sample.listing (Js.js "s1"))].
  - now left.
  - reflexivity.
Defined.

Lemma ids_along_a_step_witness :
  map Types.id
    (App.jobs (fst (App.handleAddJobFromSearch Sample.listing (Js.js "s1")
                      (App.app Sample.crowded))))
  = [Js.js "s1"; Js.js "a"; Js.js "b"; Js.js "c"; Js.js "d"]
  /\ NoDup
       (map Types.id
          (App.jobs
             (fst (App.handleAddJobFromSearch Sample.listing (Js.js "s1")
                     (App.app Sample.crowded))))).
Proof.
  split; [reflexivity|].
  apply (proj2 (ids_along_a_step Sample.crowded _
                  (App.on_add_from_search Sample.crowded Sample.listing
                     (Js.js "s1")))).
  - repeat constructor; simpl; intuition discriminate.
  - intros uuid [= <-]. simpl. intuition discriminate.
Defined.

Lemma saveResume_then_list_witness :
  ApiService.saveResume Sample.template (Js.js "Sales") (Js.js "Sold things.")
    [] Sample.unreachable (Js.js "u1") (Js.js "2024-06-01T00:00:00.000Z")
    (Js.js "u2") (Js.js "2024-06-02T00:00:00.000Z") (Some Sample.cache)
  = (Net.Resolved
       (ApiService.FromCache
          {| Types._id := Js.js "u2"; Types.name := Js.js "Sales";
             Types.content := Js.js "Sold things.";
             Types.jobDescription := [];
             Types.savedAt := Js.js "2024-06-02T00:00:00.000Z" |}),
     Some ({| Types._id := Js.js "u2"; Types.name := Js.js "Sales";
              Types.content := Js.js "Sold things.";
              Types.jobDescription := [];
              Types.savedAt := Js.js "2024-06-02T00:00:00.000Z" |}
             :: Sample.cache)).
Proof.
  apply (saveResume_then_list Sample.template Js.Date_getTime_iso
           (Js.js "Sales") (Js.js "Sold things.") [] Sample.unreachable
           Sample.unreachable (Js.js "Failed to fetch")
           (Js.js "Failed to fetch") (Js.js "u1")
           (Js.js "2024-06-01T00:00:00.000Z") (Js.js "u2")
           (Js.js "2024-06-02T00:00:00.000Z") (Js.js "u3")
           (Js.js "2024-06-03T00:00:00.000Z") (Some Sample.cache)
           eq_refl eq_refl).
Defined.

Lemma deleteResume_offline_witness :
  ApiService.deleteResume Sample.template (Js.js "r2") Sample.unreachable
    (Js.js "u1") (Js.js "2024-06-01T00:00:00.000Z") (Some Sample.cache)
  = (Net.Resolved true,
     Some [Sample.saved "r1" "2001-09-09T01:46:40.000Z";
           Sample.saved "r3" "2000-01-01T00:00:00.000Z"]).
Proof.
  apply (deleteResume_offline Sample.template (Js.js "r2")
           Sample.unreachable Sample.unreachable (Js.js "u1")
           (Js.js "2024-06-01T00:00:00.000Z") (Js.js "u2")
           (Js.js "2024-06-02T00:00:00.000Z") Sample.cache).
  - right. now exists (Js.js "Failed to fetch").
  - right. now exists (Js.js "Failed to fetch").
  - right. now left.
Defined.

Lemma updateResume_offline_witness :
  ApiService.updateResume Sample.template (Js.js "r1") Sample.rename
    Sample.unreachable (Js.js "u1") (Js.js "2024-06-01T00:00:00.000Z")
    (Some Sample.cache)
  = (Net.Resolved
       (ApiService.FromCache
          (ApiService.patched
             (Sample.saved "r1" "2001-09-09T01:46:40.000Z") Sample.rename)),
     Some (ApiService.patched
             (Sample.saved "r1" "2001-09-09T01:46:40.000Z") Sample.rename
             :: tl Sample.cache))
  /\ ApiService.updateResume Sample.template (Js.js "r9") Sample.rename
       Sample.unreachable (Js.js "u1") (Js.js "2024-06-01T00:00:00.000Z")
       (Some Sample.cache)
     = (Net.Rejected (Js.js "Resume with ID r9 not found"),
        Some Sample.cache).
Proof.
  split.
  - apply (proj1 (updateResume_offline Sample.template (Js.js "r1")
                    Sample.rename Sample.unreachable (Js.js "u1")
                    (Js.js "2024-06-01T00:00:00.000Z") Sample.cache
                    (or_intror (ex_intro _ (Js.js "Failed to fetch") eq_refl)))
             [] (Sample.saved "r1" "2001-09-09T01:46:40.000Z")
             (tl Sample.cache) eq_refl eq_refl).
    intros x [].
  - apply (proj2 (updateResume_offline Sample.template (Js.js "r9")
                    Sample.rename Sample.unreachable (Js.js "u1")
                    (Js.js "2024-06-01T00:00:00.000Z") Sample.cache
                    (or_intror
                       (ex_intro _ (Js.js "Failed to fetch") eq_refl)))).
    intros r Hr. simpl in Hr.
    destruct Hr as [<-|[<-|[<-|[]]]]; discriminate.
Defined.

Lemma handleDelete_in_step_witness :
  ResumesPage.resumes
    (ResumesPage.handleDelete_settled
       (snd (ResumesPage.handleDelete (Js.js "r1") Sample.page))
       (fst (ApiService.deleteResume Sample.template (Js.js "r1")
               Sample.unreachable (Js.js "u1")
               (Js.js "2024-06-01T00:00:00.000Z") (Some Sample.cache)))
       (fst (ResumesPage.handleDelete (Js.js "r1") Sample.page)))
  = [Sample.saved "r2" "2024-01-01T00:00:00.000Z";
     Sample.saved "r3" "2000-01-01T00:00:00.000Z"]
  /\ ApiService.getResumes Sample.template Js.Date_getTime_iso
       Sample.unreachable (Js.js "u2") (Js.js "2024-06-02T00:00:00.000Z")
       (snd (ApiService.deleteResume Sample.template (Js.js "r1")
               Sample.unreachable (Js.js "u1")
               (Js.js "2024-06-01T00:00:00.000Z") (Some Sample.cache)))
     = (Net.Resolved
          (ApiService.FromCache
             (ResumesPage.resumes
                (ResumesPage.handleDelete_settled
                   (snd (ResumesPage.handleDelete (Js.js "r1") Sample.page))
                   (fst (ApiService.deleteResume Sample.template
                           (Js.js "r1") Sample.unreachable (Js.js "u1")
                           (Js.js "2024-06-01T00:00:00.000Z")
                           (Some Sample.cache)))
                   (fst (ResumesPage.handleDelete (Js.js "r1")
                           Sample.page))))),
        snd (ApiService.deleteResume Sample.template (Js.js "r1")
               Sample.unreachable (Js.js "u1")
               (Js.js "2024-06-01T00:00:00.000Z") (Some Sample.cache))).
Proof.
  split; [reflexivity|].
  apply (handleDelete_in_step Sample.template Js.Date_getTime_iso
           (Js.js "r1") Sample.unreachable Sample.unreachable
           (Js.js "Failed to fetch") (Js.js "u1")
           (Js.js "2024-06-01T00:00:00.000Z") (Js.js "u2")
           (Js.js "2024-06-02T00:00:00.000Z") Sample.cache Sample.page).
  - right. now exists (Js.js "Failed to fetch").
  - reflexivity.
  - intros r Hr. simpl in Hr.
    destruct Hr as [<-|[<-|[<-|[]]]]; discriminate.
  - now left.
  - reflexivity.
Defined.

Lemma handleDelete_reverts_witness :
  ResumesPage.error
    (ResumesPage.handleDelete_settled
       (snd (ResumesPage.handleDelete (Js.js "r1") Sample.page))
       (fst (ApiService.deleteResume Sample.template (Js.js "r1")
               Sample.unreachable (Js.js "u1")
               (Js.js "2024-06-01T00:00:00.000Z")
               (Some [Sample.saved "r2" "2024-01-01T00:00:00.000Z"])))
       (fst (ResumesPage.handleDelete (Js.js "r1") Sample.page)))
  = Some (Js.js "Resume with ID r1 not found").
Proof.
  apply (proj2 (handleDelete_reverts Sample.template (Js.js "r1")
                  Sample.unreachable (Js.js "u1")
                  (Js.js "2024-06-01T00:00:00.000Z") [] 
                  [Sample.saved "r2" "2024-01-01T00:00:00.000Z"]
                  Sample.page)).
  - right. now exists (Js.js "Failed to fetch").
  - intros r [<-|[]]. discriminate.
Defined.

Lemma safeName_safe_witness :
  ResumesPage.safeName (Js.js "My CV (v2).final") = Js.js "my_cv__v2__final"
  /\ ResumesPage.safeName (Js.js "my_cv__v2__final")
     = Js.js "my_cv__v2__final".
Proof.
  split; [reflexivity|].
  apply (proj1 (proj2 (proj2
           (safeName_safe (Js.js "my_cv__v2__final"))))).
  reflexivity.
Defined.

Lemma fetchHiringCafeJobs_outcome_witness :
  HiringCafeService.fetchHiringCafeJobs
    (Net.FetchResolves (Sample.json_ok (Types.JArray [])))
  = Net.Resolved (Types.JArray [])
  /\ HiringCafeService.fetchHiringCafeJobs
       (Net.FetchResolves Sample.upstream_down)
     = Net.Rejected
         (Js.js "Failed to load job listings from hiring.cafe. Please try again later.").
Proof.
  split.
  - apply (proj1 (fetchHiringCafeJobs_outcome
                    (Net.FetchResolves (Sample.json_ok (Types.JArray []))))).
    exists (Sample.json_ok (Types.JArray [])), (Js.js "[]").
    repeat split.
  - destruct (HiringCafeService.fetchHiringCafeJobs
                (Net.FetchResolves Sample.upstream_down)) as [v|m] eqn:E;
      [discriminate E|].
    f_equal.
    exact (proj2 (fetchHiringCafeJobs_outcome
                    (Net.FetchResolves Sample.upstream_down)) m E).
Defined.

Lemma hiring_cafe_proxy_witness :
  HiringCafeService.fetchHiringCafeJobs
    (Net.FetchResolves
       (Sample.delivered
          (Server.hiring_cafe (Net.FetchResolves Sample.upstream_down))
          "{'error':'maintenance'}"))
  = Net.Resolved
      (Types.JObject [(Js.js "error", Types.JString (Js.js "maintenance"))]).
Proof.
  apply (hiring_cafe_proxy Sample.upstream_down _
           (Js.js "{'error':'maintenance'}") _ eq_refl).
  apply delivered_arrives.
Defined.

Lemma analyzeJobFit_through_server_witness :
  GeminiService.analyzeJobFit
    (Net.FetchResolves
       (Sample.delivered
          (Server.analyze (Some (Js.js "Managed inbound calls."))
             (Some (Js.js "Looking for a CRM expert.")) Sample.says_json)
          "{'matchScore':70}"))
  = Net.Resolved Sample.score
  /\ exists sent,
       sent <> []
       /\ GeminiService.analyzeJobFit
            (Net.FetchResolves
               (Sample.delivered
                  (Server.analyze (Some (Js.js "Managed inbound calls."))
                     (Some (Js.js "Looking for a CRM expert."))
                     Sample.says_prose)
                  "{'error':'Failed to analyze job fit'}"))
          = Net.Rejected (Js.js "Failed to analyze job fit: " ++ sent).
Proof.
  split.
  - apply (proj1 (analyzeJobFit_through_server
                    (Some (Js.js "Managed inbound calls."))
                    (Some (Js.js "Looking for a CRM expert."))
                    Sample.says_json _ (delivered_arrives _ _ _))).
    split; [reflexivity|]. split; [reflexivity|].
    eexists. split; [reflexivity | discriminate].
  - destruct (GeminiService.analyzeJobFit
                (Net.FetchResolves
                   (Sample.delivered
                      (Server.analyze (Some (Js.js "Managed inbound calls."))
                         (Some (Js.js "Looking for a CRM expert."))
                         Sample.says_prose)
                      "{'error':'Failed to analyze job fit'}")))
      as [v|m] eqn:E; [discriminate E|].
    destruct (proj2 (analyzeJobFit_through_server
                       (Some (Js.js "Managed inbound calls."))
                       (Some (Js.js "Looking for a CRM expert."))
                       Sample.says_prose _ (delivered_arrives _ _ _)) m E)
      as (sent & Hne & ->).
    now exists sent.
Defined.

Lemma fetchJobDescriptionFromUrl_through_server_witness :
  GeminiService.fetchJobDescriptionFromUrl Sample.browser
    (Net.FetchResolves
       (Sample.delivered
          (Server.fetch_description (Some (Js.js "https://example.org/job"))
             Sample.says_posting)
          "{'text':'We are hiring a CRM expert.'}"))
  = Net.Resolved (Js.js "We are hiring a CRM expert.")
  /\ GeminiService.fetchJobDescriptionFromUrl Sample.browser
       (Net.FetchResolves
          (Sample.delivered
             (Server.fetch_description
                (Some (Js.js "https://example.org/job")) Sample.says_nothing)
             "{'text':''}"))
     = Net.Resolved [].
Proof.
  split.
  - apply (fetchJobDescriptionFromUrl_through_server Sample.browser
             (Js.js "https://example.org/job") Sample.says_posting _
             ltac:(discriminate) (delivered_arrives _ _ _)).
  - apply (fetchJobDescriptionFromUrl_through_server Sample.browser
             (Js.js "https://example.org/job") Sample.says_nothing _
             ltac:(discriminate) (delivered_arrives _ _ _)).
    now left.
Defined.

Lemma fetchJobDescriptionFromUrl_trimmed_witness :
  Spec.trimmed (Js.js "We are hiring a CRM expert.").
Proof.
  apply (fetchJobDescriptionFromUrl_trimmed Sample.browser
           (Net.FetchResolves
              (Sample.delivered
                 (Server.fetch_description
                    (Some (Js.js "https://example.org/job"))
                    Sample.says_posting)
                 "{'text':'We are hiring a CRM expert.'}"))).
  reflexivity.
Defined.

Lemma calculateDistance_through_server_witness :
  GeminiService.calculateDistance
    (Net.FetchResolves
       (Sample.delivered
          (Server.distance (Some (Js.js "1 Main St"))
             (Some (Js.js "2 High St")) Sample.says_nothing)
          "{}"))
  = Net.Resolved (Types.JObject []).
Proof.
  apply (calculateDistance_through_server (Js.js "1 Main St")
           (Js.js "2 High St") Sample.says_nothing _
           ltac:(discriminate) ltac:(discriminate)
           (delivered_arrives _ _ _)).
Defined.

Lemma getAddressFromCoordinates_through_server_witness :
  GeminiService.getAddressFromCoordinates [] 
    (Net.FetchResolves
       (Sample.delivered
          (Server.reverse_geocode (Some (Types.JNumber 40))
             (Some (Types.JNumber 3)) Sample.says_nothing)
          "{'address':''}"))
  = Net.Resolved (Types.JString []).
Proof.
  apply (getAddressFromCoordinates_through_server [] 40 3
           Sample.says_nothing _ (delivered_arrives _ _ _)).
Defined.


Lemma handleSearch_never_finds_witness :
  JobSearchPage.results (JobSearchPage.handleSearch Sample.search) = [].
Proof.
  apply (proj2 (handleSearch_never_finds Sample.search)
           ltac:(now apply not_blank_text)).
Defined.

Lemma analyzeJobFit_through_store_server_witness :
  GeminiService.analyzeJobFit
    (Net.FetchResolves
       (Sample.delivered
          (StoreServer.analyze
             (StoreServer.Valid None (Some (Js.js "Managed inbound calls."))
                (Js.js "Looking for a CRM expert."))
             Sample.no_store Sample.says_prose)
          "{'raw':'Sure! Here is the analysis.'}"))
  = Net.Resolved
      (Types.JObject
         [(Js.js "raw", Types.JString (Js.js "Sure! Here is the analysis."))]).
Proof.
  apply (analyzeJobFit_through_store_server None
           (Js.js "Managed inbound calls.") (Js.js "Looking for a CRM expert.")
           Sample.no_store Sample.says_prose _ ltac:(discriminate)
           (delivered_arrives _ _ _)).
Defined.

Lemma mock_deleteResume_outcome_witness :
  MockApiService.deleteResume Sample.template Js.Date_getTime_iso
    (Js.js "r9") (Js.js "u1") (Js.js "2024-06-01T00:00:00.000Z")
    (Some Sample.cache)
  = (Net.Rejected (Js.js "Failed to delete the resume from the database."),
     Some Sample.cache)
  /\ MockApiService.deleteResume Sample.template Js.Date_getTime_iso
       (Js.js "r1") (Js.js "u1") (Js.js "2024-06-01T00:00:00.000Z")
       (Some Sample.cache)
     = (Net.Resolved true,
        Some [Sample.saved "r2" "2024-01-01T00:00:00.000Z";
              Sample.saved "r3" "2000-01-01T00:00:00.000Z"]).
Proof.
  split.
  - apply (proj1 (mock_deleteResume_outcome Sample.template
                    Js.Date_getTime_iso (Js.js "r9") (Js.js "u1")
                    (Js.js "2024-06-01T00:00:00.000Z") Sample.cache)).
    intros r Hr. simpl in Hr.
    destruct Hr as [<-|[<-|[<-|[]]]]; discriminate.
  - apply (proj2 (mock_deleteResume_outcome Sample.template
                    Js.Date_getTime_iso (Js.js "r1") (Js.js "u1")
                    (Js.js "2024-06-01T00:00:00.000Z") Sample.cache)).
    now left.
Defined.

Lemma deleteResume_through_store_server_witness :
  ApiService.deleteResume Sample.template (Js.js "r9")
    (Net.FetchResolves
       (Sample.delivered
          (StoreServer.delete_resume true StoreServer.DeleteNothing)
          "{'error':'Not found'}"))
    (Js.js "u1") (Js.js "2024-06-01T00:00:00.000Z") (Some Sample.cache)
  = (Net.Resolved true, Some Sample.cache)
  /\ Net.status
       (Sample.delivered
          (StoreServer.delete_resume true StoreServer.DeleteNothing)
          "{'error':'Not found'}")
     = 404%N.
Proof.
  destruct (deleteResume_through_store_server Sample.template (Js.js "r9")
              true StoreServer.DeleteNothing
              (Sample.delivered
                 (StoreServer.delete_resume true StoreServer.DeleteNothing)
                 "{'error':'Not found'}")
              (Js.js "u1") (Js.js "2024-06-01T00:00:00.000Z")
              (Some Sample.cache) eq_refl (delivered_arrives _ _ _))
    as [H1 H2].
  split; [exact H1 | now apply H2].
Defined.

Lemma sdk_analyzeJobFit_outcome_witness :
  GeminiSdk.analyzeJobFit Sample.says_json = Net.Resolved Sample.score
  /\ GeminiSdk.analyzeJobFit Sample.says_prose
     = Net.Rejected GeminiSdk.analysis_failed.
Proof.
  split.
  - apply (proj1 (sdk_analyzeJobFit_outcome Sample.says_json)).
    now eexists.
  - destruct (GeminiSdk.analyzeJobFit Sample.says_prose) as [v|m] eqn:E;
      [discriminate E|].
    f_equal.
    exact (proj1 (proj2 (sdk_analyzeJobFit_outcome Sample.says_prose)) m E).
Defined.

Lemma sdk_fetchJobDescriptionFromUrl_outcome_witness :
  GeminiSdk.fetchJobDescriptionFromUrl Sample.says_posting
  = Net.Resolved (Js.js "We are hiring a CRM expert.")
  /\ GeminiSdk.fetchJobDescriptionFromUrl
       (Server.GenerateText (Some (Js.js "  ")) (Net.SyntaxError []))
     = Net.Resolved [].
Proof.
  split.
  - apply (proj1 (sdk_fetchJobDescriptionFromUrl_outcome Sample.says_posting)).
    do 2 eexists. split; [reflexivity|]. split; [discriminate | reflexivity].
  - apply (proj2 (proj2 (sdk_fetchJobDescriptionFromUrl_outcome
                           Sample.says_nothing))).
    + discriminate.
    + repeat constructor.
Defined.
